(** * Bread_Colab networks.py: shapes and values of the forward passes

    A shallow embedding of [networks.py].  A tensor is a four-dimensional
    array (batch, channel, height, width): its four sizes are integers and
    its entries are read through an index function.  Entries are real
    numbers: the embedding idealises the framework's floating-point
    arithmetic (no rounding, no infinities, no NaN).

    A framework failure (a Python exception raised inside torch) is a value
    of [TorchError]; every layer is a function from a tensor to either an
    error or a tensor.  The checks that raise an error read only the sizes,
    exactly as the framework's checks do.

    The in-place rectifiers of the source (inplace=True) always act on the
    fresh output of the preceding convolution or normalisation, never on a
    tensor that is read again, so a layer is modelled as a pure function.
    In training mode batch normalisation also refreshes its running
    statistics; the returned tensor does not depend on them and the update
    is not part of what forward returns, so it is left out. *)

From Stdlib Require Import ZArith List Bool Reals Lra Lia.
Import ListNotations.

Open Scope Z_scope.

(** ** Errors and the error monad *)

Inductive TorchError : Type :=
| ConvWeightEmpty            (* expected weight to be at least 1 at dimension 0 *)
| ConvInputChannels          (* expected input to have C channels *)
| ConvKernelTooLarge         (* kernel size can't be greater than actual input size *)
| ConvTransposeInputChannels (* the same channel check, transposed convolution *)
| PoolEmptyInput             (* non-empty 3D or 4D tensor expected for input *)
| PoolOutputTooSmall         (* calculated output size is too small *)
| AvgPoolEmptyInput          (* expected non-zero size for non-batch dimensions *)
| UpsampleEmptyInput         (* input and output sizes should be greater than 0 *)
| BatchNormSingleValue       (* expected more than 1 value per channel when training *)
| BatchNormFeatures          (* running_mean should contain C elements *)
| PadNegativeSize            (* negative padding resulted in a negative output size *)
| CatSizes                   (* sizes of tensors must match except in dimension 1 *)
| BroadcastSizes.            (* the size of tensor a must match the size of tensor b *)

Definition result (A : Type) : Type := (TorchError + A)%type.

Definition raise {A : Type} (e : TorchError) : result A := inl e.
Definition ret {A : Type} (a : A) : result A := inr a.

Definition bind {A B : Type} (m : result A) (k : A -> result B) : result B :=
  match m with
  | inl e => inl e
  | inr a => k a
  end.

Notation "x <- m ;; k" := (bind m (fun x => k))
  (at level 61, m at next level, right associativity).

Definition fmap {A B : Type} (f : A -> B) (m : result A) : result B :=
  x <- m ;; ret (f x).

(** ** Tensors *)

Record Tensor : Type := mkTensor {
  dim0 : Z;                          (* batch *)
  dim1 : Z;                          (* channels *)
  dim2 : Z;                          (* height *)
  dim3 : Z;                          (* width *)
  item : Z -> Z -> Z -> Z -> R       (* entry at [n, c, i, j] *)
}.

(** [x.size()] *)
Definition size (x : Tensor) : list Z := [dim0 x; dim1 x; dim2 x; dim3 x].

(** Python's [s[k]] on a size, for the indices the source uses. *)
Definition size_at (s : list Z) (k : nat) : Z := nth k s 0.

Definition zeros (n c h w : Z) : Tensor := mkTensor n c h w (fun _ _ _ _ => 0%R).

(** A layer called on one tensor; the boolean is the module's [training]
    flag, which [train()] and [eval()] set on a network and on all its
    sub-modules at once. *)
Definition Layer : Type := bool -> Tensor -> result Tensor.

(** ** Scalar helpers *)

(** Sum of [f 0 .. f (n-1)]; zero when [n <= 0]. *)
Definition sumZ (n : Z) (f : Z -> R) : R :=
  fold_right (fun k acc => (f (Z.of_nat k) + acc)%R) 0%R (seq 0 (Z.to_nat n)).

(** Maximum of [f 0 .. f (n-1)], for [n >= 1]. *)
Definition maxZ (n : Z) (f : Z -> R) : R :=
  fold_right (fun k acc => Rmax (f (Z.of_nat k)) acc) (f 0) (seq 1 (Z.to_nat n - 1)).

Definition in_range (i n : Z) : bool := (0 <=? i) && (i <? n).

Definition relu (v : R) : R := Rmax 0 v.

Definition leaky_relu (negative_slope v : R) : R :=
  if Rlt_dec 0 v then v else (v * negative_slope)%R.

Definition sigmoid (v : R) : R := (1 / (1 + exp (- v)))%R.

Definition pointwise (f : R -> R) (x : Tensor) : Tensor :=
  mkTensor (dim0 x) (dim1 x) (dim2 x) (dim3 x)
           (fun n c i j => f (item x n c i j)).

(** ** Learned parameters

    The source's constructors draw the parameters at random; here a
    constructor receives them, laid out as the module's state dict. *)

Record ConvParams : Type := mkConvParams {
  conv_weight : Z -> Z -> Z -> Z -> R;
  conv_bias : Z -> R
}.

Record NormParams : Type := mkNormParams {
  bn_weight : Z -> R;
  bn_bias : Z -> R;
  bn_running_mean : Z -> R;
  bn_running_var : Z -> R
}.

(** ** The layers of torch.nn used by the source *)

Module nn.

(** [nn.Sequential(m0, m1, ...)]: the modules are called in order, each
    on the previous one's output. *)
Definition Sequential (modules : list Layer) : Layer :=
  fun training x =>
    fold_left (fun input module => bind input (module training)) modules (ret x).

Definition Identity : Layer := fun _ x => ret x.
Definition ReLU : Layer := fun _ x => ret (pointwise relu x).
Definition LeakyReLU (negative_slope : R) : Layer :=
  fun _ x => ret (pointwise (leaky_relu negative_slope) x).
Definition Sigmoid : Layer := fun _ x => ret (pointwise sigmoid x).

(** [nn.Conv2d(in_channels, out_channels, kernel_size, padding=padding)],
    stride 1, dilation 1, one group, with bias.  [weight] has size
    (out_channels, in_channels, kernel_size, kernel_size). *)
Definition Conv2d_out (out_channels kernel_size padding : Z)
    (p : ConvParams) (x : Tensor) : Tensor :=
  mkTensor (dim0 x) out_channels
    (dim2 x + 2 * padding - (kernel_size - 1) - 1 + 1)
    (dim3 x + 2 * padding - (kernel_size - 1) - 1 + 1)
    (fun n o i j =>
       (conv_bias p o +
        sumZ (dim1 x) (fun c =>
        sumZ kernel_size (fun a =>
        sumZ kernel_size (fun b =>
          let i' := (i + a - padding)%Z in
          let j' := (j + b - padding)%Z in
          if in_range i' (dim2 x) && in_range j' (dim3 x)
          then conv_weight p o c a b * item x n c i' j'
          else 0))))%R).

Definition Conv2d (in_channels out_channels kernel_size padding : Z)
    (p : ConvParams) : Layer :=
  fun _ x =>
    if out_channels <? 1 then raise ConvWeightEmpty
    else if negb (dim1 x =? in_channels) then raise ConvInputChannels
    else if (dim2 x + 2 * padding <? kernel_size)
            || (dim3 x + 2 * padding <? kernel_size)
         then raise ConvKernelTooLarge
    else ret (Conv2d_out out_channels kernel_size padding p x).

(** [nn.ConvTranspose2d(in_channels, out_channels, kernel_size, stride)],
    no padding.  [weight] has size (in_channels, out_channels, k, k). *)
Definition ConvTranspose2d_out (out_channels kernel_size stride : Z)
    (p : ConvParams) (x : Tensor) : Tensor :=
  mkTensor (dim0 x) out_channels
    ((dim2 x - 1) * stride + (kernel_size - 1) + 1)
    ((dim3 x - 1) * stride + (kernel_size - 1) + 1)
    (fun n o i j =>
       (conv_bias p o +
        sumZ (dim1 x) (fun c =>
        sumZ kernel_size (fun a =>
        sumZ kernel_size (fun b =>
          let i' := ((i - a) / stride)%Z in
          let j' := ((j - b) / stride)%Z in
          if (((i - a) mod stride =? 0) && ((j - b) mod stride =? 0))%Z
             && in_range i' (dim2 x) && in_range j' (dim3 x)
          then item x n c i' j' * conv_weight p c o a b
          else 0))))%R).

Definition ConvTranspose2d (in_channels out_channels kernel_size stride : Z)
    (p : ConvParams) : Layer :=
  fun _ x =>
    if in_channels <? 1 then raise ConvWeightEmpty
    else if negb (dim1 x =? in_channels) then raise ConvTransposeInputChannels
    else ret (ConvTranspose2d_out out_channels kernel_size stride p x).

(** [nn.BatchNorm2d(num_features)], eps 1e-5, affine, tracking running
    statistics.  In training mode the batch statistics of the input are
    used, in evaluation mode the running ones. *)
Definition bn_eps : R := (1 / 100000)%R.

Definition bn_count (x : Tensor) : Z := dim0 x * dim2 x * dim3 x.

Definition bn_mean (x : Tensor) (c : Z) : R :=
  (sumZ (dim0 x) (fun n => sumZ (dim2 x) (fun i => sumZ (dim3 x) (fun j =>
     item x n c i j))) / IZR (bn_count x))%R.

Definition bn_var (x : Tensor) (c : Z) : R :=
  (sumZ (dim0 x) (fun n => sumZ (dim2 x) (fun i => sumZ (dim3 x) (fun j =>
     (item x n c i j - bn_mean x c) * (item x n c i j - bn_mean x c))))
   / IZR (bn_count x))%R.

Definition BatchNorm2d_out (training : bool) (p : NormParams) (x : Tensor)
  : Tensor :=
  mkTensor (dim0 x) (dim1 x) (dim2 x) (dim3 x)
    (fun n c i j =>
       let mean := if training then bn_mean x c else bn_running_mean p c in
       let var := if training then bn_var x c else bn_running_var p c in
       ((item x n c i j - mean) / sqrt (var + bn_eps) * bn_weight p c
        + bn_bias p c)%R).

Definition BatchNorm2d (num_features : Z) (p : NormParams) : Layer :=
  fun training x =>
    if training && (bn_count x =? 1) then raise BatchNormSingleValue
    else if negb (dim1 x =? num_features) then raise BatchNormFeatures
    else ret (BatchNorm2d_out training p x).

(** [nn.MaxPool2d(kernel_size)]: the stride is the kernel size, no
    padding, floor mode. *)
Definition pool_size (kernel_size h : Z) : Z :=
  (h + 2 * 0 - 1 * (kernel_size - 1) - 1) / kernel_size + 1.

Definition MaxPool2d_out (kernel_size : Z) (x : Tensor) : Tensor :=
  mkTensor (dim0 x) (dim1 x)
    (pool_size kernel_size (dim2 x)) (pool_size kernel_size (dim3 x))
    (fun n c i j =>
       maxZ kernel_size (fun a => maxZ kernel_size (fun b =>
         item x n c (kernel_size * i + a) (kernel_size * j + b)))).

Definition MaxPool2d (kernel_size : Z) : Layer :=
  fun _ x =>
    if (dim1 x =? 0) || (dim2 x =? 0) || (dim3 x =? 0) then raise PoolEmptyInput
    else if (pool_size kernel_size (dim2 x) <? 1)
            || (pool_size kernel_size (dim3 x) <? 1)
         then raise PoolOutputTooSmall
    else ret (MaxPool2d_out kernel_size x).

(** [nn.AdaptiveAvgPool2d(output_size)]: output cell [i] averages the
    input rows from floor(i*H/out) up to ceil((i+1)*H/out). *)
Definition pool_start (i h out : Z) : Z := (i * h) / out.
Definition pool_end (i h out : Z) : Z := ((i + 1) * h + out - 1) / out.

Definition AdaptiveAvgPool2d_out (output_size : Z) (x : Tensor) : Tensor :=
  mkTensor (dim0 x) (dim1 x) output_size output_size
    (fun n c i j =>
       let i0 := pool_start i (dim2 x) output_size in
       let i1 := pool_end i (dim2 x) output_size in
       let j0 := pool_start j (dim3 x) output_size in
       let j1 := pool_end j (dim3 x) output_size in
       (sumZ (i1 - i0)%Z (fun a => sumZ (j1 - j0)%Z (fun b =>
          item x n c (i0 + a)%Z (j0 + b)%Z))
        / IZR ((i1 - i0) * (j1 - j0)))%R).

Definition AdaptiveAvgPool2d (output_size : Z) : Layer :=
  fun _ x =>
    if (dim1 x =? 0) || (dim2 x =? 0) || (dim3 x =? 0) then raise AvgPoolEmptyInput
    else ret (AdaptiveAvgPool2d_out output_size x).

(** [nn.Upsample(scale_factor=s, mode='bilinear', align_corners=True)]:
    output index [i] reads the input at [i * (H-1) / (s*H - 1)], between
    row [src_index] and the next one with weight [src_lambda]; with a single
    output row the scale is 0. *)
Definition src_index (i h out : Z) : Z :=
  if 1 <? out then (i * (h - 1)) / (out - 1) else 0.
Definition src_lambda (i h out : Z) : R :=
  if 1 <? out then (IZR ((i * (h - 1)) mod (out - 1)) / IZR (out - 1))%R
  else 0%R.
Definition src_next (i0 h : Z) : Z := if i0 <? h - 1 then 1 else 0.

Definition Upsample_out (scale_factor : Z) (x : Tensor) : Tensor :=
  let oh := dim2 x * scale_factor in
  let ow := dim3 x * scale_factor in
  mkTensor (dim0 x) (dim1 x) oh ow
    (fun n c i j =>
       let h1 := src_index i (dim2 x) oh in
       let w1 := src_index j (dim3 x) ow in
       let h1p := src_next h1 (dim2 x) in
       let w1p := src_next w1 (dim3 x) in
       let h1l := src_lambda i (dim2 x) oh in
       let w1l := src_lambda j (dim3 x) ow in
       ((1 - h1l) * ((1 - w1l) * item x n c h1 w1
                     + w1l * item x n c h1 (w1 + w1p)%Z)
        + h1l * ((1 - w1l) * item x n c (h1 + h1p)%Z w1
                 + w1l * item x n c (h1 + h1p)%Z (w1 + w1p)%Z))%R).

Definition Upsample (scale_factor : Z) : Layer :=
  fun _ x =>
    if (dim1 x <? 1) || (dim2 x <? 1) || (dim3 x <? 1)
       || (dim2 x * scale_factor <? 1) || (dim3 x * scale_factor <? 1)
    then raise UpsampleEmptyInput
    else ret (Upsample_out scale_factor x).

End nn.

(** ** torch.nn.functional and torch *)

Module F.

(** [F.pad(x, [left, right, top, bottom])], constant zero padding of the
    last two axes; a negative amount crops. *)
Definition pad_out (x : Tensor) (left right top bottom : Z) : Tensor :=
  mkTensor (dim0 x) (dim1 x) (dim2 x + top + bottom) (dim3 x + left + right)
    (fun n c i j =>
       if in_range (i - top) (dim2 x) && in_range (j - left) (dim3 x)
       then item x n c (i - top) (j - left)
       else 0%R).

Definition pad (x : Tensor) (p : list Z) : result Tensor :=
  let left := size_at p 0 in
  let right := size_at p 1 in
  let top := size_at p 2 in
  let bottom := size_at p 3 in
  if (dim3 x + left + right <? 0) || (dim2 x + top + bottom <? 0)
  then raise PadNegativeSize
  else ret (pad_out x left right top bottom).

End F.

Module torch.

(** [torch.cat([a, b], dim=1)] *)
Definition cat_out (a b : Tensor) : Tensor :=
  mkTensor (dim0 a) (dim1 a + dim1 b) (dim2 a) (dim3 a)
    (fun n c i j =>
       if c <? dim1 a then item a n c i j else item b n (c - dim1 a) i j).

Definition cat (a b : Tensor) : result Tensor :=
  if (dim0 a =? dim0 b) && (dim2 a =? dim2 b) && (dim3 a =? dim3 b)
  then ret (cat_out a b)
  else raise CatSizes.

(** [a * b] with broadcasting: along each axis the sizes are equal or
    one of them is 1, and the tensor of size 1 is read at index 0. *)
Definition broadcast_ok (m n : Z) : bool := (m =? n) || (m =? 1) || (n =? 1).
Definition broadcast (m n : Z) : Z := if m =? 1 then n else m.
Definition bidx (m i : Z) : Z := if m =? 1 then 0 else i.

Definition mul_out (a b : Tensor) : Tensor :=
  mkTensor (broadcast (dim0 a) (dim0 b)) (broadcast (dim1 a) (dim1 b))
           (broadcast (dim2 a) (dim2 b)) (broadcast (dim3 a) (dim3 b))
    (fun n c i j =>
       (item a (bidx (dim0 a) n) (bidx (dim1 a) c) (bidx (dim2 a) i) (bidx (dim3 a) j)
        * item b (bidx (dim0 b) n) (bidx (dim1 b) c) (bidx (dim2 b) i) (bidx (dim3 b) j))%R).

Definition mul (a b : Tensor) : result Tensor :=
  if broadcast_ok (dim0 a) (dim0 b) && broadcast_ok (dim1 a) (dim1 b)
     && broadcast_ok (dim2 a) (dim2 b) && broadcast_ok (dim3 a) (dim3 b)
  then ret (mul_out a b)
  else raise BroadcastSizes.

End torch.

(** ** The classes of networks.py *)

Module PALayer.

(* state dict: pa.0.weight, pa.0.bias, pa.2.weight, pa.2.bias *)
Record params : Type := mkParams { pa_0 : ConvParams; pa_2 : ConvParams }.

Record t : Type := mk { pa : Layer }.

Definition init (channel : Z) (p : params) : t :=
  {| pa := nn.Sequential [
       nn.Conv2d channel (channel / 8) 1 0 (pa_0 p);
       nn.ReLU;
       nn.Conv2d (channel / 8) 1 1 0 (pa_2 p);
       nn.Sigmoid
     ] |}.

Definition forward (self : t) : Layer :=
  fun training x =>
    y <- pa self training x ;;
    torch.mul x y.

End PALayer.

Module CALayer.

Record params : Type := mkParams { ca_0 : ConvParams; ca_2 : ConvParams }.

Record t : Type := mk { avg_pool : Layer; ca : Layer }.

Definition init (channel : Z) (p : params) : t :=
  {| avg_pool := nn.AdaptiveAvgPool2d 1;
     ca := nn.Sequential [
       nn.Conv2d channel (channel / 8) 1 0 (ca_0 p);
       nn.ReLU;
       nn.Conv2d (channel / 8) channel 1 0 (ca_2 p);
       nn.Sigmoid
     ] |}.

Definition forward (self : t) : Layer :=
  fun training x =>
    y <- avg_pool self training x ;;
    y <- ca self training y ;;
    torch.mul x y.

End CALayer.

Module DoubleConv.

(* state dict: conv.0, conv.1 (if norm), conv.3, conv.4 (if norm) *)
Record params : Type := mkParams {
  conv_0 : ConvParams; conv_1 : NormParams;
  conv_3 : ConvParams; conv_4 : NormParams
}.

Record t : Type := mk { conv : Layer }.

(* defaults: norm=False, leaky=True *)
Definition init (in_channels out_channels : Z) (norm leaky : bool) (p : params) : t :=
  {| conv := nn.Sequential [
       nn.Conv2d in_channels out_channels 3 1 (conv_0 p);
       if norm then nn.BatchNorm2d out_channels (conv_1 p) else nn.Identity;
       if leaky then nn.LeakyReLU (2 / 10)%R else nn.ReLU;
       nn.Conv2d out_channels out_channels 3 1 (conv_3 p);
       if norm then nn.BatchNorm2d out_channels (conv_4 p) else nn.Identity;
       if leaky then nn.LeakyReLU (2 / 10)%R else nn.ReLU
     ] |}.

Definition forward (self : t) : Layer :=
  fun training x => conv self training x.

End DoubleConv.

Module OutConv.

Record t : Type := mk { conv : Layer }.

(* default: act=True *)
Definition init (in_channels out_channels : Z) (act : bool) (p : ConvParams) : t :=
  {| conv := nn.Sequential [
       nn.Conv2d in_channels out_channels 3 1 p;
       if act then nn.Sigmoid else nn.Identity
     ] |}.

Definition forward (self : t) : Layer :=
  fun training x => conv self training x.

End OutConv.

Module Down.

Record t : Type := mk { maxpool_conv : Layer }.

(* defaults: norm=True, leaky=True *)
Definition init (in_channels out_channels : Z) (norm leaky : bool)
    (p : DoubleConv.params) : t :=
  {| maxpool_conv := nn.Sequential [
       nn.MaxPool2d 2;
       DoubleConv.forward (DoubleConv.init in_channels out_channels norm leaky p)
     ] |}.

Definition forward (self : t) : Layer :=
  fun training x => maxpool_conv self training x.

End Down.

Module Up.

(* state dict: up.weight, up.bias (transposed convolution only), conv.* *)
Record params : Type := mkParams { p_up : ConvParams; p_conv : DoubleConv.params }.

Record t : Type := mk { up : Layer; conv : DoubleConv.t }.

(* defaults: bilinear=True, norm=True, leaky=True *)
Definition init (in_channels out_channels : Z) (bilinear norm leaky : bool)
    (p : params) : t :=
  if bilinear then
    {| up := nn.Upsample 2;
       conv := DoubleConv.init in_channels out_channels norm leaky (p_conv p) |}
  else
    {| up := nn.ConvTranspose2d in_channels (in_channels / 2) 2 2 (p_up p);
       conv := DoubleConv.init in_channels out_channels norm leaky (p_conv p) |}.

Definition forward (self : t) (training : bool) (x1 x2 : Tensor) : result Tensor :=
  x1 <- up self training x1 ;;
  let diffY := size_at (size x2) 2 - size_at (size x1) 2 in
  let diffX := size_at (size x2) 3 - size_at (size x1) 3 in
  x1 <- F.pad x1 [diffX / 2; diffX - diffX / 2;
                  diffY / 2; diffY - diffY / 2] ;;
  x <- torch.cat x2 x1 ;;
  DoubleConv.forward (conv self) training x.

End Up.

Module AttentiveDown.

Record params : Type := mkParams {
  p_down : DoubleConv.params;
  p_attention_0 : CALayer.params;
  p_attention_1 : PALayer.params
}.

Record t : Type := mk { down : Down.t; attention : Layer }.

(* defaults: norm=False, leaky=True *)
Definition init (in_channels out_channels : Z) (norm leaky : bool) (p : params) : t :=
  {| down := Down.init in_channels out_channels norm leaky (p_down p);
     attention := nn.Sequential [
       CALayer.forward (CALayer.init out_channels (p_attention_0 p));
       PALayer.forward (PALayer.init out_channels (p_attention_1 p))
     ] |}.

Definition forward (self : t) : Layer :=
  fun training x =>
    d <- Down.forward (down self) training x ;;
    attention self training d.

End AttentiveDown.

Module AttentiveUp.

Record params : Type := mkParams {
  p_up : Up.params;
  p_attention_0 : CALayer.params;
  p_attention_1 : PALayer.params
}.

Record t : Type := mk { up : Up.t; attention : Layer }.

(* defaults: bilinear=True, norm=False, leaky=True *)
Definition init (in_channels out_channels : Z) (bilinear norm leaky : bool)
    (p : params) : t :=
  {| up := Up.init in_channels out_channels bilinear norm leaky (p_up p);
     attention := nn.Sequential [
       CALayer.forward (CALayer.init out_channels (p_attention_0 p));
       PALayer.forward (PALayer.init out_channels (p_attention_1 p))
     ] |}.

Definition forward (self : t) (training : bool) (x1 x2 : Tensor) : result Tensor :=
  u <- Up.forward (up self) training x1 x2 ;;
  attention self training u.

End AttentiveUp.

Module AttentiveDoubleConv.

Record params : Type := mkParams {
  p_conv : DoubleConv.params;
  p_attention_0 : CALayer.params;
  p_attention_1 : PALayer.params
}.

Record t : Type := mk { conv : DoubleConv.t; attention : Layer }.

(* defaults: norm=False, leaky=False *)
Definition init (in_channels out_channels : Z) (norm leaky : bool) (p : params) : t :=
  {| conv := DoubleConv.init in_channels out_channels norm leaky (p_conv p);
     attention := nn.Sequential [
       CALayer.forward (CALayer.init out_channels (p_attention_0 p));
       PALayer.forward (PALayer.init out_channels (p_attention_1 p))
     ] |}.

Definition forward (self : t) : Layer :=
  fun training x =>
    c <- DoubleConv.forward (conv self) training x ;;
    attention self training c.

End AttentiveDoubleConv.

Module BaseNet.

Record params : Type := mkParams {
  p_inc : DoubleConv.params;
  p_down1 : DoubleConv.params;
  p_down2 : DoubleConv.params;
  p_down3 : DoubleConv.params;
  p_up1 : Up.params;
  p_up2 : Up.params;
  p_up3 : Up.params;
  p_outc : ConvParams
}.

Record t : Type := mk {
  n_channels : Z;
  n_classes : Z;
  inc : DoubleConv.t;
  down1 : Down.t;
  down2 : Down.t;
  down3 : Down.t;
  up1 : Up.t;
  up2 : Up.t;
  up3 : Up.t;
  outc : OutConv.t
}.

(* defaults: in_channels=1, out_channels=1, norm=True *)
Definition init (in_channels out_channels : Z) (norm : bool) (p : params) : t :=
  {| n_channels := in_channels;
     n_classes := out_channels;
     inc := DoubleConv.init in_channels 32 norm true (p_inc p);
     down1 := Down.init 32 64 norm true (p_down1 p);
     down2 := Down.init 64 128 norm true (p_down2 p);
     down3 := Down.init 128 128 norm true (p_down3 p);
     up1 := Up.init 256 64 true norm true (p_up1 p);
     up2 := Up.init 128 32 true norm true (p_up2 p);
     up3 := Up.init 64 32 true norm true (p_up3 p);
     outc := OutConv.init 32 out_channels true (p_outc p) |}.

(** [self.outc = ...]: assignment to the attribute of a constructed net *)
Definition set_outc (self : t) (o : OutConv.t) : t :=
  {| n_channels := n_channels self;
     n_classes := n_classes self;
     inc := inc self;
     down1 := down1 self;
     down2 := down2 self;
     down3 := down3 self;
     up1 := up1 self;
     up2 := up2 self;
     up3 := up3 self;
     outc := o |}.

(** The body of [forward] up to, and without, the call of [self.outc]. *)
Definition features (self : t) : Layer :=
  fun training x =>
    x1 <- DoubleConv.forward (inc self) training x ;;
    x2 <- Down.forward (down1 self) training x1 ;;
    x3 <- Down.forward (down2 self) training x2 ;;
    x4 <- Down.forward (down3 self) training x3 ;;
    x <- Up.forward (up1 self) training x4 x3 ;;
    x <- Up.forward (up2 self) training x x2 ;;
    Up.forward (up3 self) training x x1.

Definition forward (self : t) : Layer :=
  fun training x =>
    x1 <- DoubleConv.forward (inc self) training x ;;
    x2 <- Down.forward (down1 self) training x1 ;;
    x3 <- Down.forward (down2 self) training x2 ;;
    x4 <- Down.forward (down3 self) training x3 ;;
    x <- Up.forward (up1 self) training x4 x3 ;;
    x <- Up.forward (up2 self) training x x2 ;;
    x <- Up.forward (up3 self) training x x1 ;;
    logits <- OutConv.forward (outc self) training x ;;
    ret logits.

End BaseNet.

(** [IAN] and [ANSN] inherit [forward] from [BaseNet]. *)
Module IAN.

Definition init (in_channels out_channels : Z) (norm : bool)
    (p : BaseNet.params) : BaseNet.t :=
  BaseNet.init in_channels out_channels norm p.

Definition forward : BaseNet.t -> Layer := BaseNet.forward.

End IAN.

Module ANSN.

Definition init (in_channels out_channels : Z) (norm : bool)
    (p : BaseNet.params) : BaseNet.t :=
  let self := BaseNet.init in_channels out_channels norm p in
  BaseNet.set_outc self (OutConv.init 32 out_channels false (BaseNet.p_outc p)).

Definition forward : BaseNet.t -> Layer := BaseNet.forward.

End ANSN.

Module FuseNet.

Record params : Type := mkParams {
  p_inc : AttentiveDoubleConv.params;
  p_down1 : AttentiveDown.params;
  p_down2 : AttentiveDown.params;
  p_up1 : AttentiveUp.params;
  p_up2 : AttentiveUp.params;
  p_outc : ConvParams
}.

Record t : Type := mk {
  inc : AttentiveDoubleConv.t;
  down1 : AttentiveDown.t;
  down2 : AttentiveDown.t;
  up1 : AttentiveUp.t;
  up2 : AttentiveUp.t;
  outc : OutConv.t
}.

(* defaults: in_channels=1, out_channels=1, norm=False *)
Definition init (in_channels out_channels : Z) (norm : bool) (p : params) : t :=
  {| inc := AttentiveDoubleConv.init in_channels 32 norm false (p_inc p);
     down1 := AttentiveDown.init 32 64 norm false (p_down1 p);
     down2 := AttentiveDown.init 64 64 norm false (p_down2 p);
     up1 := AttentiveUp.init 128 32 true norm false (p_up1 p);
     up2 := AttentiveUp.init 64 32 true norm false (p_up2 p);
     outc := OutConv.init 32 out_channels true (p_outc p) |}.

Definition forward (self : t) : Layer :=
  fun training x =>
    x1 <- AttentiveDoubleConv.forward (inc self) training x ;;
    x2 <- AttentiveDown.forward (down1 self) training x1 ;;
    x3 <- AttentiveDown.forward (down2 self) training x2 ;;
    x <- AttentiveUp.forward (up1 self) training x3 x2 ;;
    x <- AttentiveUp.forward (up2 self) training x x1 ;;
    logits <- OutConv.forward (outc self) training x ;;
    ret logits.

End FuseNet.

(** ** Concrete parameters and inputs used in the examples *)

Definition conv_zero : ConvParams :=
  mkConvParams (fun _ _ _ _ => 0%R) (fun _ => 0%R).

Definition norm_unit : NormParams :=
  mkNormParams (fun _ => 1%R) (fun _ => 0%R) (fun _ => 0%R) (fun _ => 1%R).

Definition double_zero : DoubleConv.params :=
  DoubleConv.mkParams conv_zero norm_unit conv_zero norm_unit.

Definition up_zero : Up.params := Up.mkParams conv_zero double_zero.

Definition pa_zero : PALayer.params := PALayer.mkParams conv_zero conv_zero.
Definition ca_zero : CALayer.params := CALayer.mkParams conv_zero conv_zero.

Definition basenet_zero : BaseNet.params :=
  BaseNet.mkParams double_zero double_zero double_zero double_zero
                   up_zero up_zero up_zero conv_zero.

Definition fusenet_zero : FuseNet.params :=
  FuseNet.mkParams
    (AttentiveDoubleConv.mkParams double_zero ca_zero pa_zero)
    (AttentiveDown.mkParams double_zero ca_zero pa_zero)
    (AttentiveDown.mkParams double_zero ca_zero pa_zero)
    (AttentiveUp.mkParams up_zero ca_zero pa_zero)
    (AttentiveUp.mkParams up_zero ca_zero pa_zero)
    conv_zero.

(** ** What a call returns *)

(** The call succeeds and the tensor it returns has size (n, c, h, w). *)
Definition returns (r : result Tensor) (n c h w : Z) : Prop :=
  exists y, r = inr y /\ size y = [n; c; h; w].

(** The call either returns a tensor of batch size [b] or raises an error
    other than [CatSizes]. *)
Definition batch_or_other (r : result Tensor) (b : Z) : Prop :=
  match r with
  | inl e => e <> CatSizes
  | inr y => dim0 y = b
  end.

(** A layer that changes no batch size and never raises [CatSizes]. *)
Definition tame (m : Layer) : Prop :=
  forall training x, batch_or_other (m training x) (dim0 x).

(** The same for a block called on a tensor and a skip tensor of one
    batch size. *)
Definition tame2 (f : bool -> Tensor -> Tensor -> result Tensor) : Prop :=
  forall training x1 x2,
    dim0 x1 = dim0 x2 -> batch_or_other (f training x1 x2) (dim0 x2).

(** The tensor [Up.forward] concatenates to the skip tensor [x2]: the
    upsampled tensor [u] padded with the amounts [forward] computes. *)
Definition pad_to (u x2 : Tensor) : Tensor :=
  let diffY := dim2 x2 - dim2 u in
  let diffX := dim3 x2 - dim3 u in
  F.pad_out u (diffX / 2) (diffX - diffX / 2) (diffY / 2) (diffY - diffY / 2).

(** The gate of [PALayer]: what the pipeline [pa] computes from [x] when
    none of its layers fails. *)
Definition PA_gate (channel : Z) (p : PALayer.params) (x : Tensor) : Tensor :=
  pointwise sigmoid
    (nn.Conv2d_out 1 1 0 (PALayer.pa_2 p)
       (pointwise relu
          (nn.Conv2d_out (channel / 8) 1 0 (PALayer.pa_0 p) x))).

(** The gate of [CALayer]: the pipeline [ca] on the pooled input. *)
Definition CA_gate (channel : Z) (p : CALayer.params) (x : Tensor) : Tensor :=
  pointwise sigmoid
    (nn.Conv2d_out channel 1 0 (CALayer.ca_2 p)
       (pointwise relu
          (nn.Conv2d_out (channel / 8) 1 0 (CALayer.ca_0 p)
             (nn.AdaptiveAvgPool2d_out 1 x)))).

(** All entries of a tensor lie in the unit interval. *)
Definition unit_valued (g : Tensor) : Prop :=
  forall n c i j, (0 <= item g n c i j <= 1)%R.

(** A layer whose output, when it returns one, has the height and width
    of its input. *)
Definition keeps_hw (m : Layer) : Prop :=
  forall training x y,
    m training x = inr y -> dim2 y = dim2 x /\ dim3 y = dim3 x.

(** A layer whose output, when it returns one, has the size of its input. *)
Definition keeps_size (m : Layer) : Prop :=
  forall training x y, m training x = inr y -> size y = size x.

(** What the attention pipeline of the attentive blocks returns on [b] when
    it does not fail: [b] gated by CALayer, the result gated by PALayer. *)
Definition gated (channel : Z) (pc : CALayer.params) (pp : PALayer.params)
    (b : Tensor) : Tensor :=
  let c := torch.mul_out b (CA_gate channel pc b) in
  torch.mul_out c (PA_gate channel pp c).

(** A layer that does not read the [training] flag. *)
Definition mode_free (m : Layer) : Prop :=
  forall x, m true x = m false x.

(** The largest absolute value is not exceeded, and the sign is kept:
    [y] lies between 0 and [v]. *)
Definition shrunk (v y : R) : Prop :=
  (Rabs y <= Rabs v)%R /\ (0 <= v * y)%R /\ (v = 0%R -> y = 0%R).

(** * Proofs *)

Create HintDb layers discriminated.

(** ** The error monad and Sequential *)

Lemma size_eq (x : Tensor) (n c h w : Z) :
  size x = [n; c; h; w] <->
  dim0 x = n /\ dim1 x = c /\ dim2 x = h /\ dim3 x = w.
Proof.
  unfold size; split.
  - intros E; injection E; auto.
  - intros (-> & -> & -> & ->); reflexivity.
Qed.

Lemma returns_intro (y : Tensor) (n c h w : Z) :
  dim0 y = n -> dim1 y = c -> dim2 y = h -> dim3 y = w ->
  returns (ret y) n c h w.
Proof.
  intros; exists y; split; [reflexivity | apply size_eq; auto].
Qed.

Lemma returns_bind (r : result Tensor) (k : Tensor -> result Tensor)
      (n c h w n' c' h' w' : Z) :
  returns r n c h w ->
  (forall y, size y = [n; c; h; w] -> returns (k y) n' c' h' w') ->
  returns (bind r k) n' c' h' w'.
Proof.
  intros (y & -> & Hy) Hk; simpl; auto.
Qed.

Lemma fold_left_raise (ms : list Layer) (training : bool) (e : TorchError) :
  fold_left (fun input module => bind input (module training)) ms (inl e) = inl e.
Proof.
  induction ms as [|m ms IH]; simpl; auto.
Qed.

Lemma Sequential_nil (training : bool) (x : Tensor) :
  nn.Sequential [] training x = ret x.
Proof. reflexivity. Qed.

Lemma Sequential_cons (m : Layer) (ms : list Layer) (training : bool) (x : Tensor) :
  nn.Sequential (m :: ms) training x =
  (y <- m training x ;; nn.Sequential ms training y).
Proof.
  unfold nn.Sequential; simpl.
  destruct (m training x) as [e|y]; simpl; auto using fold_left_raise.
Qed.

Lemma Sequential_two (m1 m2 : Layer) (training : bool) (x : Tensor) :
  nn.Sequential [m1; m2] training x = (y <- m1 training x ;; m2 training y).
Proof.
  rewrite Sequential_cons.
  destruct (m1 training x) as [e|y]; simpl; auto.
Qed.

Lemma tame_Sequential (ms : list Layer) :
  Forall tame ms -> tame (nn.Sequential ms).
Proof.
  induction 1 as [|m ms Hm _ IH]; intros training x.
  - rewrite Sequential_nil; reflexivity.
  - rewrite Sequential_cons.
    specialize (Hm training x); unfold batch_or_other in *.
    destruct (m training x) as [e|y]; simpl; auto.
    specialize (IH training y).
    destruct (nn.Sequential ms training y); congruence.
Qed.

(** ** The scalar functions *)

Lemma sigmoid_bounds (v : R) : (0 < sigmoid v < 1)%R.
Proof.
  unfold sigmoid.
  pose proof (exp_pos (- v)) as He.
  assert (Hd : (0 < 1 + exp (- v))%R) by lra.
  split.
  - apply Rdiv_lt_0_compat; lra.
  - apply (Rmult_lt_reg_r (1 + exp (- v))); auto.
    unfold Rdiv; rewrite Rmult_assoc, Rinv_l; lra.
Qed.

Lemma sigmoid_unit_interval (v : R) : (0 <= sigmoid v <= 1)%R.
Proof. pose proof (sigmoid_bounds v); lra. Qed.


Lemma sumZ_zero (n : Z) (f : Z -> R) :
  (forall k, f k = 0%R) -> sumZ n f = 0%R.
Proof.
  intros Hf; unfold sumZ.
  induction (seq 0 (Z.to_nat n)) as [|k l IH]; simpl; auto.
  rewrite Hf, IH; lra.
Qed.

(** ** The framework layers: when they succeed, and what they return *)

Ltac decide_tests :=
  repeat match goal with
  | |- context [?a <? ?b] => destruct (Z.ltb_spec a b); try lia
  | |- context [?a =? ?b] => destruct (Z.eqb_spec a b); try lia
  | |- context [?a <=? ?b] => destruct (Z.leb_spec a b); try lia
  end; simpl; try reflexivity; try congruence.

Lemma Conv2d_ok (cin cout k pad : Z) (p : ConvParams) (training : bool) (x : Tensor) :
  1 <= cout -> dim1 x = cin ->
  k <= dim2 x + 2 * pad -> k <= dim3 x + 2 * pad ->
  nn.Conv2d cin cout k pad p training x = ret (nn.Conv2d_out cout k pad p x).
Proof. intros; unfold nn.Conv2d; decide_tests. Qed.

Lemma Conv2d_no_output_channels (cin cout k pad : Z) (p : ConvParams)
      (training : bool) (x : Tensor) :
  cout < 1 -> nn.Conv2d cin cout k pad p training x = raise ConvWeightEmpty.
Proof. intros; unfold nn.Conv2d; decide_tests. Qed.

Lemma Conv2d_wrong_channels (cin cout k pad : Z) (p : ConvParams)
      (training : bool) (x : Tensor) :
  1 <= cout -> dim1 x <> cin ->
  nn.Conv2d cin cout k pad p training x = raise ConvInputChannels.
Proof. intros; unfold nn.Conv2d; decide_tests. Qed.

Lemma ConvTranspose2d_ok (cin cout k s : Z) (p : ConvParams) (training : bool)
      (x : Tensor) :
  1 <= cin -> dim1 x = cin ->
  nn.ConvTranspose2d cin cout k s p training x
  = ret (nn.ConvTranspose2d_out cout k s p x).
Proof. intros; unfold nn.ConvTranspose2d; decide_tests. Qed.

Lemma BatchNorm2d_ok (c : Z) (p : NormParams) (training : bool) (x : Tensor) :
  dim1 x = c -> (training = true -> dim0 x * dim2 x * dim3 x <> 1) ->
  nn.BatchNorm2d c p training x = ret (nn.BatchNorm2d_out training p x).
Proof.
  intros Hc Hn; unfold nn.BatchNorm2d, nn.bn_count.
  destruct training; simpl.
  - specialize (Hn eq_refl); decide_tests.
  - decide_tests.
Qed.

Lemma BatchNorm2d_single_value (c : Z) (p : NormParams) (x : Tensor) :
  dim0 x * dim2 x * dim3 x = 1 ->
  nn.BatchNorm2d c p true x = raise BatchNormSingleValue.
Proof. intros; unfold nn.BatchNorm2d, nn.bn_count; decide_tests. Qed.

Lemma pool_size_2 (h : Z) : nn.pool_size 2 h = h / 2.
Proof.
  unfold nn.pool_size.
  replace (h + 2 * 0 - 1 * (2 - 1) - 1) with (h + (-1) * 2) by lia.
  rewrite Z.div_add by lia; lia.
Qed.

Lemma MaxPool2d_ok (training : bool) (x : Tensor) :
  1 <= dim1 x -> 2 <= dim2 x -> 2 <= dim3 x ->
  nn.MaxPool2d 2 training x = ret (nn.MaxPool2d_out 2 x).
Proof.
  intros Hc Hh Hw; unfold nn.MaxPool2d; rewrite !pool_size_2.
  assert (1 <= dim2 x / 2) by (apply Z.div_le_lower_bound; lia).
  assert (1 <= dim3 x / 2) by (apply Z.div_le_lower_bound; lia).
  decide_tests.
Qed.

Lemma MaxPool2d_too_small (training : bool) (x : Tensor) :
  1 <= dim1 x -> 1 <= dim2 x -> 1 <= dim3 x -> dim2 x < 2 \/ dim3 x < 2 ->
  nn.MaxPool2d 2 training x = raise PoolOutputTooSmall.
Proof.
  intros Hc Hh Hw Hs; unfold nn.MaxPool2d; rewrite !pool_size_2.
  assert (dim2 x / 2 < 1 \/ dim3 x / 2 < 1).
  { destruct Hs; [left | right]; apply Z.div_lt_upper_bound; lia. }
  decide_tests.
Qed.

Lemma AdaptiveAvgPool2d_ok (o : Z) (training : bool) (x : Tensor) :
  1 <= dim1 x -> 1 <= dim2 x -> 1 <= dim3 x ->
  nn.AdaptiveAvgPool2d o training x = ret (nn.AdaptiveAvgPool2d_out o x).
Proof. intros; unfold nn.AdaptiveAvgPool2d; decide_tests. Qed.

Lemma Upsample_ok (training : bool) (x : Tensor) :
  1 <= dim1 x -> 1 <= dim2 x -> 1 <= dim3 x ->
  nn.Upsample 2 training x = ret (nn.Upsample_out 2 x).
Proof. intros; unfold nn.Upsample; decide_tests. Qed.

Lemma pad_ok (x : Tensor) (left right top bottom : Z) :
  0 <= dim3 x + left + right -> 0 <= dim2 x + top + bottom ->
  F.pad x [left; right; top; bottom] = ret (F.pad_out x left right top bottom).
Proof. intros; unfold F.pad, size_at; simpl nth; decide_tests. Qed.

Lemma cat_ok (a b : Tensor) :
  dim0 a = dim0 b -> dim2 a = dim2 b -> dim3 a = dim3 b ->
  torch.cat a b = ret (torch.cat_out a b).
Proof. intros; unfold torch.cat; decide_tests. Qed.

Lemma mul_ok (a b : Tensor) :
  dim0 b = dim0 a ->
  dim1 b = dim1 a \/ dim1 b = 1 ->
  dim2 b = dim2 a \/ dim2 b = 1 ->
  dim3 b = dim3 a \/ dim3 b = 1 ->
  torch.mul a b = ret (torch.mul_out a b).
Proof.
  intros H0 H1 H2 H3; unfold torch.mul, torch.broadcast_ok.
  rewrite H0; destruct H1 as [-> | ->], H2 as [-> | ->], H3 as [-> | ->];
    rewrite ?Z.eqb_refl, ?orb_true_r; reflexivity.
Qed.

Lemma mul_out_size (a b : Tensor) :
  dim0 b = dim0 a ->
  dim1 b = dim1 a \/ dim1 b = 1 ->
  dim2 b = dim2 a \/ dim2 b = 1 ->
  dim3 b = dim3 a \/ dim3 b = 1 ->
  size (torch.mul_out a b) = size a.
Proof.
  intros H0 H1 H2 H3; unfold size, torch.mul_out, torch.broadcast; simpl.
  rewrite H0.
  repeat f_equal.
  - destruct (Z.eqb_spec (dim0 a) 1); congruence.
  - destruct H1 as [-> | ->]; destruct (Z.eqb_spec (dim1 a) 1); congruence.
  - destruct H2 as [-> | ->]; destruct (Z.eqb_spec (dim2 a) 1); congruence.
  - destruct H3 as [-> | ->]; destruct (Z.eqb_spec (dim3 a) 1); congruence.
Qed.

Lemma bidx_in_range (m i : Z) : 0 <= i < m -> torch.bidx m i = i.
Proof. intros; unfold torch.bidx; destruct (Z.eqb_spec m 1); lia. Qed.

(** ** Tameness of the framework layers *)

Ltac tame_leaf :=
  intros training x; cbv beta delta [raise ret batch_or_other];
  repeat match goal with
  | |- context [if ?b then _ else _] => destruct b
  end; simpl; try reflexivity; discriminate.

Lemma tame_Identity : tame nn.Identity.
Proof. unfold nn.Identity; tame_leaf. Qed.

Lemma tame_ReLU : tame nn.ReLU.
Proof. unfold nn.ReLU; tame_leaf. Qed.

Lemma tame_LeakyReLU (s : R) : tame (nn.LeakyReLU s).
Proof. unfold nn.LeakyReLU; tame_leaf. Qed.

Lemma tame_Sigmoid : tame nn.Sigmoid.
Proof. unfold nn.Sigmoid; tame_leaf. Qed.

Lemma tame_Conv2d (cin cout k pad : Z) (p : ConvParams) :
  tame (nn.Conv2d cin cout k pad p).
Proof. unfold nn.Conv2d; tame_leaf. Qed.

Lemma tame_ConvTranspose2d (cin cout k s : Z) (p : ConvParams) :
  tame (nn.ConvTranspose2d cin cout k s p).
Proof. unfold nn.ConvTranspose2d; tame_leaf. Qed.

Lemma tame_BatchNorm2d (c : Z) (p : NormParams) : tame (nn.BatchNorm2d c p).
Proof. unfold nn.BatchNorm2d; tame_leaf. Qed.

Lemma tame_MaxPool2d (k : Z) : tame (nn.MaxPool2d k).
Proof. unfold nn.MaxPool2d; tame_leaf. Qed.

Lemma tame_AdaptiveAvgPool2d (o : Z) : tame (nn.AdaptiveAvgPool2d o).
Proof. unfold nn.AdaptiveAvgPool2d; tame_leaf. Qed.

Lemma tame_Upsample (s : Z) : tame (nn.Upsample s).
Proof. unfold nn.Upsample; tame_leaf. Qed.

#[local] Hint Resolve tame_Identity tame_ReLU tame_LeakyReLU tame_Sigmoid
  tame_Conv2d tame_ConvTranspose2d tame_BatchNorm2d tame_MaxPool2d
  tame_AdaptiveAvgPool2d tame_Upsample : layers.

(** ** Sizes returned by the framework layers *)

Ltac sizes :=
  repeat match goal with
  | H : size _ = [_; _; _; _] |- _ => apply size_eq in H; destruct H as (? & ? & ? & ?)
  end.

Lemma Conv2d_returns (cin cout k pad : Z) (p : ConvParams) (training : bool)
      (x : Tensor) (n h w : Z) :
  size x = [n; cin; h; w] -> 1 <= cout ->
  k <= h + 2 * pad -> k <= w + 2 * pad ->
  returns (nn.Conv2d cin cout k pad p training x)
          n cout (h + 2 * pad - k + 1) (w + 2 * pad - k + 1).
Proof.
  intros; sizes.
  rewrite Conv2d_ok by lia.
  apply returns_intro; simpl; lia.
Qed.

Lemma Conv2d_same_returns (cin cout : Z) (p : ConvParams) (training : bool)
      (x : Tensor) (n h w : Z) :
  size x = [n; cin; h; w] -> 1 <= cout -> 1 <= h -> 1 <= w ->
  returns (nn.Conv2d cin cout 3 1 p training x) n cout h w.
Proof.
  intros; sizes.
  rewrite Conv2d_ok by lia.
  apply returns_intro; simpl; lia.
Qed.

Lemma Conv2d_pointwise_returns (cin cout : Z) (p : ConvParams) (training : bool)
      (x : Tensor) (n h w : Z) :
  size x = [n; cin; h; w] -> 1 <= cout -> 1 <= h -> 1 <= w ->
  returns (nn.Conv2d cin cout 1 0 p training x) n cout h w.
Proof.
  intros; sizes.
  rewrite Conv2d_ok by lia.
  apply returns_intro; simpl; lia.
Qed.

Lemma norm_returns (norm : bool) (c : Z) (p : NormParams) (training : bool)
      (x : Tensor) (n h w : Z) :
  size x = [n; c; h; w] ->
  (norm = true -> training = true -> n * h * w <> 1) ->
  returns ((if norm then nn.BatchNorm2d c p else nn.Identity) training x) n c h w.
Proof.
  intros Hs Hn; sizes; destruct norm.
  - rewrite BatchNorm2d_ok; [apply returns_intro; simpl; auto | auto |].
    intros Ht; subst; auto.
  - apply returns_intro; auto.
Qed.

Lemma activation_returns (leaky : bool) (s : R) (training : bool)
      (x : Tensor) (n c h w : Z) :
  size x = [n; c; h; w] ->
  returns ((if leaky then nn.LeakyReLU s else nn.ReLU) training x) n c h w.
Proof.
  intros; sizes; destruct leaky; apply returns_intro; simpl; auto.
Qed.

Lemma Sigmoid_returns (training : bool) (x : Tensor) (n c h w : Z) :
  size x = [n; c; h; w] -> returns (nn.Sigmoid training x) n c h w.
Proof. intros; sizes; apply returns_intro; simpl; auto. Qed.

Lemma ReLU_returns (training : bool) (x : Tensor) (n c h w : Z) :
  size x = [n; c; h; w] -> returns (nn.ReLU training x) n c h w.
Proof. intros; sizes; apply returns_intro; simpl; auto. Qed.

Lemma MaxPool2d_returns (training : bool) (x : Tensor) (n c h w : Z) :
  size x = [n; c; h; w] -> 1 <= c -> 2 <= h -> 2 <= w ->
  returns (nn.MaxPool2d 2 training x) n c (h / 2) (w / 2).
Proof.
  intros; sizes.
  rewrite MaxPool2d_ok by lia.
  apply returns_intro; simpl; auto; rewrite pool_size_2; congruence.
Qed.

(** ** Sizes returned by the classes of the source *)

Ltac seq_step :=
  rewrite Sequential_cons; eapply returns_bind; [| intros ? ?].

Lemma product_not_one (n h w : Z) : 2 <= h -> n * h * w <> 1.
Proof.
  intros Hh E.
  replace (n * h * w) with (h * (n * w)) in E by ring.
  apply Z.eq_mul_1_nonneg in E; lia.
Qed.

Lemma DoubleConv_returns (cin cout : Z) (norm leaky : bool) (p : DoubleConv.params)
      (training : bool) (x : Tensor) (n h w : Z) :
  size x = [n; cin; h; w] -> 1 <= cout -> 1 <= h -> 1 <= w ->
  (norm = true -> training = true -> n * h * w <> 1) ->
  returns (DoubleConv.forward (DoubleConv.init cin cout norm leaky p) training x)
          n cout h w.
Proof.
  intros Hs Hc Hh Hw Hn.
  unfold DoubleConv.forward, DoubleConv.init; simpl DoubleConv.conv.
  seq_step.
  { eapply Conv2d_same_returns; eauto. }
  seq_step. { apply norm_returns; eauto. }
  seq_step. { apply activation_returns; eauto. }
  seq_step.
  { eapply Conv2d_same_returns; eauto. }
  seq_step. { apply norm_returns; eauto. }
  seq_step. { apply activation_returns; eauto. }
  rewrite Sequential_nil; sizes; apply returns_intro; auto.
Qed.

Lemma Down_returns (cin cout : Z) (norm leaky : bool) (p : DoubleConv.params)
      (training : bool) (x : Tensor) (n h w : Z) :
  size x = [n; cin; h; w] -> 1 <= cin -> 1 <= cout -> 2 <= h -> 2 <= w ->
  (norm = true -> training = true -> n * (h / 2) * (w / 2) <> 1) ->
  returns (Down.forward (Down.init cin cout norm leaky p) training x)
          n cout (h / 2) (w / 2).
Proof.
  intros Hs Hi Hc Hh Hw Hn.
  unfold Down.forward, Down.init; simpl Down.maxpool_conv.
  rewrite Sequential_two.
  eapply returns_bind.
  - apply MaxPool2d_returns; eauto.
  - intros y Hy.
    apply DoubleConv_returns; auto; apply Z.div_le_lower_bound; lia.
Qed.

Lemma half_ge (h k : Z) : 2 * k <= h -> k <= h / 2.
Proof. intros; apply Z.div_le_lower_bound; lia. Qed.

(** *** PALayer and CALayer *)

Lemma eighth_positive (channel : Z) : 8 <= channel -> 1 <= channel / 8.
Proof. intros; apply Z.div_le_lower_bound; lia. Qed.

Lemma PALayer_pa_ok (channel : Z) (p : PALayer.params) (training : bool)
      (x : Tensor) :
  8 <= channel -> dim1 x = channel -> 1 <= dim2 x -> 1 <= dim3 x ->
  PALayer.pa (PALayer.init channel p) training x = ret (PA_gate channel p x).
Proof.
  intros Hc H1 H2 H3; pose proof (eighth_positive channel Hc).
  unfold PALayer.init; simpl PALayer.pa.
  rewrite Sequential_cons, Conv2d_ok by lia; simpl bind.
  rewrite Sequential_cons; unfold nn.ReLU at 1; simpl bind.
  rewrite Sequential_cons, Conv2d_ok by (simpl; lia); simpl bind.
  reflexivity.
Qed.

Lemma PA_gate_size (channel : Z) (p : PALayer.params) (x : Tensor) :
  size (PA_gate channel p x) = [dim0 x; 1; dim2 x; dim3 x].
Proof. unfold size; simpl; repeat f_equal; lia. Qed.

Lemma PA_gate_unit (channel : Z) (p : PALayer.params) (x : Tensor) :
  unit_valued (PA_gate channel p x).
Proof. intros n c i j; apply sigmoid_unit_interval. Qed.

Lemma PALayer_forward_ok (channel : Z) (p : PALayer.params) (training : bool)
      (x : Tensor) :
  8 <= channel -> dim1 x = channel -> 1 <= dim2 x -> 1 <= dim3 x ->
  PALayer.forward (PALayer.init channel p) training x
  = ret (torch.mul_out x (PA_gate channel p x)).
Proof.
  intros; unfold PALayer.forward.
  rewrite PALayer_pa_ok by auto; simpl bind.
  apply mul_ok; simpl; auto; left; lia.
Qed.

Lemma PALayer_out_size (channel : Z) (p : PALayer.params) (x : Tensor) :
  size (torch.mul_out x (PA_gate channel p x)) = size x.
Proof. apply mul_out_size; simpl; auto; left; lia. Qed.

Lemma PALayer_returns (channel : Z) (p : PALayer.params) (training : bool)
      (x : Tensor) (n h w : Z) :
  size x = [n; channel; h; w] -> 8 <= channel -> 1 <= h -> 1 <= w ->
  returns (PALayer.forward (PALayer.init channel p) training x) n channel h w.
Proof.
  intros Hs; intros.
  exists (torch.mul_out x (PA_gate channel p x)); split.
  - sizes; apply PALayer_forward_ok; lia.
  - rewrite PALayer_out_size; auto.
Qed.

Lemma CALayer_ca_ok (channel : Z) (p : CALayer.params) (training : bool)
      (x : Tensor) :
  8 <= channel -> dim1 x = channel -> 1 <= dim2 x -> 1 <= dim3 x ->
  (y <- CALayer.avg_pool (CALayer.init channel p) training x ;;
   CALayer.ca (CALayer.init channel p) training y)
  = ret (CA_gate channel p x).
Proof.
  intros Hc H1 H2 H3; pose proof (eighth_positive channel Hc).
  unfold CALayer.init; simpl CALayer.avg_pool; simpl CALayer.ca.
  rewrite AdaptiveAvgPool2d_ok by lia; simpl bind.
  rewrite Sequential_cons, Conv2d_ok by (simpl; lia); simpl bind.
  rewrite Sequential_cons; unfold nn.ReLU at 1; simpl bind.
  rewrite Sequential_cons, Conv2d_ok by (simpl; lia); simpl bind.
  reflexivity.
Qed.

Lemma CA_gate_size (channel : Z) (p : CALayer.params) (x : Tensor) :
  size (CA_gate channel p x) = [dim0 x; channel; 1; 1].
Proof. reflexivity. Qed.

Lemma CA_gate_unit (channel : Z) (p : CALayer.params) (x : Tensor) :
  unit_valued (CA_gate channel p x).
Proof. intros n c i j; apply sigmoid_unit_interval. Qed.

Lemma CALayer_forward_ok (channel : Z) (p : CALayer.params) (training : bool)
      (x : Tensor) :
  8 <= channel -> dim1 x = channel -> 1 <= dim2 x -> 1 <= dim3 x ->
  CALayer.forward (CALayer.init channel p) training x
  = ret (torch.mul_out x (CA_gate channel p x)).
Proof.
  intros Hc H1 H2 H3; unfold CALayer.forward.
  pose proof (CALayer_ca_ok channel p training x Hc H1 H2 H3) as E.
  destruct (CALayer.avg_pool (CALayer.init channel p) training x) as [e|y];
    simpl in E |- *; [discriminate |].
  rewrite E; simpl bind.
  apply mul_ok; simpl; auto.
Qed.

Lemma CALayer_out_size (channel : Z) (p : CALayer.params) (x : Tensor) :
  dim1 x = channel ->
  size (torch.mul_out x (CA_gate channel p x)) = size x.
Proof. intros; apply mul_out_size; simpl; auto. Qed.

Lemma CALayer_returns (channel : Z) (p : CALayer.params) (training : bool)
      (x : Tensor) (n h w : Z) :
  size x = [n; channel; h; w] -> 8 <= channel -> 1 <= h -> 1 <= w ->
  returns (CALayer.forward (CALayer.init channel p) training x) n channel h w.
Proof.
  intros Hs; intros.
  exists (torch.mul_out x (CA_gate channel p x)); split.
  - sizes; apply CALayer_forward_ok; lia.
  - rewrite CALayer_out_size; auto; sizes; auto.
Qed.

Lemma attention_returns (channel : Z) (pc : CALayer.params) (pp : PALayer.params)
      (training : bool) (x : Tensor) (n h w : Z) :
  size x = [n; channel; h; w] -> 8 <= channel -> 1 <= h -> 1 <= w ->
  returns (nn.Sequential [CALayer.forward (CALayer.init channel pc);
                          PALayer.forward (PALayer.init channel pp)] training x)
          n channel h w.
Proof.
  intros; rewrite Sequential_two.
  eapply returns_bind.
  - apply CALayer_returns; eauto.
  - intros; apply PALayer_returns; auto.
Qed.

(** *** Up *)

Lemma pad_to_size (u x2 : Tensor) :
  size (pad_to u x2) = [dim0 u; dim1 u; dim2 x2; dim3 x2].
Proof. unfold size, pad_to; simpl; repeat f_equal; lia. Qed.

(** Once [self.up] has returned [u], the padding and the concatenation of
    [forward] succeed whatever the spatial sizes of [u] and [x2] are. *)
Lemma Up_forward_after_up (self : Up.t) (training : bool) (x1 x2 u : Tensor) :
  Up.up self training x1 = ret u ->
  dim0 u = dim0 x2 -> 0 <= dim2 x2 -> 0 <= dim3 x2 ->
  F.pad u [(dim3 x2 - dim3 u) / 2; (dim3 x2 - dim3 u) - (dim3 x2 - dim3 u) / 2;
           (dim2 x2 - dim2 u) / 2; (dim2 x2 - dim2 u) - (dim2 x2 - dim2 u) / 2]
    = ret (pad_to u x2)
  /\ torch.cat x2 (pad_to u x2) = ret (torch.cat_out x2 (pad_to u x2))
  /\ Up.forward self training x1 x2
     = DoubleConv.forward (Up.conv self) training (torch.cat_out x2 (pad_to u x2)).
Proof.
  intros Hu H0 H2 H3.
  assert (Hp : F.pad u [(dim3 x2 - dim3 u) / 2;
                        (dim3 x2 - dim3 u) - (dim3 x2 - dim3 u) / 2;
                        (dim2 x2 - dim2 u) / 2;
                        (dim2 x2 - dim2 u) - (dim2 x2 - dim2 u) / 2]
               = ret (pad_to u x2)).
  { rewrite pad_ok by lia; reflexivity. }
  assert (Hc : torch.cat x2 (pad_to u x2) = ret (torch.cat_out x2 (pad_to u x2))).
  { apply cat_ok; unfold pad_to; simpl; lia. }
  repeat split; auto.
  unfold Up.forward; rewrite Hu; simpl bind.
  unfold size_at, size; simpl nth.
  rewrite Hp; simpl bind. rewrite Hc; reflexivity.
Qed.

Lemma Up_up_bilinear (cin cout : Z) (norm leaky : bool) (p : Up.params)
      (training : bool) (x1 : Tensor) :
  1 <= dim1 x1 -> 1 <= dim2 x1 -> 1 <= dim3 x1 ->
  Up.up (Up.init cin cout true norm leaky p) training x1
  = ret (nn.Upsample_out 2 x1).
Proof. intros; simpl; apply Upsample_ok; auto. Qed.

Lemma Up_up_transposed (cin cout : Z) (norm leaky : bool) (p : Up.params)
      (training : bool) (x1 : Tensor) :
  1 <= cin -> dim1 x1 = cin ->
  Up.up (Up.init cin cout false norm leaky p) training x1
  = ret (nn.ConvTranspose2d_out (cin / 2) 2 2 (Up.p_up p) x1).
Proof. intros; simpl; apply ConvTranspose2d_ok; auto. Qed.

Lemma Up_conv_init (cin cout : Z) (bilinear norm leaky : bool) (p : Up.params) :
  Up.conv (Up.init cin cout bilinear norm leaky p)
  = DoubleConv.init cin cout norm leaky (Up.p_conv p).
Proof. destruct bilinear; reflexivity. Qed.

Lemma Up_returns (cin cout : Z) (norm leaky : bool) (p : Up.params)
      (training : bool) (x1 x2 : Tensor) (n c1 h1 w1 c2 h2 w2 : Z) :
  size x1 = [n; c1; h1; w1] -> size x2 = [n; c2; h2; w2] ->
  c2 + c1 = cin -> 1 <= c1 -> 1 <= h1 -> 1 <= w1 -> 1 <= h2 -> 1 <= w2 ->
  1 <= cout ->
  (norm = true -> training = true -> n * h2 * w2 <> 1) ->
  returns (Up.forward (Up.init cin cout true norm leaky p) training x1 x2)
          n cout h2 w2.
Proof.
  intros S1 S2 Hc; intros; sizes.
  destruct (Up_forward_after_up (Up.init cin cout true norm leaky p) training
              x1 x2 (nn.Upsample_out 2 x1)) as (_ & _ & ->);
    try (simpl; lia).
  - apply Up_up_bilinear; lia.
  - rewrite Up_conv_init.
    apply DoubleConv_returns; auto.
    apply size_eq; simpl; repeat split; lia.
Qed.

(** *** OutConv and the attentive blocks *)

Lemma OutConv_returns (cin cout : Z) (act : bool) (p : ConvParams)
      (training : bool) (x : Tensor) (n h w : Z) :
  size x = [n; cin; h; w] -> 1 <= cout -> 1 <= h -> 1 <= w ->
  returns (OutConv.forward (OutConv.init cin cout act p) training x) n cout h w.
Proof.
  intros.
  unfold OutConv.forward, OutConv.init; simpl OutConv.conv.
  rewrite Sequential_two.
  eapply returns_bind.
  - eapply Conv2d_same_returns; eauto.
  - intros y Hy; sizes; destruct act; apply returns_intro; auto.
Qed.

Lemma AttentiveDoubleConv_returns (cin cout : Z) (norm leaky : bool)
      (p : AttentiveDoubleConv.params) (training : bool) (x : Tensor) (n h w : Z) :
  size x = [n; cin; h; w] -> 8 <= cout -> 1 <= h -> 1 <= w ->
  (norm = true -> training = true -> n * h * w <> 1) ->
  returns (AttentiveDoubleConv.forward
             (AttentiveDoubleConv.init cin cout norm leaky p) training x)
          n cout h w.
Proof.
  intros; unfold AttentiveDoubleConv.forward.
  eapply returns_bind.
  - simpl AttentiveDoubleConv.conv; apply DoubleConv_returns; eauto; lia.
  - intros; simpl AttentiveDoubleConv.attention; apply attention_returns; auto.
Qed.

Lemma AttentiveDown_returns (cin cout : Z) (norm leaky : bool)
      (p : AttentiveDown.params) (training : bool) (x : Tensor) (n h w : Z) :
  size x = [n; cin; h; w] -> 1 <= cin -> 8 <= cout -> 2 <= h -> 2 <= w ->
  (norm = true -> training = true -> n * (h / 2) * (w / 2) <> 1) ->
  returns (AttentiveDown.forward (AttentiveDown.init cin cout norm leaky p) training x)
          n cout (h / 2) (w / 2).
Proof.
  intros; unfold AttentiveDown.forward.
  eapply returns_bind.
  - simpl AttentiveDown.down; apply Down_returns; eauto; lia.
  - intros; simpl AttentiveDown.attention;
      apply attention_returns; auto; apply half_ge; lia.
Qed.

Lemma AttentiveUp_returns (cin cout : Z) (norm leaky : bool)
      (p : AttentiveUp.params) (training : bool) (x1 x2 : Tensor)
      (n c1 h1 w1 c2 h2 w2 : Z) :
  size x1 = [n; c1; h1; w1] -> size x2 = [n; c2; h2; w2] ->
  c2 + c1 = cin -> 1 <= c1 -> 1 <= h1 -> 1 <= w1 -> 1 <= h2 -> 1 <= w2 ->
  8 <= cout ->
  (norm = true -> training = true -> n * h2 * w2 <> 1) ->
  returns (AttentiveUp.forward (AttentiveUp.init cin cout true norm leaky p)
             training x1 x2)
          n cout h2 w2.
Proof.
  intros; unfold AttentiveUp.forward.
  eapply returns_bind.
  - simpl AttentiveUp.up; eapply Up_returns; eauto; lia.
  - intros; simpl AttentiveUp.attention; apply attention_returns; auto.
Qed.

(** *** BaseNet and FuseNet on inputs of any height and width from 8 (4) up *)

Lemma BaseNet_features_returns (cin cout : Z) (norm : bool) (o : OutConv.t)
      (p : BaseNet.params) (training : bool) (x : Tensor) (n h w : Z) :
  size x = [n; cin; h; w] -> 8 <= h -> 8 <= w ->
  (norm = true -> training = true -> n * (h / 2 / 2 / 2) * (w / 2 / 2 / 2) <> 1) ->
  returns (BaseNet.features (BaseNet.set_outc (BaseNet.init cin cout norm p) o)
             training x)
          n 32 h w.
Proof.
  intros Hs Hh Hw Hn.
  assert (4 <= h / 2) by (apply half_ge; lia).
  assert (4 <= w / 2) by (apply half_ge; lia).
  assert (2 <= h / 2 / 2) by (apply half_ge; lia).
  assert (2 <= w / 2 / 2) by (apply half_ge; lia).
  assert (1 <= h / 2 / 2 / 2) by (apply half_ge; lia).
  assert (1 <= w / 2 / 2 / 2) by (apply half_ge; lia).
  unfold BaseNet.features, BaseNet.set_outc, BaseNet.init;
    cbn [BaseNet.inc BaseNet.down1 BaseNet.down2 BaseNet.down3
         BaseNet.up1 BaseNet.up2 BaseNet.up3].
  eapply returns_bind.
  { apply DoubleConv_returns; eauto; try lia.
    intros; apply product_not_one; lia. }
  intros x1 S1.
  eapply returns_bind.
  { apply Down_returns; eauto; try lia.
    intros; apply product_not_one; lia. }
  intros x2 S2.
  eapply returns_bind.
  { apply Down_returns; eauto; try lia.
    intros; apply product_not_one; lia. }
  intros x3 S3.
  eapply returns_bind.
  { apply Down_returns; eauto; lia. }
  intros x4 S4.
  eapply returns_bind.
  { eapply (Up_returns 256 64); eauto; try lia.
    intros; apply product_not_one; lia. }
  intros y1 T1.
  eapply returns_bind.
  { eapply (Up_returns 128 32); eauto; try lia.
    intros; apply product_not_one; lia. }
  intros y2 T2.
  eapply (Up_returns 64 32); eauto; try lia.
  intros; apply product_not_one; lia.
Qed.

Lemma BaseNet_forward_features (self : BaseNet.t) (training : bool) (x : Tensor) :
  BaseNet.forward self training x
  = (f <- BaseNet.features self training x ;;
     OutConv.forward (BaseNet.outc self) training f).
Proof.
  unfold BaseNet.forward, BaseNet.features.
  repeat match goal with
  | |- context [bind ?m _] =>
      match m with
      | bind _ _ => fail 1
      | _ => destruct m; simpl; auto
      end
  end.
Qed.

Lemma BaseNet_returns (cin cout : Z) (norm act : bool)
      (p : BaseNet.params) (training : bool) (x : Tensor) (n h w : Z) :
  size x = [n; cin; h; w] -> 8 <= h -> 8 <= w -> 1 <= cout ->
  (norm = true -> training = true -> n * (h / 2 / 2 / 2) * (w / 2 / 2 / 2) <> 1) ->
  returns (BaseNet.forward
             (BaseNet.set_outc (BaseNet.init cin cout norm p)
                (OutConv.init 32 cout act (BaseNet.p_outc p)))
             training x)
          n cout h w.
Proof.
  intros.
  rewrite BaseNet_forward_features.
  eapply returns_bind.
  - apply BaseNet_features_returns; eauto.
  - intros f Hf; apply OutConv_returns; auto; lia.
Qed.

Lemma FuseNet_returns (cin cout : Z) (norm : bool)
      (p : FuseNet.params) (training : bool) (x : Tensor) (n h w : Z) :
  size x = [n; cin; h; w] -> 4 <= h -> 4 <= w -> 1 <= cout ->
  (norm = true -> training = true -> n * (h / 2 / 2) * (w / 2 / 2) <> 1) ->
  returns (FuseNet.forward (FuseNet.init cin cout norm p) training x) n cout h w.
Proof.
  intros Hs Hh Hw Hc Hn.
  assert (2 <= h / 2) by (apply half_ge; lia).
  assert (2 <= w / 2) by (apply half_ge; lia).
  assert (1 <= h / 2 / 2) by (apply half_ge; lia).
  assert (1 <= w / 2 / 2) by (apply half_ge; lia).
  unfold FuseNet.forward, FuseNet.init;
    cbn [FuseNet.inc FuseNet.down1 FuseNet.down2 FuseNet.up1 FuseNet.up2
         FuseNet.outc].
  eapply returns_bind.
  { apply AttentiveDoubleConv_returns; eauto; try lia.
    intros; apply product_not_one; lia. }
  intros x1 S1.
  eapply returns_bind.
  { apply AttentiveDown_returns; eauto; try lia.
    intros; apply product_not_one; lia. }
  intros x2 S2.
  eapply returns_bind.
  { apply AttentiveDown_returns; eauto; lia. }
  intros x3 S3.
  eapply returns_bind.
  { eapply (AttentiveUp_returns 128 32); eauto; try lia.
    intros; apply product_not_one; lia. }
  intros y1 T1.
  eapply returns_bind.
  { eapply (AttentiveUp_returns 64 32); eauto; try lia.
    intros; apply product_not_one; lia. }
  intros y2 T2.
  eapply returns_bind.
  { apply OutConv_returns; eauto; lia. }
  intros y Hy; sizes; apply returns_intro; auto.
Qed.

(** ** No forward pass fails at the concatenation *)

Lemma batch_or_other_bind (r : result Tensor) (k : Tensor -> result Tensor)
      (b b' : Z) :
  batch_or_other r b ->
  (forall y, dim0 y = b -> batch_or_other (k y) b') ->
  batch_or_other (bind r k) b'.
Proof. destruct r as [e|y]; simpl; auto. Qed.

Lemma batch_or_other_mul (x y : Tensor) :
  dim0 y = dim0 x -> batch_or_other (torch.mul x y) (dim0 x).
Proof.
  intros E; unfold torch.mul.
  destruct (_ && _); simpl; [| discriminate].
  unfold torch.broadcast; rewrite E; destruct (dim0 x =? 1); reflexivity.
Qed.

Lemma tame_DoubleConv (cin cout : Z) (norm leaky : bool) (p : DoubleConv.params) :
  tame (DoubleConv.forward (DoubleConv.init cin cout norm leaky p)).
Proof.
  unfold DoubleConv.forward, DoubleConv.init; simpl DoubleConv.conv.
  apply tame_Sequential.
  repeat constructor; try destruct norm; try destruct leaky;
    auto with layers.
Qed.

Lemma tame_OutConv (cin cout : Z) (act : bool) (p : ConvParams) :
  tame (OutConv.forward (OutConv.init cin cout act p)).
Proof.
  unfold OutConv.forward, OutConv.init; simpl OutConv.conv.
  apply tame_Sequential.
  repeat constructor; try destruct act;
    auto with layers.
Qed.

Lemma tame_Down (cin cout : Z) (norm leaky : bool) (p : DoubleConv.params) :
  tame (Down.forward (Down.init cin cout norm leaky p)).
Proof.
  unfold Down.forward, Down.init; simpl Down.maxpool_conv.
  apply tame_Sequential.
  repeat constructor; auto using tame_DoubleConv with layers.
Qed.

Lemma tame_PALayer (channel : Z) (p : PALayer.params) :
  tame (PALayer.forward (PALayer.init channel p)).
Proof.
  intros training x; unfold PALayer.forward.
  eapply batch_or_other_bind.
  - unfold PALayer.init; simpl PALayer.pa.
    apply tame_Sequential.
    repeat constructor; auto with layers.
  - intros y Hy; apply batch_or_other_mul; auto.
Qed.

Lemma tame_CALayer (channel : Z) (p : CALayer.params) :
  tame (CALayer.forward (CALayer.init channel p)).
Proof.
  intros training x; unfold CALayer.forward.
  eapply batch_or_other_bind.
  { unfold CALayer.init; simpl CALayer.avg_pool; apply tame_AdaptiveAvgPool2d. }
  intros y Hy.
  eapply batch_or_other_bind.
  - unfold CALayer.init; simpl CALayer.ca.
    apply tame_Sequential.
    repeat constructor; auto with layers.
  - intros z Hz; apply batch_or_other_mul; congruence.
Qed.

Lemma tame_attention (channel : Z) (pc : CALayer.params) (pp : PALayer.params) :
  tame (nn.Sequential [CALayer.forward (CALayer.init channel pc);
                       PALayer.forward (PALayer.init channel pp)]).
Proof.
  apply tame_Sequential; repeat constructor; auto using tame_CALayer, tame_PALayer.
Qed.

Lemma tame2_Up (cin cout : Z) (bilinear norm leaky : bool) (p : Up.params) :
  tame2 (Up.forward (Up.init cin cout bilinear norm leaky p)).
Proof.
  intros training x1 x2 E; unfold Up.forward.
  eapply batch_or_other_bind.
  { destruct bilinear; simpl Up.up;
      [apply tame_Upsample | apply tame_ConvTranspose2d]. }
  intros u Hu; unfold size_at, size; simpl nth.
  unfold F.pad, size_at; simpl nth.
  destruct (_ || _); simpl bind; [discriminate |].
  rewrite cat_ok by (simpl; lia); simpl bind.
  rewrite Up_conv_init.
  apply (tame_DoubleConv cin cout norm leaky (Up.p_conv p) training
           (torch.cat_out x2 _)).
Qed.

Lemma tame_AttentiveDoubleConv (cin cout : Z) (norm leaky : bool)
      (p : AttentiveDoubleConv.params) :
  tame (AttentiveDoubleConv.forward (AttentiveDoubleConv.init cin cout norm leaky p)).
Proof.
  intros training x; unfold AttentiveDoubleConv.forward.
  eapply batch_or_other_bind.
  - simpl AttentiveDoubleConv.conv; apply tame_DoubleConv.
  - intros y <-; simpl AttentiveDoubleConv.attention; apply tame_attention.
Qed.

Lemma tame_AttentiveDown (cin cout : Z) (norm leaky : bool)
      (p : AttentiveDown.params) :
  tame (AttentiveDown.forward (AttentiveDown.init cin cout norm leaky p)).
Proof.
  intros training x; unfold AttentiveDown.forward.
  eapply batch_or_other_bind.
  - simpl AttentiveDown.down; apply tame_Down.
  - intros y <-; simpl AttentiveDown.attention; apply tame_attention.
Qed.

Lemma tame2_AttentiveUp (cin cout : Z) (bilinear norm leaky : bool)
      (p : AttentiveUp.params) :
  tame2 (AttentiveUp.forward (AttentiveUp.init cin cout bilinear norm leaky p)).
Proof.
  intros training x1 x2 E; unfold AttentiveUp.forward.
  eapply batch_or_other_bind.
  - simpl AttentiveUp.up; apply tame2_Up; auto.
  - intros y <-; simpl AttentiveUp.attention; apply tame_attention.
Qed.

Lemma tame_BaseNet (cin cout : Z) (norm act : bool) (p : BaseNet.params) :
  tame (BaseNet.forward
          (BaseNet.set_outc (BaseNet.init cin cout norm p)
             (OutConv.init 32 cout act (BaseNet.p_outc p)))).
Proof.
  intros training x.
  unfold BaseNet.forward, BaseNet.set_outc, BaseNet.init;
    cbn [BaseNet.inc BaseNet.down1 BaseNet.down2 BaseNet.down3
         BaseNet.up1 BaseNet.up2 BaseNet.up3 BaseNet.outc].
  eapply batch_or_other_bind; [apply tame_DoubleConv |]; intros x1 E1.
  eapply batch_or_other_bind; [apply tame_Down |]; intros x2 E2.
  eapply batch_or_other_bind; [apply tame_Down |]; intros x3 E3.
  eapply batch_or_other_bind; [apply tame_Down |]; intros x4 E4.
  eapply batch_or_other_bind; [apply tame2_Up; congruence |]; intros y1 F1.
  eapply batch_or_other_bind; [apply tame2_Up; congruence |]; intros y2 F2.
  eapply batch_or_other_bind; [apply tame2_Up; congruence |]; intros y3 F3.
  eapply batch_or_other_bind; [apply tame_OutConv |]; intros y G.
  simpl; congruence.
Qed.

Lemma tame_FuseNet (cin cout : Z) (norm : bool) (p : FuseNet.params) :
  tame (FuseNet.forward (FuseNet.init cin cout norm p)).
Proof.
  intros training x.
  unfold FuseNet.forward, FuseNet.init;
    cbn [FuseNet.inc FuseNet.down1 FuseNet.down2 FuseNet.up1 FuseNet.up2
         FuseNet.outc].
  eapply batch_or_other_bind; [apply tame_AttentiveDoubleConv |]; intros x1 E1.
  eapply batch_or_other_bind; [apply tame_AttentiveDown |]; intros x2 E2.
  eapply batch_or_other_bind; [apply tame_AttentiveDown |]; intros x3 E3.
  eapply batch_or_other_bind; [apply tame2_AttentiveUp; congruence |]; intros y1 F1.
  eapply batch_or_other_bind; [apply tame2_AttentiveUp; congruence |]; intros y2 F2.
  eapply batch_or_other_bind; [apply tame_OutConv |]; intros y G.
  simpl; congruence.
Qed.

(** ** What a successful call tells about its input *)

Lemma bind_inr {A B : Type} (r : result A) (k : A -> result B) (y : B) :
  bind r k = inr y -> exists z, r = inr z /\ k z = inr y.
Proof. destruct r as [e|z]; simpl; [discriminate | eauto]. Qed.

Lemma Sequential_cons_inr (m : Layer) (ms : list Layer) (training : bool)
      (x y : Tensor) :
  nn.Sequential (m :: ms) training x = inr y ->
  exists z, m training x = inr z /\ nn.Sequential ms training z = inr y.
Proof. rewrite Sequential_cons; apply bind_inr. Qed.

Lemma keeps_hw_Sequential (ms : list Layer) :
  Forall keeps_hw ms -> keeps_hw (nn.Sequential ms).
Proof.
  induction 1 as [|m ms Hm _ IH]; intros training x y E.
  - rewrite Sequential_nil in E; injection E as <-; auto.
  - apply Sequential_cons_inr in E as (z & Ez & E).
    apply Hm in Ez; apply IH in E; split; lia.
Qed.

Ltac inr_leaf :=
  intros training x y; cbv beta delta [raise ret];
  repeat match goal with
  | |- context [if ?b then _ else _] => destruct b
  end; intros E; try discriminate; injection E as <-; simpl; auto; try lia.

Lemma keeps_hw_Identity : keeps_hw nn.Identity.
Proof. unfold nn.Identity; inr_leaf. Qed.

Lemma keeps_hw_ReLU : keeps_hw nn.ReLU.
Proof. unfold nn.ReLU; inr_leaf. Qed.

Lemma keeps_hw_LeakyReLU (s : R) : keeps_hw (nn.LeakyReLU s).
Proof. unfold nn.LeakyReLU; inr_leaf. Qed.

Lemma keeps_hw_Sigmoid : keeps_hw nn.Sigmoid.
Proof. unfold nn.Sigmoid; inr_leaf. Qed.

Lemma keeps_hw_BatchNorm2d (c : Z) (p : NormParams) : keeps_hw (nn.BatchNorm2d c p).
Proof. unfold nn.BatchNorm2d; inr_leaf. Qed.

Lemma keeps_hw_Conv2d_3 (cin cout : Z) (p : ConvParams) :
  keeps_hw (nn.Conv2d cin cout 3 1 p).
Proof. unfold nn.Conv2d; inr_leaf. Qed.

Lemma keeps_hw_Conv2d_1 (cin cout : Z) (p : ConvParams) :
  keeps_hw (nn.Conv2d cin cout 1 0 p).
Proof. unfold nn.Conv2d; inr_leaf. Qed.

#[local] Hint Resolve keeps_hw_Identity keeps_hw_ReLU keeps_hw_LeakyReLU
  keeps_hw_Sigmoid keeps_hw_BatchNorm2d keeps_hw_Conv2d_3 keeps_hw_Conv2d_1
  : layers.

Lemma Conv2d_inr (cin cout k pad : Z) (p : ConvParams) (training : bool)
      (x y : Tensor) :
  nn.Conv2d cin cout k pad p training x = inr y ->
  1 <= cout /\ dim1 x = cin
  /\ k <= dim2 x + 2 * pad /\ k <= dim3 x + 2 * pad
  /\ y = nn.Conv2d_out cout k pad p x.
Proof.
  unfold nn.Conv2d, raise, ret.
  destruct (Z.ltb_spec cout 1); [discriminate |].
  destruct (Z.eqb_spec (dim1 x) cin); cbn [negb]; [| discriminate].
  destruct (Z.ltb_spec (dim2 x + 2 * pad) k); cbn [orb]; [discriminate |].
  destruct (Z.ltb_spec (dim3 x + 2 * pad) k); cbn [orb]; [discriminate |].
  intros E; injection E as <-; repeat split; auto.
Qed.

Lemma keeps_hw_DoubleConv (cin cout : Z) (norm leaky : bool) (p : DoubleConv.params) :
  keeps_hw (DoubleConv.forward (DoubleConv.init cin cout norm leaky p)).
Proof.
  unfold DoubleConv.forward, DoubleConv.init; simpl DoubleConv.conv.
  apply keeps_hw_Sequential.
  repeat (apply Forall_cons || apply Forall_nil);
    try destruct norm; try destruct leaky;
    auto with layers.
Qed.

Lemma DoubleConv_inr (cin cout : Z) (norm leaky : bool) (p : DoubleConv.params)
      (training : bool) (x y : Tensor) :
  DoubleConv.forward (DoubleConv.init cin cout norm leaky p) training x = inr y ->
  dim1 x = cin /\ 1 <= cout /\ 1 <= dim2 x /\ 1 <= dim3 x.
Proof.
  unfold DoubleConv.forward, DoubleConv.init; simpl DoubleConv.conv.
  intros E; apply Sequential_cons_inr in E as (z & Ez & _).
  apply Conv2d_inr in Ez; intuition lia.
Qed.

Lemma MaxPool2d_inr (training : bool) (x y : Tensor) :
  nn.MaxPool2d 2 training x = inr y ->
  dim2 y = dim2 x / 2 /\ dim3 y = dim3 x / 2 /\ 1 <= dim2 y /\ 1 <= dim3 y.
Proof.
  unfold nn.MaxPool2d, raise, ret; rewrite !pool_size_2.
  destruct (_ || _ || _); [discriminate |].
  destruct (Z.ltb_spec (dim2 x / 2) 1); cbn [orb]; [discriminate |].
  destruct (Z.ltb_spec (dim3 x / 2) 1); cbn [orb]; [discriminate |].
  intros E; injection E as <-; cbn [nn.MaxPool2d_out dim2 dim3];
    rewrite !pool_size_2; lia.
Qed.

Lemma Down_inr (cin cout : Z) (norm leaky : bool) (p : DoubleConv.params)
      (training : bool) (x y : Tensor) :
  Down.forward (Down.init cin cout norm leaky p) training x = inr y ->
  dim2 y = dim2 x / 2 /\ dim3 y = dim3 x / 2 /\ 1 <= dim2 y /\ 1 <= dim3 y.
Proof.
  unfold Down.forward, Down.init; simpl Down.maxpool_conv.
  rewrite Sequential_two; intros E.
  apply bind_inr in E as (z & Ez & E).
  apply MaxPool2d_inr in Ez; apply keeps_hw_DoubleConv in E; lia.
Qed.

Lemma eighth_ge_one (h : Z) : 1 <= h / 2 / 2 / 2 -> 8 <= h.
Proof.
  intros H.
  destruct (Z.lt_ge_cases h 8) as [L|]; auto.
  assert (h / 2 < 4) by (apply Z.div_lt_upper_bound; lia).
  assert (h / 2 / 2 < 2) by (apply Z.div_lt_upper_bound; lia).
  assert (h / 2 / 2 / 2 < 1) by (apply Z.div_lt_upper_bound; lia).
  lia.
Qed.

Lemma quarter_ge_one (h : Z) : 1 <= h / 2 / 2 -> 4 <= h.
Proof.
  intros H.
  destruct (Z.lt_ge_cases h 4) as [L|]; auto.
  assert (h / 2 < 2) by (apply Z.div_lt_upper_bound; lia).
  assert (h / 2 / 2 < 1) by (apply Z.div_lt_upper_bound; lia).
  lia.
Qed.

Lemma BaseNet_inr (cin cout : Z) (norm : bool) (o : OutConv.t) (p : BaseNet.params)
      (training : bool) (x y : Tensor) :
  BaseNet.forward (BaseNet.set_outc (BaseNet.init cin cout norm p) o) training x
  = inr y ->
  8 <= dim2 x /\ 8 <= dim3 x.
Proof.
  unfold BaseNet.forward, BaseNet.set_outc, BaseNet.init;
    cbn [BaseNet.inc BaseNet.down1 BaseNet.down2 BaseNet.down3
         BaseNet.up1 BaseNet.up2 BaseNet.up3 BaseNet.outc].
  intros E.
  apply bind_inr in E as (x1 & E1 & E).
  apply bind_inr in E as (x2 & E2 & E).
  apply bind_inr in E as (x3 & E3 & E).
  apply bind_inr in E as (x4 & E4 & _).
  apply keeps_hw_DoubleConv in E1.
  apply Down_inr in E2, E3, E4.
  split; apply eighth_ge_one; intuition congruence.
Qed.

Lemma mul_inr (a b y : Tensor) :
  torch.mul a b = inr y -> y = torch.mul_out a b.
Proof.
  unfold torch.mul, raise, ret; destruct (_ && _); [| discriminate].
  intros E; injection E as <-; reflexivity.
Qed.

Lemma keeps_hw_PALayer (channel : Z) (p : PALayer.params) :
  keeps_hw (PALayer.forward (PALayer.init channel p)).
Proof.
  intros training x y E; unfold PALayer.forward in E.
  apply bind_inr in E as (g & Eg & E).
  assert (Hg : dim2 g = dim2 x /\ dim3 g = dim3 x).
  { revert Eg; unfold PALayer.init; simpl PALayer.pa.
    apply keeps_hw_Sequential.
    repeat (apply Forall_cons || apply Forall_nil);
      auto with layers. }
  apply mul_inr in E; subst y; destruct Hg as [E2 E3].
  unfold torch.mul_out, torch.broadcast; cbn [dim2 dim3]; rewrite E2, E3.
  destruct (dim2 x =? 1), (dim3 x =? 1); auto.
Qed.

Lemma keeps_hw_CALayer (channel : Z) (p : CALayer.params) :
  keeps_hw (CALayer.forward (CALayer.init channel p)).
Proof.
  intros training x y E; unfold CALayer.forward in E.
  apply bind_inr in E as (a & Ea & E).
  apply bind_inr in E as (g & Eg & E).
  assert (Ha : dim2 a = 1 /\ dim3 a = 1).
  { revert Ea; unfold CALayer.init; simpl CALayer.avg_pool.
    unfold nn.AdaptiveAvgPool2d, raise, ret.
    destruct (_ || _ || _); [discriminate |].
    intros Ea; injection Ea as <-; auto. }
  assert (Hg : dim2 g = dim2 a /\ dim3 g = dim3 a).
  { revert Eg; unfold CALayer.init; simpl CALayer.ca.
    apply keeps_hw_Sequential.
    repeat (apply Forall_cons || apply Forall_nil);
      auto with layers. }
  apply mul_inr in E; subst y; destruct Ha as [A2 A3], Hg as [E2 E3].
  unfold torch.mul_out, torch.broadcast; cbn [dim2 dim3].
  rewrite E2, E3, A2, A3.
  destruct (Z.eqb_spec (dim2 x) 1), (Z.eqb_spec (dim3 x) 1); auto.
Qed.

Lemma keeps_hw_attention (channel : Z) (pc : CALayer.params) (pp : PALayer.params) :
  keeps_hw (nn.Sequential [CALayer.forward (CALayer.init channel pc);
                           PALayer.forward (PALayer.init channel pp)]).
Proof.
  apply keeps_hw_Sequential.
  repeat (apply Forall_cons || apply Forall_nil);
    auto using keeps_hw_CALayer, keeps_hw_PALayer.
Qed.

Lemma keeps_hw_AttentiveDoubleConv (cin cout : Z) (norm leaky : bool)
      (p : AttentiveDoubleConv.params) :
  keeps_hw (AttentiveDoubleConv.forward
              (AttentiveDoubleConv.init cin cout norm leaky p)).
Proof.
  intros training x y E; unfold AttentiveDoubleConv.forward in E.
  apply bind_inr in E as (c & Ec & E).
  simpl AttentiveDoubleConv.conv in Ec; apply keeps_hw_DoubleConv in Ec.
  simpl AttentiveDoubleConv.attention in E; apply keeps_hw_attention in E.
  lia.
Qed.

Lemma AttentiveDown_inr (cin cout : Z) (norm leaky : bool)
      (p : AttentiveDown.params) (training : bool) (x y : Tensor) :
  AttentiveDown.forward (AttentiveDown.init cin cout norm leaky p) training x
  = inr y ->
  dim2 y = dim2 x / 2 /\ dim3 y = dim3 x / 2 /\ 1 <= dim2 y /\ 1 <= dim3 y.
Proof.
  intros E; unfold AttentiveDown.forward in E.
  apply bind_inr in E as (d & Ed & E).
  simpl AttentiveDown.down in Ed; apply Down_inr in Ed.
  simpl AttentiveDown.attention in E; apply keeps_hw_attention in E.
  lia.
Qed.

Lemma FuseNet_inr (cin cout : Z) (norm : bool) (p : FuseNet.params)
      (training : bool) (x y : Tensor) :
  FuseNet.forward (FuseNet.init cin cout norm p) training x = inr y ->
  4 <= dim2 x /\ 4 <= dim3 x.
Proof.
  unfold FuseNet.forward, FuseNet.init;
    cbn [FuseNet.inc FuseNet.down1 FuseNet.down2 FuseNet.up1 FuseNet.up2
         FuseNet.outc].
  intros E.
  apply bind_inr in E as (x1 & E1 & E).
  apply bind_inr in E as (x2 & E2 & E).
  apply bind_inr in E as (x3 & E3 & _).
  apply keeps_hw_AttentiveDoubleConv in E1.
  apply AttentiveDown_inr in E2, E3.
  split; apply quarter_ge_one; intuition congruence.
Qed.

(** A call that does not return raises an error, and for a tame layer the
    error is not [CatSizes]. *)
Lemma tame_failure (m : Layer) (training : bool) (x : Tensor) :
  tame m -> (forall y, m training x <> inr y) ->
  exists e, m training x = inl e /\ e <> CatSizes.
Proof.
  intros Hm Hn; specialize (Hm training x); unfold batch_or_other in Hm.
  destruct (m training x) as [e|y]; [eauto | exfalso; eapply Hn; eauto].
Qed.

Lemma tame_not_cat (m : Layer) (training : bool) (x : Tensor) :
  tame m -> m training x <> inl CatSizes.
Proof.
  intros Hm E; specialize (Hm training x); unfold batch_or_other in Hm.
  rewrite E in Hm; congruence.
Qed.

Lemma eighth_div (h : Z) : h / 2 / 2 / 2 = h / 8.
Proof. rewrite !Z.div_div by lia; reflexivity. Qed.

Lemma quarter_div (h : Z) : h / 2 / 2 = h / 4.
Proof. rewrite !Z.div_div by lia; reflexivity. Qed.

(** * Properties of the forward passes *)

(** ** Sizes returned by the networks (C1, C7) *)

Lemma three_nets (cin cout : Z) (norm : bool) (p : BaseNet.params) (net : BaseNet.t) :
  In net [BaseNet.init cin cout norm p; IAN.init cin cout norm p;
          ANSN.init cin cout norm p] ->
  exists act,
    net = BaseNet.set_outc (BaseNet.init cin cout norm p)
            (OutConv.init 32 cout act (BaseNet.p_outc p)).
Proof.
  intros [<- | [<- | [<- | []]]]; [exists true | exists true | exists false];
    reflexivity.
Qed.

Lemma multiple_ge (k h : Z) : 0 < h -> (k | h) -> 0 < k -> k <= h.
Proof. intros Hh Hd Hk; apply Z.divide_pos_le; auto. Qed.

(** C1, counterexample.  IAN with the default arguments (one input channel,
    one output channel, batch normalisation) is in training mode, as a
    freshly constructed module is, and is called on a tensor of size
    (1, 1, 8, 8).  Height and width are divisible by 8, yet forward raises:
    after three halvings the normalisation in down3 sees one value per
    channel.  No tensor of size (1, 1, 8, 8) is returned. *)
Lemma IAN_training_8x8_raises :
  (8 | 8)
  /\ size (zeros 1 1 8 8) = [1; 1; 8; 8]
  /\ IAN.forward (IAN.init 1 1 true basenet_zero) true (zeros 1 1 8 8)
     = raise BatchNormSingleValue
  /\ ~ returns (IAN.forward (IAN.init 1 1 true basenet_zero) true (zeros 1 1 8 8))
               1 1 8 8.
Proof.
  assert (E : IAN.forward (IAN.init 1 1 true basenet_zero) true (zeros 1 1 8 8)
              = raise BatchNormSingleValue) by (vm_compute; reflexivity).
  repeat split; auto.
  - exists 1; reflexivity.
  - intros (y & Ey & _); rewrite E in Ey; discriminate.
Qed.

(** C1, amended.  For a non-empty input of size (N, Cin, H, W), Cin the
    constructor's in_channels, with H and W positive multiples of 8, with at
    least one output channel and, when the net normalises and is in
    training mode, with N * (H/8) * (W/8) other than 1,
    the forward pass of BaseNet, of IAN and of ANSN returns a tensor of size
    (N, Cout, H, W).  The same holds for FuseNet with 4 in place of 8. *)
Theorem forward_keeps_size (cin cout : Z) (norm training : bool)
        (pB : BaseNet.params) (pF : FuseNet.params) (net : BaseNet.t)
        (x : Tensor) (n h w : Z) :
  size x = [n; cin; h; w] -> 1 <= n -> 1 <= cin -> 1 <= cout ->
  0 < h -> 0 < w ->
  In net [BaseNet.init cin cout norm pB; IAN.init cin cout norm pB;
          ANSN.init cin cout norm pB] ->
  ((8 | h) -> (8 | w) ->
   (norm = true -> training = true -> n * (h / 8) * (w / 8) <> 1) ->
   returns (BaseNet.forward net training x) n cout h w)
  /\
  ((4 | h) -> (4 | w) ->
   (norm = true -> training = true -> n * (h / 4) * (w / 4) <> 1) ->
   returns (FuseNet.forward (FuseNet.init cin cout norm pF) training x) n cout h w).
Proof.
  intros Hs Hb Hi Hc Hh Hw Hnet; split; intros Dh Dw Hn.
  - apply three_nets in Hnet as (act & ->).
    assert (8 <= h) by (apply multiple_ge; auto; lia).
    assert (8 <= w) by (apply multiple_ge; auto; lia).
    apply BaseNet_returns; auto.
    rewrite !eighth_div; auto.
  - assert (4 <= h) by (apply multiple_ge; auto; lia).
    assert (4 <= w) by (apply multiple_ge; auto; lia).
    apply FuseNet_returns; auto.
    rewrite !quarter_div; auto.
Qed.

Lemma forward_keeps_size_witness :
  returns (ANSN.forward (ANSN.init 1 1 true basenet_zero) true (zeros 2 1 8 8))
          2 1 8 8
  /\ returns (FuseNet.forward (FuseNet.init 1 1 true fusenet_zero) true
                (zeros 2 1 8 8))
             2 1 8 8.
Proof.
  destruct (forward_keeps_size 1 1 true true basenet_zero fusenet_zero
              (ANSN.init 1 1 true basenet_zero) (zeros 2 1 8 8) 2 8 8)
    as [HB HF].
  - reflexivity.
  - lia.
  - lia.
  - lia.
  - lia.
  - lia.
  - right; right; left; reflexivity.
  - split.
    + apply HB; [exists 1; reflexivity | exists 1; reflexivity |].
      intros _ _; vm_compute; discriminate.
    + apply HF; [exists 2; reflexivity | exists 2; reflexivity |].
      intros _ _; vm_compute; discriminate.
Defined.

(** C7, counterexample.  BaseNet with the default arguments, in evaluation
    mode, on a tensor of size (1, 1, 9, 9): 9 is not divisible by 8, and
    forward returns a tensor of size (1, 1, 9, 9).  FuseNet does the same
    at (1, 1, 5, 7). *)
Lemma BaseNet_9x9_returns :
  ~ (8 | 9)
  /\ fmap size (BaseNet.forward (BaseNet.init 1 1 true basenet_zero) false
                  (zeros 1 1 9 9))
     = ret [1; 1; 9; 9]
  /\ ~ (4 | 5)
  /\ fmap size (FuseNet.forward (FuseNet.init 1 1 false fusenet_zero) false
                  (zeros 1 1 5 7))
     = ret [1; 1; 5; 7].
Proof.
  split; [| split; [| split]].
  - intros [k Hk]; lia.
  - vm_compute; reflexivity.
  - intros [k Hk]; lia.
  - vm_compute; reflexivity.
Qed.

(** C7, amended.  Divisibility plays no part.  For a non-empty input of
    size (N, Cin, H, W) with H and W at least 8 the forward pass of BaseNet,
    IAN and ANSN returns a tensor of size (N, Cout, H, W), under the
    conditions of C1 on the channels and on normalisation in training mode,
    with the quotients H/8 and W/8 rounded down; with
    H or W below 8 it raises an error, and the error is not the size
    mismatch of the concatenation; for no input at all does it raise that
    error, since Up pads the upsampled tensor to the skip tensor's height
    and width before concatenating.  The same holds for FuseNet with 4 in
    place of 8. *)
Theorem forward_never_fails_at_cat (cin cout : Z) (norm training : bool)
        (pB : BaseNet.params) (pF : FuseNet.params) (net : BaseNet.t)
        (x : Tensor) (n h w : Z) :
  size x = [n; cin; h; w] ->
  In net [BaseNet.init cin cout norm pB; IAN.init cin cout norm pB;
          ANSN.init cin cout norm pB] ->
  ((8 <= h -> 8 <= w -> 1 <= n -> 1 <= cin -> 1 <= cout ->
    (norm = true -> training = true -> n * (h / 8) * (w / 8) <> 1) ->
    returns (BaseNet.forward net training x) n cout h w)
   /\ (h < 8 \/ w < 8 ->
       exists e, BaseNet.forward net training x = inl e /\ e <> CatSizes)
   /\ BaseNet.forward net training x <> inl CatSizes)
  /\
  ((4 <= h -> 4 <= w -> 1 <= n -> 1 <= cin -> 1 <= cout ->
    (norm = true -> training = true -> n * (h / 4) * (w / 4) <> 1) ->
    returns (FuseNet.forward (FuseNet.init cin cout norm pF) training x) n cout h w)
   /\ (h < 4 \/ w < 4 ->
       exists e, FuseNet.forward (FuseNet.init cin cout norm pF) training x = inl e
                 /\ e <> CatSizes)
   /\ FuseNet.forward (FuseNet.init cin cout norm pF) training x <> inl CatSizes).
Proof.
  intros Hs Hnet.
  apply three_nets in Hnet as (act & ->).
  pose proof (tame_BaseNet cin cout norm act pB) as TB.
  pose proof (tame_FuseNet cin cout norm pF) as TF.
  split; repeat split.
  - intros; apply BaseNet_returns; auto; rewrite !eighth_div; auto.
  - intros Hsmall; apply tame_failure; auto.
    intros y Ey; apply BaseNet_inr in Ey; sizes; lia.
  - apply tame_not_cat; auto.
  - intros; apply FuseNet_returns; auto; rewrite !quarter_div; auto.
  - intros Hsmall; apply tame_failure; auto.
    intros y Ey; apply FuseNet_inr in Ey; sizes; lia.
  - apply tame_not_cat; auto.
Qed.

Lemma forward_never_fails_at_cat_witness :
  returns (BaseNet.forward (BaseNet.init 1 1 true basenet_zero) false
             (zeros 1 1 9 13))
          1 1 9 13
  /\ returns (FuseNet.forward (FuseNet.init 1 1 true fusenet_zero) false
                (zeros 1 1 9 13))
             1 1 9 13
  /\ (exists e, BaseNet.forward (BaseNet.init 1 1 true basenet_zero) false
                  (zeros 1 1 3 16) = inl e /\ e <> CatSizes)
  /\ (exists e, FuseNet.forward (FuseNet.init 1 1 true fusenet_zero) false
                  (zeros 1 1 3 16) = inl e /\ e <> CatSizes).
Proof.
  destruct (forward_never_fails_at_cat 1 1 true false basenet_zero fusenet_zero
              (BaseNet.init 1 1 true basenet_zero) (zeros 1 1 9 13) 1 9 13)
    as [(HB & _ & _) (HF & _ & _)];
    [reflexivity | left; reflexivity |].
  destruct (forward_never_fails_at_cat 1 1 true false basenet_zero fusenet_zero
              (BaseNet.init 1 1 true basenet_zero) (zeros 1 1 3 16) 1 3 16)
    as [(_ & SB & _) (_ & SF & _)];
    [reflexivity | left; reflexivity |].
  repeat split.
  - apply HB; try lia; intros _ E; discriminate E.
  - apply HF; try lia; intros _ E; discriminate E.
  - apply SB; left; lia.
  - apply SF; left; lia.
Defined.

(** ** The attention gates (C2) *)

Lemma sumZ_ext (n : Z) (f g : Z -> R) :
  (forall k, f k = g k) -> sumZ n f = sumZ n g.
Proof.
  intros E; unfold sumZ.
  induction (seq 0 (Z.to_nat n)) as [|k l IH]; simpl; auto.
  rewrite E, IH; reflexivity.
Qed.

(** With output size 1 the adaptive pooling is the average over the whole
    height and width. *)
Lemma global_average (x : Tensor) (b c : Z) :
  item (nn.AdaptiveAvgPool2d_out 1 x) b c 0 0
  = (sumZ (dim2 x) (fun i => sumZ (dim3 x) (fun j => item x b c i j))
     / IZR (dim2 x * dim3 x))%R.
Proof.
  unfold nn.AdaptiveAvgPool2d_out, nn.pool_start, nn.pool_end; cbn [item].
  replace ((0 + 1) * dim2 x + 1 - 1) with (dim2 x) by lia.
  replace ((0 + 1) * dim3 x + 1 - 1) with (dim3 x) by lia.
  rewrite !Z.div_1_r, !Z.mul_0_l.
  rewrite !Z.sub_0_r.
  reflexivity.
Qed.

Lemma PALayer_item (channel : Z) (p : PALayer.params) (x : Tensor) (b c i j : Z) :
  0 <= b < dim0 x -> 0 <= c < dim1 x -> 0 <= i < dim2 x -> 0 <= j < dim3 x ->
  item (torch.mul_out x (PA_gate channel p x)) b c i j
  = (item x b c i j * item (PA_gate channel p x) b 0 i j)%R.
Proof.
  intros Hb Hc Hi Hj.
  unfold torch.mul_out; cbn [item].
  rewrite !(bidx_in_range (dim0 x)), !(bidx_in_range (dim1 x)),
          !(bidx_in_range (dim2 x)), !(bidx_in_range (dim3 x)) by auto.
  pose proof (PA_gate_size channel p x) as Hg; sizes.
  repeat match goal with H : _ (PA_gate channel p x) = _ |- _ => rewrite H end.
  change (torch.bidx 1 c) with 0.
  rewrite !bidx_in_range by auto.
  reflexivity.
Qed.

Lemma CALayer_item (channel : Z) (p : CALayer.params) (x : Tensor) (b c i j : Z) :
  dim1 x = channel ->
  0 <= b < dim0 x -> 0 <= c < dim1 x -> 0 <= i < dim2 x -> 0 <= j < dim3 x ->
  item (torch.mul_out x (CA_gate channel p x)) b c i j
  = (item x b c i j * item (CA_gate channel p x) b c 0 0)%R.
Proof.
  intros Hch Hb Hc Hi Hj.
  unfold torch.mul_out; cbn [item].
  rewrite !(bidx_in_range (dim0 x)), !(bidx_in_range (dim1 x)),
          !(bidx_in_range (dim2 x)), !(bidx_in_range (dim3 x)) by auto.
  pose proof (CA_gate_size channel p x) as Hg; sizes.
  repeat match goal with H : _ (CA_gate channel p x) = _ |- _ => rewrite H end.
  change (torch.bidx 1 i) with 0; change (torch.bidx 1 j) with 0.
  rewrite !bidx_in_range by lia.
  reflexivity.
Qed.

(** C2.  On an input of size (N, C, H, W), with C the constructor's channel
    count (at least 8) and N, H, W at least 1, PALayer.forward and
    CALayer.forward each return a tensor of the size of the input, whose
    entries are the input's entries times a gate with all entries in [0,1].
    PALayer's gate has one channel, size (N, 1, H, W), and is the sigmoid of
    a 1x1 convolution C/8 -> 1 of the rectified 1x1 convolution C -> C/8 of
    the input.  CALayer's gate has size (N, C, 1, 1) and is the sigmoid of a
    1x1 convolution C/8 -> C of the rectified 1x1 convolution C -> C/8 of the
    average of the input over height and width. *)
Theorem attention_gates (channel : Z) (pp : PALayer.params) (pc : CALayer.params)
        (training : bool) (x : Tensor) (n h w : Z) :
  size x = [n; channel; h; w] -> 8 <= channel -> 1 <= n -> 1 <= h -> 1 <= w ->
  (let hidden := nn.Conv2d_out (channel / 8) 1 0 (PALayer.pa_0 pp) x in
   let gate := pointwise sigmoid
                 (nn.Conv2d_out 1 1 0 (PALayer.pa_2 pp) (pointwise relu hidden)) in
   size hidden = [n; channel / 8; h; w]
   /\ PALayer.pa (PALayer.init channel pp) training x = ret gate
   /\ size gate = [n; 1; h; w]
   /\ unit_valued gate
   /\ exists y,
        PALayer.forward (PALayer.init channel pp) training x = ret y
        /\ size y = size x
        /\ forall b c i j,
             0 <= b < n -> 0 <= c < channel -> 0 <= i < h -> 0 <= j < w ->
             item y b c i j = (item x b c i j * item gate b 0 i j)%R)
  /\
  (let pooled := nn.AdaptiveAvgPool2d_out 1 x in
   let hidden := nn.Conv2d_out (channel / 8) 1 0 (CALayer.ca_0 pc) pooled in
   let gate := pointwise sigmoid
                 (nn.Conv2d_out channel 1 0 (CALayer.ca_2 pc) (pointwise relu hidden)) in
   CALayer.avg_pool (CALayer.init channel pc) training x = ret pooled
   /\ size pooled = [n; channel; 1; 1]
   /\ (forall b c,
         item pooled b c 0 0
         = (sumZ h (fun i => sumZ w (fun j => item x b c i j)) / IZR (h * w))%R)
   /\ size hidden = [n; channel / 8; 1; 1]
   /\ CALayer.ca (CALayer.init channel pc) training pooled = ret gate
   /\ size gate = [n; channel; 1; 1]
   /\ unit_valued gate
   /\ exists y,
        CALayer.forward (CALayer.init channel pc) training x = ret y
        /\ size y = size x
        /\ forall b c i j,
             0 <= b < n -> 0 <= c < channel -> 0 <= i < h -> 0 <= j < w ->
             item y b c i j = (item x b c i j * item gate b c 0 0)%R).
Proof.
  intros Hs Hc Hn Hh Hw.
  pose proof Hs as Hs'; sizes; subst n h w.
  split; cbv zeta.
  - split; [apply size_eq; simpl; repeat split; auto; lia |].
    split; [apply PALayer_pa_ok; auto |].
    split; [apply size_eq; simpl; repeat split; auto; lia |].
    split; [apply (PA_gate_unit channel pp x) |].
    exists (torch.mul_out x (PA_gate channel pp x)).
    split; [apply PALayer_forward_ok; auto |].
    split; [apply PALayer_out_size |].
    intros b c i j Hb Hcc Hi Hj.
    apply (PALayer_item channel pp x); lia.
  - assert (Ea : CALayer.avg_pool (CALayer.init channel pc) training x
                 = ret (nn.AdaptiveAvgPool2d_out 1 x)).
    { simpl CALayer.avg_pool; apply AdaptiveAvgPool2d_ok; lia. }
    pose proof (CALayer_ca_ok channel pc training x Hc ltac:(auto) Hh Hw) as Eg.
    rewrite Ea in Eg; simpl bind in Eg.
    split; [exact Ea |].
    split; [apply size_eq; simpl; auto |].
    split; [intros b c; apply global_average |].
    split; [apply size_eq; simpl; auto |].
    split; [exact Eg |].
    split; [apply size_eq; simpl; auto |].
    split; [apply (CA_gate_unit channel pc x) |].
    exists (torch.mul_out x (CA_gate channel pc x)).
    split; [apply CALayer_forward_ok; auto |].
    split; [apply CALayer_out_size; auto |].
    intros b c i j Hb Hcc Hi Hj.
    apply (CALayer_item channel pc x); auto; lia.
Qed.

Lemma attention_gates_witness :
  exists y,
    PALayer.forward (PALayer.init 16 pa_zero) true (zeros 2 16 3 5) = ret y
    /\ size y = [2; 16; 3; 5].
Proof.
  destruct (attention_gates 16 pa_zero ca_zero true (zeros 2 16 3 5) 2 3 5)
    as [(_ & _ & _ & _ & y & Ey & Sy & _) _].
  - reflexivity.
  - lia.
  - lia.
  - lia.
  - lia.
  - exists y; split; [exact Ey | exact Sy].
Defined.

(** ** The output convolution (C5) and the two specialisations (C4) *)

Lemma OutConv_forward_eq (cin cout : Z) (act : bool) (p : ConvParams)
      (training : bool) (x : Tensor) :
  OutConv.forward (OutConv.init cin cout act p) training x
  = (y <- nn.Conv2d cin cout 3 1 p training x ;;
     if act then ret (pointwise sigmoid y) else ret y).
Proof.
  unfold OutConv.forward, OutConv.init; simpl OutConv.conv.
  rewrite Sequential_two; destruct act; reflexivity.
Qed.

Lemma bind_ret_r {A : Type} (r : result A) : bind r (fun y => ret y) = r.
Proof. destruct r; reflexivity. Qed.

(** A convolution with zero weights returns its bias everywhere. *)
Lemma Conv2d_out_bias_only (cout k pad : Z) (v : R) (x : Tensor) (b o i j : Z) :
  item (nn.Conv2d_out cout k pad
          (mkConvParams (fun _ _ _ _ => 0%R) (fun _ => v)) x) b o i j = v.
Proof.
  unfold nn.Conv2d_out; cbn [item conv_weight conv_bias].
  rewrite sumZ_zero; [lra |].
  intros c; apply sumZ_zero; intros a; apply sumZ_zero; intros d.
  destruct (_ && _); lra.
Qed.

(** C5.  On an input of size (N, Cin, H, W) with N, Cin, H, W at least 1 and
    with at least one output channel, OutConv with act=True returns the
    sigmoid of
    the 3x3 padding-1 convolution, a tensor with all entries in [0,1]; with
    act=False it returns the convolution's output itself, which is not
    bounded: for every real v some parameters make every entry equal v, so
    for v = -1 the output is negative. *)
Theorem OutConv_range (cin cout : Z) (p : ConvParams) (training : bool)
        (x : Tensor) (n h w : Z) :
  size x = [n; cin; h; w] -> 1 <= n -> 1 <= cin -> 1 <= cout ->
  1 <= h -> 1 <= w ->
  let linear := nn.Conv2d_out cout 3 1 p x in
  nn.Conv2d cin cout 3 1 p training x = ret linear
  /\ OutConv.forward (OutConv.init cin cout true p) training x
     = ret (pointwise sigmoid linear)
  /\ size (pointwise sigmoid linear) = [n; cout; h; w]
  /\ unit_valued (pointwise sigmoid linear)
  /\ OutConv.forward (OutConv.init cin cout false p) training x = ret linear
  /\ size linear = [n; cout; h; w]
  /\ (forall v : R, exists q : ConvParams,
        OutConv.forward (OutConv.init cin cout false q) training x
        = ret (nn.Conv2d_out cout 3 1 q x)
        /\ forall b o i j, item (nn.Conv2d_out cout 3 1 q x) b o i j = v)
  /\ (exists q : ConvParams,
        OutConv.forward (OutConv.init cin cout false q) training x
        = ret (nn.Conv2d_out cout 3 1 q x)
        /\ forall b o i j, (item (nn.Conv2d_out cout 3 1 q x) b o i j < 0)%R).
Proof.
  intros Hs Hn Hi Hc Hh Hw linear; subst linear; sizes.
  assert (Econv : forall q, nn.Conv2d cin cout 3 1 q training x
                            = ret (nn.Conv2d_out cout 3 1 q x)).
  { intros q; apply Conv2d_ok; lia. }
  assert (Eraw : forall q, OutConv.forward (OutConv.init cin cout false q) training x
                           = ret (nn.Conv2d_out cout 3 1 q x)).
  { intros q; rewrite OutConv_forward_eq, Econv; reflexivity. }
  split; [apply Econv |].
  split; [rewrite OutConv_forward_eq, Econv; reflexivity |].
  split; [apply size_eq; simpl; repeat split; lia |].
  split; [intros b o i j; apply sigmoid_unit_interval |].
  split; [apply Eraw |].
  split; [apply size_eq; simpl; repeat split; lia |].
  split.
  - intros v; exists (mkConvParams (fun _ _ _ _ => 0%R) (fun _ => v)).
    split; [apply Eraw |].
    intros; apply Conv2d_out_bias_only.
  - exists (mkConvParams (fun _ _ _ _ => 0%R) (fun _ => (-1)%R)).
    split; [apply Eraw |].
    intros; rewrite Conv2d_out_bias_only; lra.
Qed.

Lemma OutConv_range_witness :
  unit_valued (pointwise sigmoid (nn.Conv2d_out 1 3 1 conv_zero (zeros 1 32 4 4)))
  /\ OutConv.forward (OutConv.init 32 1 false conv_zero) false (zeros 1 32 4 4)
     = ret (nn.Conv2d_out 1 3 1 conv_zero (zeros 1 32 4 4)).
Proof.
  destruct (OutConv_range 32 1 conv_zero false (zeros 1 32 4 4) 1 4 4)
    as (_ & _ & _ & U & E & _).
  - reflexivity.
  - lia.
  - lia.
  - lia.
  - lia.
  - lia.
  - split; [exact U | exact E].
Defined.

(** C4.  For the same constructor arguments, the same parameters and the
    same input, IAN and ANSN have the same sub-modules except outc; both
    outc are the same 3x3 convolution, followed by the sigmoid in IAN and
    by the identity in ANSN.  ANSN returns the output of that convolution
    on the features unchanged, IAN returns its sigmoid, and whenever one
    raises an error the other raises the same error. *)
Theorem IAN_ANSN_differ_in_activation (cin cout : Z) (norm : bool)
        (p : BaseNet.params) (training : bool) (x : Tensor) :
  let ian := IAN.init cin cout norm p in
  let ansn := ANSN.init cin cout norm p in
  let pre := (f <- BaseNet.features ian training x ;;
              nn.Conv2d 32 cout 3 1 (BaseNet.p_outc p) training f) in
  (BaseNet.n_channels ian = BaseNet.n_channels ansn
   /\ BaseNet.n_classes ian = BaseNet.n_classes ansn
   /\ BaseNet.inc ian = BaseNet.inc ansn
   /\ BaseNet.down1 ian = BaseNet.down1 ansn
   /\ BaseNet.down2 ian = BaseNet.down2 ansn
   /\ BaseNet.down3 ian = BaseNet.down3 ansn
   /\ BaseNet.up1 ian = BaseNet.up1 ansn
   /\ BaseNet.up2 ian = BaseNet.up2 ansn
   /\ BaseNet.up3 ian = BaseNet.up3 ansn)
  /\ OutConv.conv (BaseNet.outc ian)
     = nn.Sequential [nn.Conv2d 32 cout 3 1 (BaseNet.p_outc p); nn.Sigmoid]
  /\ OutConv.conv (BaseNet.outc ansn)
     = nn.Sequential [nn.Conv2d 32 cout 3 1 (BaseNet.p_outc p); nn.Identity]
  /\ BaseNet.features ian training x = BaseNet.features ansn training x
  /\ ANSN.forward ansn training x = pre
  /\ IAN.forward ian training x = fmap (pointwise sigmoid) pre
  /\ IAN.forward ian training x
     = fmap (pointwise sigmoid) (ANSN.forward ansn training x).
Proof.
  intros ian ansn pre.
  assert (EA : ANSN.forward ansn training x = pre).
  { unfold ANSN.forward; rewrite BaseNet_forward_features.
    subst pre; change (BaseNet.features ansn training x)
                 with (BaseNet.features ian training x).
    destruct (BaseNet.features ian training x) as [e|f]; cbn [bind];
      [reflexivity |].
    change (BaseNet.outc ansn)
      with (OutConv.init 32 cout false (BaseNet.p_outc p)).
    rewrite OutConv_forward_eq; apply bind_ret_r. }
  assert (EI : IAN.forward ian training x = fmap (pointwise sigmoid) pre).
  { unfold IAN.forward; rewrite BaseNet_forward_features.
    subst pre.
    destruct (BaseNet.features ian training x) as [e|f]; cbn [bind];
      [reflexivity |].
    change (BaseNet.outc ian)
      with (OutConv.init 32 cout true (BaseNet.p_outc p)).
    rewrite OutConv_forward_eq; reflexivity. }
  split; [repeat split |].
  split; [reflexivity |].
  split; [reflexivity |].
  split; [reflexivity |].
  split; [exact EA |].
  split; [exact EI |].
  rewrite EA; exact EI.
Qed.

(** ** The attentive blocks (C6) *)

Lemma keeps_size_Sequential (ms : list Layer) :
  Forall keeps_size ms -> keeps_size (nn.Sequential ms).
Proof.
  induction 1 as [|m ms Hm _ IH]; intros training x y E.
  - rewrite Sequential_nil in E; injection E as <-; auto.
  - apply Sequential_cons_inr in E as (z & Ez & E).
    apply Hm in Ez; apply IH in E; congruence.
Qed.

Lemma keeps_size_norm (norm : bool) (c : Z) (p : NormParams) :
  keeps_size (if norm then nn.BatchNorm2d c p else nn.Identity).
Proof.
  destruct norm; [unfold nn.BatchNorm2d | unfold nn.Identity]; inr_leaf.
Qed.

Lemma keeps_size_activation (leaky : bool) (s : R) :
  keeps_size (if leaky then nn.LeakyReLU s else nn.ReLU).
Proof.
  destruct leaky; [unfold nn.LeakyReLU | unfold nn.ReLU]; inr_leaf.
Qed.

Lemma DoubleConv_inr_out (cin cout : Z) (norm leaky : bool) (p : DoubleConv.params)
      (training : bool) (x y : Tensor) :
  DoubleConv.forward (DoubleConv.init cin cout norm leaky p) training x = inr y ->
  dim1 y = cout /\ 1 <= dim2 y /\ 1 <= dim3 y.
Proof.
  unfold DoubleConv.forward, DoubleConv.init; simpl DoubleConv.conv.
  intros E.
  apply Sequential_cons_inr in E as (z1 & _ & E).
  apply Sequential_cons_inr in E as (z2 & _ & E).
  apply Sequential_cons_inr in E as (z3 & _ & E).
  apply Sequential_cons_inr in E as (z4 & E4 & E).
  apply Conv2d_inr in E4 as (_ & _ & H2 & H3 & ->).
  assert (S : size y = size (nn.Conv2d_out cout 3 1 (DoubleConv.conv_3 p) z3)).
  { revert E; apply keeps_size_Sequential.
    repeat (apply Forall_cons || apply Forall_nil);
      auto using keeps_size_norm, keeps_size_activation. }
  unfold size in S; cbn [nn.Conv2d_out dim0 dim1 dim2 dim3] in S.
  injection S as _ -> -> ->; lia.
Qed.

Lemma Down_inr_out (cin cout : Z) (norm leaky : bool) (p : DoubleConv.params)
      (training : bool) (x y : Tensor) :
  Down.forward (Down.init cin cout norm leaky p) training x = inr y ->
  dim1 y = cout /\ 1 <= dim2 y /\ 1 <= dim3 y.
Proof.
  unfold Down.forward, Down.init; simpl Down.maxpool_conv.
  rewrite Sequential_two; intros E.
  apply bind_inr in E as (z & _ & E).
  eapply DoubleConv_inr_out; eauto.
Qed.

Lemma pad_inr (u y : Tensor) (p : list Z) :
  F.pad u p = inr y ->
  y = F.pad_out u (size_at p 0) (size_at p 1) (size_at p 2) (size_at p 3).
Proof.
  unfold F.pad, raise, ret; destruct (_ || _); [discriminate |].
  intros E; injection E as <-; reflexivity.
Qed.

Lemma cat_inr (a b y : Tensor) :
  torch.cat a b = inr y -> y = torch.cat_out a b.
Proof.
  unfold torch.cat, raise, ret; destruct (_ && _); [| discriminate].
  intros E; injection E as <-; reflexivity.
Qed.

(** A successful [Up.forward] went through all four steps, and the
    channels of the skip tensor and of the upsampled tensor add up to the
    channels the DoubleConv declares. *)
Lemma Up_inr (cin cout : Z) (bilinear norm leaky : bool) (p : Up.params)
      (training : bool) (x1 x2 y : Tensor) :
  Up.forward (Up.init cin cout bilinear norm leaky p) training x1 x2 = inr y ->
  (exists u,
     Up.up (Up.init cin cout bilinear norm leaky p) training x1 = inr u
     /\ dim1 x2 + dim1 u = cin)
  /\ dim1 y = cout /\ 1 <= dim2 y /\ 1 <= dim3 y.
Proof.
  unfold Up.forward; intros E.
  apply bind_inr in E as (u & Eu & E).
  apply bind_inr in E as (pd & Ep & E).
  apply bind_inr in E as (ct & Ec & E).
  rewrite Up_conv_init in E.
  apply pad_inr in Ep; apply cat_inr in Ec.
  split.
  - exists u; split; auto.
    apply DoubleConv_inr in E as (Hc & _); subst ct pd; simpl in Hc; lia.
  - eapply DoubleConv_inr_out; eauto.
Qed.

Lemma size_same (x y : Tensor) :
  size x = size y ->
  dim0 x = dim0 y /\ dim1 x = dim1 y /\ dim2 x = dim2 y /\ dim3 x = dim3 y.
Proof. intros E; apply (size_eq x) in E; exact E. Qed.

Lemma attention_ok (channel : Z) (pc : CALayer.params) (pp : PALayer.params)
      (training : bool) (b : Tensor) :
  8 <= channel -> dim1 b = channel -> 1 <= dim2 b -> 1 <= dim3 b ->
  nn.Sequential [CALayer.forward (CALayer.init channel pc);
                 PALayer.forward (PALayer.init channel pp)] training b
  = ret (gated channel pc pp b)
  /\ size (gated channel pc pp b) = size b.
Proof.
  intros Hc H1 H2 H3.
  pose proof (CALayer_out_size channel pc b H1) as Sc.
  destruct (size_same _ _ Sc) as (D0 & D1 & D2 & D3).
  split.
  - rewrite Sequential_two, CALayer_forward_ok by auto; cbn [bind ret].
    rewrite PALayer_forward_ok by lia; reflexivity.
  - unfold gated; cbv zeta; rewrite PALayer_out_size; auto.
Qed.

Lemma gated_item (channel : Z) (pc : CALayer.params) (pp : PALayer.params)
      (x : Tensor) (b c i j : Z) :
  dim1 x = channel ->
  0 <= b < dim0 x -> 0 <= c < dim1 x -> 0 <= i < dim2 x -> 0 <= j < dim3 x ->
  item (gated channel pc pp x) b c i j
  = (item x b c i j
     * item (CA_gate channel pc x) b c 0 0
     * item (PA_gate channel pp (torch.mul_out x (CA_gate channel pc x))) b 0 i j)%R.
Proof.
  intros H1 Hb Hc Hi Hj.
  pose proof (CALayer_out_size channel pc x H1) as Sc.
  destruct (size_same _ _ Sc) as (D0 & D1 & D2 & D3).
  unfold gated; cbv zeta.
  rewrite PALayer_item by lia.
  rewrite CALayer_item by auto.
  reflexivity.
Qed.

Lemma gated_unit (channel : Z) (pc : CALayer.params) (pp : PALayer.params)
      (x : Tensor) :
  unit_valued (CA_gate channel pc x)
  /\ unit_valued (PA_gate channel pp (torch.mul_out x (CA_gate channel pc x))).
Proof. split; [apply CA_gate_unit | apply PA_gate_unit]. Qed.

(** C6.  AttentiveDown.forward is PALayer.forward after CALayer.forward
    after Down.forward, AttentiveUp.forward is the same after Up.forward,
    and AttentiveDoubleConv.forward the same after DoubleConv.forward:
    channel attention first, pixel attention second, and an error of any
    stage ends the call.  With at least 8 output channels nothing but the
    gating is added: whenever the base operation returns a tensor [b], the
    attentive block returns [gated b], of the size of [b], whose entries are
    those of [b] times a channel gate and a pixel gate in [0,1]. *)
Theorem attentive_blocks (cin cout : Z) (bilinear norm leaky : bool)
        (pD : AttentiveDown.params) (pU : AttentiveUp.params)
        (pC : AttentiveDoubleConv.params)
        (training : bool) (x x1 x2 : Tensor) :
  let attend (pc : CALayer.params) (pp : PALayer.params) (b : Tensor) :=
    (c <- CALayer.forward (CALayer.init cout pc) training b ;;
     PALayer.forward (PALayer.init cout pp) training c) in
  let down := Down.forward (Down.init cin cout norm leaky (AttentiveDown.p_down pD))
                training x in
  let up := Up.forward (Up.init cin cout bilinear norm leaky (AttentiveUp.p_up pU))
              training x1 x2 in
  let conv := DoubleConv.forward
                (DoubleConv.init cin cout norm leaky (AttentiveDoubleConv.p_conv pC))
                training x in
  let adown := AttentiveDown.forward (AttentiveDown.init cin cout norm leaky pD)
                 training x in
  let aup := AttentiveUp.forward (AttentiveUp.init cin cout bilinear norm leaky pU)
               training x1 x2 in
  let aconv := AttentiveDoubleConv.forward
                 (AttentiveDoubleConv.init cin cout norm leaky pC) training x in
  (adown = (b <- down ;;
            attend (AttentiveDown.p_attention_0 pD) (AttentiveDown.p_attention_1 pD) b)
   /\ aup = (b <- up ;;
             attend (AttentiveUp.p_attention_0 pU) (AttentiveUp.p_attention_1 pU) b)
   /\ aconv = (b <- conv ;;
               attend (AttentiveDoubleConv.p_attention_0 pC)
                      (AttentiveDoubleConv.p_attention_1 pC) b))
  /\
  (8 <= cout ->
   (forall b, down = ret b ->
      adown = ret (gated cout (AttentiveDown.p_attention_0 pD)
                         (AttentiveDown.p_attention_1 pD) b))
   /\ (forall b, up = ret b ->
         aup = ret (gated cout (AttentiveUp.p_attention_0 pU)
                          (AttentiveUp.p_attention_1 pU) b))
   /\ (forall b, conv = ret b ->
         aconv = ret (gated cout (AttentiveDoubleConv.p_attention_0 pC)
                            (AttentiveDoubleConv.p_attention_1 pC) b))
   /\ (forall pc pp b, down = ret b \/ up = ret b \/ conv = ret b ->
         size (gated cout pc pp b) = size b
         /\ unit_valued (CA_gate cout pc b)
         /\ unit_valued (PA_gate cout pp (torch.mul_out b (CA_gate cout pc b)))
         /\ forall n c i j,
              0 <= n < dim0 b -> 0 <= c < dim1 b ->
              0 <= i < dim2 b -> 0 <= j < dim3 b ->
              item (gated cout pc pp b) n c i j
              = (item b n c i j
                 * item (CA_gate cout pc b) n c 0 0
                 * item (PA_gate cout pp (torch.mul_out b (CA_gate cout pc b)))
                        n 0 i j)%R)).
Proof.
  intros attend down up conv adown aup aconv.
  assert (Eatt : forall pc pp b,
             nn.Sequential [CALayer.forward (CALayer.init cout pc);
                            PALayer.forward (PALayer.init cout pp)] training b
             = attend pc pp b).
  { intros; apply Sequential_two. }
  assert (E1 : adown = (b <- down ;;
            attend (AttentiveDown.p_attention_0 pD) (AttentiveDown.p_attention_1 pD) b)).
  { subst adown down; unfold AttentiveDown.forward.
    cbn [AttentiveDown.init AttentiveDown.down AttentiveDown.attention].
    destruct (Down.forward _ _ _) as [e|b]; cbn [bind]; auto. }
  assert (E2 : aup = (b <- up ;;
            attend (AttentiveUp.p_attention_0 pU) (AttentiveUp.p_attention_1 pU) b)).
  { subst aup up; unfold AttentiveUp.forward.
    cbn [AttentiveUp.init AttentiveUp.up AttentiveUp.attention].
    destruct (Up.forward _ _ _ _) as [e|b]; cbn [bind]; auto. }
  assert (E3 : aconv = (b <- conv ;;
            attend (AttentiveDoubleConv.p_attention_0 pC)
                   (AttentiveDoubleConv.p_attention_1 pC) b)).
  { subst aconv conv; unfold AttentiveDoubleConv.forward.
    cbn [AttentiveDoubleConv.init AttentiveDoubleConv.conv
         AttentiveDoubleConv.attention].
    destruct (DoubleConv.forward _ _ _) as [e|b]; cbn [bind]; auto. }
  split; [auto |].
  intros Hc.
  assert (Hdown : forall b, down = ret b ->
                    dim1 b = cout /\ 1 <= dim2 b /\ 1 <= dim3 b).
  { intros b Eb; eapply Down_inr_out; exact Eb. }
  assert (Hup : forall b, up = ret b ->
                  dim1 b = cout /\ 1 <= dim2 b /\ 1 <= dim3 b).
  { intros b Eb; eapply Up_inr; exact Eb. }
  assert (Hconv : forall b, conv = ret b ->
                    dim1 b = cout /\ 1 <= dim2 b /\ 1 <= dim3 b).
  { intros b Eb; eapply DoubleConv_inr_out; exact Eb. }
  assert (Hatt : forall pc pp b,
             dim1 b = cout /\ 1 <= dim2 b /\ 1 <= dim3 b ->
             attend pc pp b = ret (gated cout pc pp b)).
  { intros pc pp b (H1 & H2 & H3); rewrite <- Eatt.
    apply attention_ok; auto. }
  split; [| split; [| split]].
  - intros b Eb; rewrite E1, Eb; cbn [bind ret]; apply Hatt; auto.
  - intros b Eb; rewrite E2, Eb; cbn [bind ret]; apply Hatt; auto.
  - intros b Eb; rewrite E3, Eb; cbn [bind ret]; apply Hatt; auto.
  - intros pc pp b Hb.
    assert (H : dim1 b = cout /\ 1 <= dim2 b /\ 1 <= dim3 b).
    { destruct Hb as [Hb | [Hb | Hb]]; auto. }
    destruct H as (H1 & H2 & H3).
    split; [apply (attention_ok cout pc pp training b); auto |].
    split; [apply CA_gate_unit |].
    split; [apply PA_gate_unit |].
    intros; apply gated_item; auto.
Qed.

Lemma attentive_blocks_witness :
  exists b,
    DoubleConv.forward (DoubleConv.init 1 32 false false double_zero) false
      (zeros 1 1 4 4) = ret b
    /\ AttentiveDoubleConv.forward
         (AttentiveDoubleConv.init 1 32 false false
            (AttentiveDoubleConv.mkParams double_zero ca_zero pa_zero))
         false (zeros 1 1 4 4)
       = ret (gated 32 ca_zero pa_zero b).
Proof.
  destruct (DoubleConv_returns 1 32 false false double_zero false
              (zeros 1 1 4 4) 1 4 4) as (b & Eb & _);
    [reflexivity | lia | lia | lia | discriminate |].
  exists b; split; [exact Eb |].
  destruct (attentive_blocks 1 32 true false false
              (AttentiveDown.mkParams double_zero ca_zero pa_zero)
              (AttentiveUp.mkParams up_zero ca_zero pa_zero)
              (AttentiveDoubleConv.mkParams double_zero ca_zero pa_zero)
              false (zeros 1 1 4 4) (zeros 1 1 4 4) (zeros 1 1 4 4))
    as (_ & H).
  destruct H as (_ & _ & H & _); [lia |].
  apply H; exact Eb.
Defined.

(** ** Up (C3, C10) *)

Lemma Up_up_ok (cin cout : Z) (bilinear norm leaky : bool) (p : Up.params)
      (training : bool) (x1 : Tensor) :
  1 <= dim1 x1 -> 1 <= dim2 x1 -> 1 <= dim3 x1 ->
  (bilinear = false -> dim1 x1 = cin) ->
  exists u,
    Up.up (Up.init cin cout bilinear norm leaky p) training x1 = ret u
    /\ size u = [dim0 x1; if bilinear then dim1 x1 else cin / 2;
                 2 * dim2 x1; 2 * dim3 x1].
Proof.
  intros H1 H2 H3 Hb; destruct bilinear.
  - exists (nn.Upsample_out 2 x1); split.
    + apply Up_up_bilinear; auto.
    + apply size_eq; cbn [nn.Upsample_out dim0 dim1 dim2 dim3].
      repeat split; lia.
  - exists (nn.ConvTranspose2d_out (cin / 2) 2 2 (Up.p_up p) x1); split.
    + apply Up_up_transposed; auto; rewrite <- Hb; auto.
    + apply size_eq; cbn [nn.ConvTranspose2d_out dim0 dim1 dim2 dim3].
      repeat split; lia.
Qed.

(** C3.  Up.forward on x1 of size (N, C1, H1, W1) and a skip tensor x2 of
    size (N, C2, H2, W2), batch, heights and widths at least 1 and the
    channels matching the declared in_channels: self.up returns x1 upsampled to (2*H1, 2*W1);
    F.pad is called with floor(diffX/2) on the left, diffX - floor(diffX/2)
    on the right, floor(diffY/2) on top and diffY - floor(diffY/2) below,
    where diffY = H2 - 2*H1 and diffX = W2 - 2*W1, and returns a tensor of
    height H2 and width W2 that holds the upsampled tensor at that offset
    and zero elsewhere; torch.cat returns the channels of x2 followed by
    those of the padded tensor; forward returns what DoubleConv returns on
    the concatenation, a tensor of size (N, Cout, H2, W2), whatever the
    parity of H2 and W2. *)
Theorem Up_forward_matches_skip (cin cout : Z) (bilinear norm leaky : bool)
        (p : Up.params) (training : bool) (x1 x2 : Tensor)
        (n c1 h1 w1 c2 h2 w2 : Z) :
  size x1 = [n; c1; h1; w1] -> size x2 = [n; c2; h2; w2] ->
  1 <= n -> 1 <= c1 -> 1 <= h1 -> 1 <= w1 -> 0 <= c2 -> 1 <= h2 -> 1 <= w2 ->
  1 <= cout ->
  (bilinear = false -> c1 = cin /\ 2 <= cin) ->
  c2 + (if bilinear then c1 else cin / 2) = cin ->
  (norm = true -> training = true -> n * h2 * w2 <> 1) ->
  let self := Up.init cin cout bilinear norm leaky p in
  let diffY := h2 - 2 * h1 in
  let diffX := w2 - 2 * w1 in
  exists u padded,
    Up.up self training x1 = ret u
    /\ size u = [n; if bilinear then c1 else cin / 2; 2 * h1; 2 * w1]
    /\ F.pad u [diffX / 2; diffX - diffX / 2; diffY / 2; diffY - diffY / 2]
       = ret padded
    /\ size padded = [n; if bilinear then c1 else cin / 2; h2; w2]
    /\ (forall b c i j,
          item padded b c i j
          = if in_range (i - diffY / 2) (2 * h1) && in_range (j - diffX / 2) (2 * w1)
            then item u b c (i - diffY / 2) (j - diffX / 2)
            else 0%R)
    /\ torch.cat x2 padded = ret (torch.cat_out x2 padded)
    /\ size (torch.cat_out x2 padded) = [n; cin; h2; w2]
    /\ (forall b c i j,
          item (torch.cat_out x2 padded) b c i j
          = if c <? c2 then item x2 b c i j else item padded b (c - c2) i j)
    /\ Up.forward self training x1 x2
       = DoubleConv.forward (Up.conv self) training (torch.cat_out x2 padded)
    /\ returns (Up.forward self training x1 x2) n cout h2 w2.
Proof.
  intros S1 S2 Hn1 Hc1 Hh1 Hw1 Hc2 Hh2 Hw2 Hco Hb Hsum Hn self diffY diffX.
  pose proof S1 as S1'; pose proof S2 as S2'; sizes.
  destruct (Up_up_ok cin cout bilinear norm leaky p training x1)
    as (u & Eu & Su); try lia.
  { intros Eb; destruct (Hb Eb); subst; auto. }
  destruct (size_same u
              (mkTensor n (if bilinear then c1 else cin / 2) (2 * h1) (2 * w1)
                        (item u)))
    as (U0 & U1 & U2 & U3).
  { rewrite Su; subst; reflexivity. }
  cbn [dim0 dim1 dim2 dim3] in U0, U1, U2, U3.
  destruct (Up_forward_after_up self training x1 x2 u Eu) as (Ep & Ec & Ef);
    try lia.
  assert (Sp : size (pad_to u x2) = [n; if bilinear then c1 else cin / 2; h2; w2]).
  { rewrite pad_to_size; congruence. }
  assert (Sc : size (torch.cat_out x2 (pad_to u x2)) = [n; cin; h2; w2]).
  { apply size_eq; cbn [torch.cat_out dim0 dim1 dim2 dim3 pad_to F.pad_out].
    repeat split; lia. }
  exists u, (pad_to u x2).
  split; [exact Eu |].
  split; [rewrite Su; subst; reflexivity |].
  split; [subst diffY diffX; rewrite <- Ep; repeat f_equal; lia |].
  split; [exact Sp |].
  split.
  { intros b c i j; unfold pad_to, F.pad_out; cbn [item].
    subst diffY diffX; rewrite U2, U3; subst; reflexivity. }
  split; [exact Ec |].
  split; [exact Sc |].
  split.
  { intros b c i j; unfold torch.cat_out; cbn [item]; subst; reflexivity. }
  split; [exact Ef |].
  rewrite Ef; subst self; rewrite Up_conv_init.
  apply DoubleConv_returns; auto.
Qed.

Lemma Up_forward_matches_skip_witness :
  returns (Up.forward (Up.init 64 32 true true true up_zero) true
             (zeros 1 32 4 4) (zeros 1 32 9 9))
          1 32 9 9.
Proof.
  destruct (Up_forward_matches_skip 64 32 true true true up_zero true
              (zeros 1 32 4 4) (zeros 1 32 9 9) 1 32 4 4 32 9 9)
    as (u & padded & H);
    [ reflexivity | reflexivity | lia | lia | lia | lia | lia | lia | lia
    | lia | intros E; discriminate E | reflexivity | intros _ _; lia
    | apply H ].
Defined.

Lemma ConvTranspose2d_inr (cin cout k s : Z) (p : ConvParams) (training : bool)
      (x u : Tensor) :
  nn.ConvTranspose2d cin cout k s p training x = inr u ->
  dim1 x = cin /\ dim1 u = cout.
Proof.
  unfold nn.ConvTranspose2d, raise, ret.
  destruct (cin <? 1); [discriminate |].
  destruct (Z.eqb_spec (dim1 x) cin); cbn [negb]; [| discriminate].
  intros E; injection E as <-; auto.
Qed.

Lemma Upsample_inr (s : Z) (training : bool) (x u : Tensor) :
  nn.Upsample s training x = inr u -> dim1 u = dim1 x.
Proof.
  unfold nn.Upsample, raise, ret.
  destruct (_ || _); [discriminate |].
  intros E; injection E as <-; auto.
Qed.

Lemma DoubleConv_wrong_channels (cin cout : Z) (norm leaky : bool)
      (p : DoubleConv.params) (training : bool) (x : Tensor) :
  1 <= cout -> dim1 x <> cin ->
  DoubleConv.forward (DoubleConv.init cin cout norm leaky p) training x
  = raise ConvInputChannels.
Proof.
  intros; unfold DoubleConv.forward, DoubleConv.init; simpl DoubleConv.conv.
  rewrite Sequential_cons, Conv2d_wrong_channels by auto; reflexivity.
Qed.

(** C10.  With bilinear=False, self.up is the transposed convolution from
    in_channels to in_channels // 2 channels and self.conv is the
    DoubleConv declared with in_channels input channels.  So a call of
    forward that returns had a skip tensor of exactly
    in_channels - in_channels // 2 channels; with any other channel count
    the upsampling, the padding and the concatenation succeed and
    DoubleConv's first convolution raises the channel error; with that
    count the call returns.  With bilinear=True the upsampling keeps the
    channels of x1, and a call that returns had a skip tensor of
    in_channels minus that many channels. *)
Theorem Up_channel_contract (cin cout : Z) (norm leaky : bool) (p : Up.params)
        (training : bool) (x1 x2 : Tensor) (n h1 w1 c2 h2 w2 : Z) :
  let self := Up.init cin cout false norm leaky p in
  Up.up self = nn.ConvTranspose2d cin (cin / 2) 2 2 (Up.p_up p)
  /\ Up.conv self = DoubleConv.init cin cout norm leaky (Up.p_conv p)
  /\ (forall y, Up.forward self training x1 x2 = inr y ->
        dim1 x1 = cin /\ dim1 x2 = cin - cin / 2)
  /\ (size x1 = [n; cin; h1; w1] -> size x2 = [n; c2; h2; w2] ->
      1 <= n -> 2 <= cin -> 1 <= h1 -> 1 <= w1 -> 0 <= c2 ->
      1 <= h2 -> 1 <= w2 -> 1 <= cout ->
      (c2 <> cin - cin / 2 ->
       exists u,
         Up.up self training x1 = ret u
         /\ size u = [n; cin / 2; 2 * h1; 2 * w1]
         /\ torch.cat x2 (pad_to u x2) = ret (torch.cat_out x2 (pad_to u x2))
         /\ Up.forward self training x1 x2
            = DoubleConv.forward (Up.conv self) training
                (torch.cat_out x2 (pad_to u x2))
         /\ Up.forward self training x1 x2 = raise ConvInputChannels)
      /\ (c2 = cin - cin / 2 ->
          (norm = true -> training = true -> n * h2 * w2 <> 1) ->
          returns (Up.forward self training x1 x2) n cout h2 w2))
  /\ (forall y,
        Up.forward (Up.init cin cout true norm leaky p) training x1 x2 = inr y ->
        dim1 x2 = cin - dim1 x1).
Proof.
  intros self.
  split; [reflexivity |].
  split; [reflexivity |].
  split.
  { intros y Ey; apply Up_inr in Ey as ((u & Eu & Hsum) & _).
    cbn [Up.init Up.up] in Eu.
    apply ConvTranspose2d_inr in Eu; destruct Eu as (H1 & Hu).
    split; lia. }
  split.
  { intros S1 S2 Hn1 Hcin Hh1 Hw1 Hc2 Hh2 Hw2 Hco.
    pose proof S1 as S1'; pose proof S2 as S2'; sizes.
    destruct (Up_up_ok cin cout false norm leaky p training x1)
      as (u & Eu & Su); try lia; auto.
    fold self in Eu; cbv iota in Su.
    destruct (size_same u (mkTensor n (cin / 2) (2 * h1) (2 * w1) (item u)))
      as (U0 & U1 & U2 & U3).
    { rewrite Su; subst; reflexivity. }
    cbn [dim0 dim1 dim2 dim3] in U0, U1, U2, U3.
    destruct (Up_forward_after_up self training x1 x2 u Eu) as (Ep & Ec & Ef);
      try lia.
    split.
    - intros Hne; exists u.
      split; [exact Eu |].
      split; [rewrite Su; subst; reflexivity |].
      split; [exact Ec |].
      split; [exact Ef |].
      rewrite Ef; apply DoubleConv_wrong_channels; auto.
      cbn [torch.cat_out pad_to F.pad_out dim1]; lia.
    - intros He Hn; rewrite Ef.
      apply DoubleConv_returns; auto.
      apply size_eq; cbn [torch.cat_out pad_to F.pad_out dim0 dim1 dim2 dim3].
      repeat split; lia. }
  intros y Ey; apply Up_inr in Ey as ((u & Eu & Hsum) & _).
  cbn [Up.init Up.up] in Eu.
  apply Upsample_inr in Eu; lia.
Qed.

Lemma Up_channel_contract_witness :
  Up.forward (Up.init 6 5 false false true up_zero) true
    (zeros 1 6 3 4) (zeros 1 4 7 9) = raise ConvInputChannels
  /\ returns (Up.forward (Up.init 6 5 false false true up_zero) true
                (zeros 1 6 3 4) (zeros 1 3 7 9))
             1 5 7 9.
Proof.
  split.
  - destruct (Up_channel_contract 6 5 false true up_zero true
                (zeros 1 6 3 4) (zeros 1 4 7 9) 1 3 4 4 7 9)
      as (_ & _ & _ & H & _).
    destruct H as [H _];
      [reflexivity | reflexivity | lia | lia | lia | lia | lia | lia | lia
      | lia |].
    destruct H as (u & _ & _ & _ & _ & E); [vm_compute; discriminate |].
    exact E.
  - destruct (Up_channel_contract 6 5 false true up_zero true
                (zeros 1 6 3 4) (zeros 1 3 7 9) 1 3 4 3 7 9)
      as (_ & _ & _ & H & _).
    destruct H as [_ H];
      [reflexivity | reflexivity | lia | lia | lia | lia | lia | lia | lia
      | lia |].
    apply H; [reflexivity | intros E; discriminate E].
Defined.

(** ** The channel requirement of the attention layers (C9) *)

Lemma AdaptiveAvgPool2d_cases (o : Z) (training : bool) (x : Tensor) :
  nn.AdaptiveAvgPool2d o training x = raise AvgPoolEmptyInput
  \/ nn.AdaptiveAvgPool2d o training x = ret (nn.AdaptiveAvgPool2d_out o x).
Proof. unfold nn.AdaptiveAvgPool2d; destruct (_ || _ || _); auto. Qed.

(** C9.  The hidden convolution of PALayer and of CALayer is declared with
    channel // 8 output channels.  For a channel count from 0 to 7 that is
    zero, and for every channel count below 8 the forward pass of either
    layer raises an error on every input: PALayer in its first convolution,
    which has no output channel, CALayer there or already in the pooling.
    For a channel count of at least 8 the hidden layer has at least one
    channel and both layers return a tensor of the size of the input, for
    every input of size (N, channel, H, W) with N, H and W at least 1. *)
Theorem attention_needs_eight_channels (channel : Z)
        (pp : PALayer.params) (pc : CALayer.params)
        (training : bool) (x : Tensor) :
  PALayer.pa (PALayer.init channel pp)
  = nn.Sequential [nn.Conv2d channel (channel / 8) 1 0 (PALayer.pa_0 pp);
                   nn.ReLU;
                   nn.Conv2d (channel / 8) 1 1 0 (PALayer.pa_2 pp);
                   nn.Sigmoid]
  /\ CALayer.ca (CALayer.init channel pc)
     = nn.Sequential [nn.Conv2d channel (channel / 8) 1 0 (CALayer.ca_0 pc);
                      nn.ReLU;
                      nn.Conv2d (channel / 8) channel 1 0 (CALayer.ca_2 pc);
                      nn.Sigmoid]
  /\ (0 <= channel < 8 -> channel / 8 = 0)
  /\ (channel < 8 ->
      channel / 8 < 1
      /\ PALayer.forward (PALayer.init channel pp) training x
         = raise ConvWeightEmpty
      /\ (CALayer.forward (CALayer.init channel pc) training x
          = raise ConvWeightEmpty
          \/ CALayer.forward (CALayer.init channel pc) training x
             = raise AvgPoolEmptyInput))
  /\ (8 <= channel ->
      1 <= channel / 8
      /\ forall n h w,
           size x = [n; channel; h; w] -> 1 <= n -> 1 <= h -> 1 <= w ->
           returns (PALayer.forward (PALayer.init channel pp) training x)
                   n channel h w
           /\ returns (CALayer.forward (CALayer.init channel pc) training x)
                      n channel h w).
Proof.
  split; [reflexivity |].
  split; [reflexivity |].
  split; [intros H; apply Z.div_small; lia |].
  split.
  - intros Hlt.
    assert (Hd : channel / 8 < 1) by (apply Z.div_lt_upper_bound; lia).
    split; [exact Hd |].
    split.
    + unfold PALayer.forward, PALayer.init; cbn [PALayer.pa].
      rewrite Sequential_cons, Conv2d_no_output_channels by auto; reflexivity.
    + unfold CALayer.forward, CALayer.init; cbn [CALayer.avg_pool CALayer.ca].
      destruct (AdaptiveAvgPool2d_cases 1 training x) as [-> | ->];
        [right; reflexivity | left].
      cbn [bind ret].
      rewrite Sequential_cons, Conv2d_no_output_channels by auto; reflexivity.
  - intros Hge; split; [apply eighth_positive; auto |].
    intros n h w Hs Hn Hh Hw; split.
    + apply PALayer_returns; auto.
    + apply CALayer_returns; auto.
Qed.

Lemma attention_needs_eight_channels_witness :
  PALayer.forward (PALayer.init 4 pa_zero) true (zeros 1 4 4 4)
  = raise ConvWeightEmpty
  /\ returns (CALayer.forward (CALayer.init 16 ca_zero) true (zeros 1 16 3 4))
             1 16 3 4.
Proof.
  split.
  - destruct (attention_needs_eight_channels 4 pa_zero ca_zero true
                (zeros 1 4 4 4)) as (_ & _ & _ & H & _).
    destruct H as (_ & E & _); [lia | exact E].
  - destruct (attention_needs_eight_channels 16 pa_zero ca_zero true
                (zeros 1 16 3 4)) as (_ & _ & _ & _ & H).
    destruct H as (_ & H); [lia |].
    apply (H 1 3 4); [reflexivity | lia | lia | lia].
Defined.

(** * Further properties of the blocks *)

(** ** DoubleConv and Down: when they return, and what *)

Lemma BatchNorm2d_inr (c : Z) (p : NormParams) (training : bool) (x y : Tensor) :
  nn.BatchNorm2d c p training x = inr y ->
  ~ (training = true /\ dim0 x * dim2 x * dim3 x = 1) /\ size y = size x.
Proof.
  unfold nn.BatchNorm2d, nn.bn_count, raise, ret.
  destruct training; cbn [andb].
  - destruct (Z.eqb_spec (dim0 x * dim2 x * dim3 x) 1); [discriminate |].
    destruct (negb _); [discriminate |].
    intros E; injection E as <-; split; [tauto | reflexivity].
  - destruct (negb _); [discriminate |].
    intros E; injection E as <-; split; [intros [E _]; discriminate | reflexivity].
Qed.

Lemma norm_inr (norm : bool) (c : Z) (p : NormParams) (training : bool)
      (x y : Tensor) :
  (if norm then nn.BatchNorm2d c p else nn.Identity) training x = inr y ->
  ~ (norm = true /\ training = true /\ dim0 x * dim2 x * dim3 x = 1)
  /\ size y = size x.
Proof.
  destruct norm.
  - intros E; apply BatchNorm2d_inr in E as (Hn & Hs); split; [tauto | auto].
  - unfold nn.Identity, ret; intros E; injection E as <-.
    split; [intros (E & _); discriminate | reflexivity].
Qed.

(** Everything a successful call of DoubleConv tells. *)
Lemma DoubleConv_inr_full (cin cout : Z) (norm leaky : bool) (p : DoubleConv.params)
      (training : bool) (x y : Tensor) :
  DoubleConv.forward (DoubleConv.init cin cout norm leaky p) training x = inr y ->
  dim1 x = cin /\ 1 <= cout /\ 1 <= dim2 x /\ 1 <= dim3 x
  /\ ~ (norm = true /\ training = true /\ dim0 x * dim2 x * dim3 x = 1)
  /\ size y = [dim0 x; cout; dim2 x; dim3 x].
Proof.
  intros E.
  pose proof (DoubleConv_inr _ _ _ _ _ _ _ _ E) as (H1 & Hc & H2 & H3).
  pose proof (DoubleConv_inr_out _ _ _ _ _ _ _ _ E) as (O1 & _ & _).
  pose proof (keeps_hw_DoubleConv _ _ _ _ _ _ _ _ E) as (K2 & K3).
  assert (K0 : dim0 y = dim0 x).
  { pose proof (tame_DoubleConv cin cout norm leaky p training x) as T.
    unfold batch_or_other in T; rewrite E in T; exact T. }
  repeat split; auto.
  - unfold DoubleConv.forward, DoubleConv.init in E; simpl DoubleConv.conv in E.
    apply Sequential_cons_inr in E as (z1 & E1 & E).
    apply Sequential_cons_inr in E as (z2 & E2 & _).
    apply Conv2d_inr in E1 as (_ & _ & _ & _ & ->).
    apply norm_inr in E2 as (Hn & _).
    cbn [nn.Conv2d_out dim0 dim2 dim3] in Hn.
    intros (A & B & C); apply Hn; repeat split; auto; lia.
  - apply size_eq; auto.
Qed.



Lemma MaxPool2d_inr_full (training : bool) (x z : Tensor) :
  nn.MaxPool2d 2 training x = inr z ->
  dim1 x <> 0 /\ 2 <= dim2 x /\ 2 <= dim3 x
  /\ size z = [dim0 x; dim1 x; dim2 x / 2; dim3 x / 2].
Proof.
  intros E; pose proof (MaxPool2d_inr _ _ _ E) as (E2 & E3 & G2 & G3).
  revert E; unfold nn.MaxPool2d, raise, ret.
  destruct (Z.eqb_spec (dim1 x) 0); cbn [orb]; [discriminate |].
  destruct (_ || _); [discriminate |].
  destruct (_ || _); [discriminate |].
  intros E; injection E as <-.
  assert (forall h, 1 <= h / 2 -> 2 <= h).
  { intros h Hh; destruct (Z.lt_ge_cases h 2); auto.
    assert (h / 2 < 1) by (apply Z.div_lt_upper_bound; lia); lia. }
  repeat split; auto; try (apply H; lia).
  apply size_eq; cbn [nn.MaxPool2d_out dim0 dim1 dim2 dim3].
  rewrite !pool_size_2; auto.
Qed.

Lemma MaxPool2d_empty (training : bool) (x : Tensor) :
  dim1 x = 0 \/ dim2 x = 0 \/ dim3 x = 0 ->
  nn.MaxPool2d 2 training x = raise PoolEmptyInput.
Proof.
  intros H; unfold nn.MaxPool2d.
  destruct (Z.eqb_spec (dim1 x) 0), (Z.eqb_spec (dim2 x) 0),
           (Z.eqb_spec (dim3 x) 0); cbn [orb]; try reflexivity; lia.
Qed.

(** X2.  Down halves height and width, rounding down, and maps in_channels
    to out_channels: on a tensor with a non-negative channel count it
    returns exactly when the input has the declared in_channels (at least
    one), there is at least one output channel, height and width are at
    least 2 and, with batch normalisation in training mode, the pooled batch
    holds more than one value per channel.  The result has size
    (N, out_channels, H // 2, W // 2).  A height or width of 1 is rejected
    by the pooling ("output size is too small"), an empty tensor by its
    check for empty input. *)
Theorem Down_contract (cin cout : Z) (norm leaky : bool)
        (p : DoubleConv.params) (training : bool) (x : Tensor) :
  0 <= dim1 x ->
  let r := Down.forward (Down.init cin cout norm leaky p) training x in
  let single := norm = true /\ training = true
                /\ dim0 x * (dim2 x / 2) * (dim3 x / 2) = 1 in
  ((exists y, r = inr y) <->
   dim1 x = cin /\ 1 <= cin /\ 1 <= cout /\ 2 <= dim2 x /\ 2 <= dim3 x /\ ~ single)
  /\ (forall y, r = inr y -> size y = [dim0 x; cout; dim2 x / 2; dim3 x / 2])
  /\ (1 <= dim1 x -> 1 <= dim2 x -> 1 <= dim3 x -> dim2 x < 2 \/ dim3 x < 2 ->
      r = raise PoolOutputTooSmall)
  /\ (dim1 x = 0 \/ dim2 x = 0 \/ dim3 x = 0 -> r = raise PoolEmptyInput).
Proof.
  intros Hnn r single; subst r single.
  assert (Inv : forall y,
            Down.forward (Down.init cin cout norm leaky p) training x = inr y ->
            (dim1 x = cin /\ 1 <= cin /\ 1 <= cout /\ 2 <= dim2 x /\ 2 <= dim3 x
             /\ ~ (norm = true /\ training = true
                   /\ dim0 x * (dim2 x / 2) * (dim3 x / 2) = 1))
            /\ size y = [dim0 x; cout; dim2 x / 2; dim3 x / 2]).
  { intros y E.
    unfold Down.forward, Down.init in E; simpl Down.maxpool_conv in E.
    rewrite Sequential_two in E.
    apply bind_inr in E as (z & Ez & E).
    apply MaxPool2d_inr_full in Ez as (N1 & G2 & G3 & Sz).
    apply DoubleConv_inr_full in E as (H1 & Hc & _ & _ & Hn & Sy).
    sizes.
    repeat match goal with H : _ z = _ |- _ => rewrite H in * end.
    repeat split; auto; try lia.
    apply size_eq; auto. }
  split; [split |].
  - intros (y & E); apply Inv in E; tauto.
  - intros (H1 & Hi & Hc & H2 & H3 & Hn).
    assert (Hs : size x = [dim0 x; cin; dim2 x; dim3 x]) by (apply size_eq; auto).
    assert (Hb : norm = true -> training = true ->
                 dim0 x * (dim2 x / 2) * (dim3 x / 2) <> 1)
      by (intros A B C; apply Hn; auto).
    destruct (Down_returns cin cout norm leaky p training x
                (dim0 x) (dim2 x) (dim3 x) Hs Hi Hc H2 H3 Hb) as (y & E & _).
    exists y; exact E.
  - split; [intros y E; apply Inv in E; tauto |].
    unfold Down.forward, Down.init; simpl Down.maxpool_conv.
    split.
    + intros H1 H2 H3 Hs.
      rewrite Sequential_two, MaxPool2d_too_small by auto; reflexivity.
    + intros He; rewrite Sequential_two, MaxPool2d_empty by auto; reflexivity.
Qed.

Lemma Down_contract_witness :
  (exists y, Down.forward (Down.init 32 64 true true double_zero) true
               (zeros 1 32 9 5) = inr y)
  /\ Down.forward (Down.init 32 64 true true double_zero) true (zeros 1 32 1 5)
     = raise PoolOutputTooSmall.
Proof.
  split.
  - destruct (Down_contract 32 64 true true double_zero true (zeros 1 32 9 5))
      as ((_ & H) & _); [cbn; lia |].
    apply H; cbn [zeros dim0 dim1 dim2 dim3].
    repeat split; try lia.
    intros (_ & _ & E); vm_compute in E; discriminate E.
  - destruct (Down_contract 32 64 true true double_zero true (zeros 1 32 1 5))
      as (_ & _ & H & _); [cbn; lia |].
    apply H; cbn [zeros dim1 dim2 dim3]; lia.
Defined.

(** ** The rectifier at the end of DoubleConv *)




(** ** Attention only scales down *)

Lemma scaled_shrunk (v g : R) : (0 <= g <= 1)%R -> shrunk v (v * g).
Proof.
  intros Hg; unfold shrunk; repeat split.
  - rewrite Rabs_mult, (Rabs_right g) by lra.
    pose proof (Rabs_pos v).
    rewrite <- (Rmult_1_r (Rabs v)) at 2.
    apply Rmult_le_compat_l; lra.
  - replace (v * (v * g))%R with (v * v * g)%R by ring.
    apply Rmult_le_pos; [apply Rle_0_sqr | lra].
  - intros ->; ring.
Qed.

(** X4.  The attention layers never amplify.  For an input the layers
    accept, each entry returned by PALayer.forward, by CALayer.forward and
    by the two in sequence (the attention of the attentive blocks) is at
    most as large in absolute value as the input's entry, has its sign, and
    is zero where the input is zero. *)
Theorem attention_never_amplifies (channel : Z)
        (pp : PALayer.params) (pc : CALayer.params)
        (training : bool) (x : Tensor) (n h w : Z) :
  size x = [n; channel; h; w] -> 8 <= channel -> 1 <= n -> 1 <= h -> 1 <= w ->
  exists yp yc ya,
    PALayer.forward (PALayer.init channel pp) training x = ret yp
    /\ CALayer.forward (CALayer.init channel pc) training x = ret yc
    /\ nn.Sequential [CALayer.forward (CALayer.init channel pc);
                      PALayer.forward (PALayer.init channel pp)] training x
       = ret ya
    /\ forall b c i j,
         0 <= b < n -> 0 <= c < channel -> 0 <= i < h -> 0 <= j < w ->
         shrunk (item x b c i j) (item yp b c i j)
         /\ shrunk (item x b c i j) (item yc b c i j)
         /\ shrunk (item x b c i j) (item ya b c i j).
Proof.
  intros Hs Hc Hn Hh Hw; sizes; subst n h w.
  exists (torch.mul_out x (PA_gate channel pp x)),
         (torch.mul_out x (CA_gate channel pc x)),
         (gated channel pc pp x).
  split; [apply PALayer_forward_ok; auto |].
  split; [apply CALayer_forward_ok; auto |].
  split; [apply attention_ok; auto |].
  intros b c i j Hb Hcc Hi Hj.
  split; [| split].
  - rewrite PALayer_item by lia.
    apply scaled_shrunk, PA_gate_unit.
  - rewrite CALayer_item by (auto; lia).
    apply scaled_shrunk, CA_gate_unit.
  - rewrite gated_item by (auto; lia).
    rewrite Rmult_assoc; apply scaled_shrunk.
    pose proof (CA_gate_unit channel pc x b c 0 0).
    pose proof (PA_gate_unit channel pp
                  (torch.mul_out x (CA_gate channel pc x)) b 0 i j).
    split; [apply Rmult_le_pos; lra |].
    rewrite <- (Rmult_1_r 1); apply Rmult_le_compat; lra.
Qed.

Lemma attention_never_amplifies_witness :
  exists yp,
    PALayer.forward (PALayer.init 16 pa_zero) false (zeros 1 16 2 2) = ret yp
    /\ shrunk (item (zeros 1 16 2 2) 0 3 1 1) (item yp 0 3 1 1).
Proof.
  destruct (attention_never_amplifies 16 pa_zero ca_zero false (zeros 1 16 2 2)
              1 2 2) as (yp & yc & ya & Ep & _ & _ & H);
    [reflexivity | lia | lia | lia | lia |].
  exists yp; split; [exact Ep |].
  apply (H 0 3 1 1); lia.
Defined.

(** ** Range of the networks' outputs *)

Lemma OutConv_sigmoid_inr (cin cout : Z) (p : ConvParams) (training : bool)
      (x y : Tensor) :
  OutConv.forward (OutConv.init cin cout true p) training x = inr y ->
  unit_valued y.
Proof.
  rewrite OutConv_forward_eq; intros E.
  apply bind_inr in E as (z & _ & E); injection E as <-.
  intros b c i j; apply sigmoid_unit_interval.
Qed.

(** X5.  Whatever BaseNet, IAN and FuseNet return has all entries in
    [0,1]: their last layer is the sigmoid of OutConv.  ANSN is not
    bounded: for an input the net accepts and every real v, replacing the
    weights of outc by zero and its bias by v makes ANSN return a tensor
    whose entries all equal v. *)
Theorem network_output_range (cin cout : Z) (norm training : bool)
        (pB : BaseNet.params) (pF : FuseNet.params) (x : Tensor) (n h w : Z) :
  (forall y, BaseNet.forward (BaseNet.init cin cout norm pB) training x = inr y ->
             unit_valued y)
  /\ (forall y, IAN.forward (IAN.init cin cout norm pB) training x = inr y ->
                unit_valued y)
  /\ (forall y, FuseNet.forward (FuseNet.init cin cout norm pF) training x = inr y ->
                unit_valued y)
  /\ (size x = [n; cin; h; w] -> 8 <= h -> 8 <= w -> 1 <= n -> 1 <= cin ->
      1 <= cout ->
      (norm = true -> training = true -> n * (h / 8) * (w / 8) <> 1) ->
      forall v : R,
        let q := BaseNet.mkParams
                   (BaseNet.p_inc pB) (BaseNet.p_down1 pB) (BaseNet.p_down2 pB)
                   (BaseNet.p_down3 pB) (BaseNet.p_up1 pB) (BaseNet.p_up2 pB)
                   (BaseNet.p_up3 pB)
                   (mkConvParams (fun _ _ _ _ => 0%R) (fun _ => v)) in
        exists y,
          ANSN.forward (ANSN.init cin cout norm q) training x = inr y
          /\ size y = [n; cout; h; w]
          /\ forall b c i j, item y b c i j = v).
Proof.
  assert (HB : forall y,
            BaseNet.forward (BaseNet.init cin cout norm pB) training x = inr y ->
            unit_valued y).
  { intros y E; rewrite BaseNet_forward_features in E.
    apply bind_inr in E as (f & _ & E).
    eapply OutConv_sigmoid_inr; exact E. }
  split; [exact HB |].
  split; [exact HB |].
  split.
  { intros y E.
    unfold FuseNet.forward, FuseNet.init in E;
      cbn [FuseNet.inc FuseNet.down1 FuseNet.down2 FuseNet.up1 FuseNet.up2
           FuseNet.outc] in E.
    apply bind_inr in E as (x1 & _ & E).
    apply bind_inr in E as (x2 & _ & E).
    apply bind_inr in E as (x3 & _ & E).
    apply bind_inr in E as (y1 & _ & E).
    apply bind_inr in E as (y2 & _ & E).
    apply bind_inr in E as (l & El & E); injection E as <-.
    eapply OutConv_sigmoid_inr; exact El. }
  intros Hs Hh Hw Hn Hi Hc Hbn v q.
  destruct (BaseNet_features_returns cin cout norm
              (OutConv.init 32 cout false (BaseNet.p_outc q)) q training x n h w)
    as (f & Ef & Sf); auto.
  { rewrite !eighth_div; auto. }
  exists (nn.Conv2d_out cout 3 1 (BaseNet.p_outc q) f).
  split; [| split].
  - unfold ANSN.forward; rewrite BaseNet_forward_features.
    change (ANSN.init cin cout norm q)
      with (BaseNet.set_outc (BaseNet.init cin cout norm q)
              (OutConv.init 32 cout false (BaseNet.p_outc q))).
    rewrite Ef; cbn [bind BaseNet.set_outc BaseNet.outc].
    rewrite OutConv_forward_eq, Conv2d_ok by (sizes; lia).
    reflexivity.
  - sizes; apply size_eq; cbn [nn.Conv2d_out dim0 dim1 dim2 dim3].
    repeat split; lia.
  - intros b c i j; apply Conv2d_out_bias_only.
Qed.

Lemma network_output_range_witness :
  exists y,
    ANSN.forward
      (ANSN.init 1 1 true
         (BaseNet.mkParams double_zero double_zero double_zero double_zero
            up_zero up_zero up_zero
            (mkConvParams (fun _ _ _ _ => 0%R) (fun _ => (-3)%R))))
      false (zeros 1 1 8 8) = inr y
    /\ size y = [1; 1; 8; 8]
    /\ forall b c i j, item y b c i j = (-3)%R.
Proof.
  destruct (network_output_range 1 1 true false basenet_zero fusenet_zero
              (zeros 1 1 8 8) 1 8 8) as (_ & _ & _ & H).
  apply (H eq_refl); lia.
Defined.

(** ** Errors of the networks *)

(** X6.  The number of input channels is checked at the first
    convolution: on an input whose channel count is not the constructor's
    in_channels, BaseNet, IAN, ANSN and FuseNet raise the channel error of
    Conv2d, whatever the other sizes are. *)
Theorem wrong_input_channels (cin cout : Z) (norm training : bool)
        (pB : BaseNet.params) (pF : FuseNet.params) (net : BaseNet.t)
        (x : Tensor) :
  dim1 x <> cin ->
  In net [BaseNet.init cin cout norm pB; IAN.init cin cout norm pB;
          ANSN.init cin cout norm pB] ->
  BaseNet.forward net training x = raise ConvInputChannels
  /\ FuseNet.forward (FuseNet.init cin cout norm pF) training x
     = raise ConvInputChannels.
Proof.
  intros Hne Hnet; apply three_nets in Hnet as (act & ->); split.
  - unfold BaseNet.forward, BaseNet.set_outc, BaseNet.init;
      cbn [BaseNet.inc].
    rewrite DoubleConv_wrong_channels by (auto; lia); reflexivity.
  - unfold FuseNet.forward, FuseNet.init; cbn [FuseNet.inc].
    unfold AttentiveDoubleConv.forward, AttentiveDoubleConv.init;
      cbn [AttentiveDoubleConv.conv].
    rewrite DoubleConv_wrong_channels by (auto; lia); reflexivity.
Qed.

Lemma wrong_input_channels_witness :
  BaseNet.forward (IAN.init 1 1 true basenet_zero) true (zeros 1 3 64 64)
  = raise ConvInputChannels.
Proof.
  destruct (wrong_input_channels 1 1 true true basenet_zero fusenet_zero
              (IAN.init 1 1 true basenet_zero) (zeros 1 3 64 64)) as (E & _).
  - cbn [zeros dim1]; lia.
  - right; left; reflexivity.
  - exact E.
Defined.

Lemma no_single_value (norm training : bool) (k : Z) :
  norm = false \/ training = false ->
  norm = true -> training = true -> k <> 1.
Proof. intros [-> | ->]; discriminate. Qed.

Lemma Down_too_small (cin cout : Z) (norm leaky : bool) (p : DoubleConv.params)
      (training : bool) (x : Tensor) (n h w : Z) :
  size x = [n; cin; h; w] -> 1 <= cin -> 1 <= h -> 1 <= w -> h < 2 \/ w < 2 ->
  Down.forward (Down.init cin cout norm leaky p) training x
  = raise PoolOutputTooSmall.
Proof.
  intros Hs Hc Hh Hw Hsmall; sizes.
  unfold Down.forward, Down.init; simpl Down.maxpool_conv.
  rewrite Sequential_two, MaxPool2d_too_small by lia; reflexivity.
Qed.

Lemma small_below (h k : Z) : h / 2 < k -> h < 2 * k.
Proof.
  intros H; destruct (Z.lt_ge_cases h (2 * k)); auto.
  assert (k <= h / 2) by (apply Z.div_le_lower_bound; lia); lia.
Qed.

(** X7.  Without batch normalisation, or in evaluation mode, an input that
    is too small is rejected by a pooling step: BaseNet, IAN and ANSN on an
    input of height and width at least 1 with height or width below 8, and
    FuseNet with height or width below 4, raise the pooling's
    "output size is too small" error. *)
Theorem small_input_fails_in_pooling (cin cout : Z) (norm training : bool)
        (pB : BaseNet.params) (pF : FuseNet.params) (net : BaseNet.t)
        (x : Tensor) (n h w : Z) :
  size x = [n; cin; h; w] -> 1 <= n -> 1 <= cin -> 1 <= h -> 1 <= w ->
  norm = false \/ training = false ->
  In net [BaseNet.init cin cout norm pB; IAN.init cin cout norm pB;
          ANSN.init cin cout norm pB] ->
  (h < 8 \/ w < 8 -> BaseNet.forward net training x = raise PoolOutputTooSmall)
  /\ (h < 4 \/ w < 4 ->
      FuseNet.forward (FuseNet.init cin cout norm pF) training x
      = raise PoolOutputTooSmall).
Proof.
  intros Hs Hn Hc Hh Hw Hmode Hnet.
  apply three_nets in Hnet as (act & ->).
  pose proof (no_single_value norm training) as NS.
  split; intros Hsmall.
  - unfold BaseNet.forward, BaseNet.set_outc, BaseNet.init;
      cbn [BaseNet.inc BaseNet.down1 BaseNet.down2 BaseNet.down3].
    destruct (DoubleConv_returns cin 32 norm true (BaseNet.p_inc pB) training x
                n h w) as (x1 & -> & S1); auto; try lia.
    cbn [bind].
    destruct (Z.lt_ge_cases h 2) as [|H2];
      [rewrite (Down_too_small 32 64 norm true _ training x1 n h w);
       auto; lia |].
    destruct (Z.lt_ge_cases w 2) as [|W2];
      [rewrite (Down_too_small 32 64 norm true _ training x1 n h w);
       auto; lia |].
    destruct (Down_returns 32 64 norm true (BaseNet.p_down1 pB) training x1
                n h w) as (x2 & -> & S2); auto; try lia.
    cbn [bind].
    assert (1 <= h / 2) by (apply half_ge; lia).
    assert (1 <= w / 2) by (apply half_ge; lia).
    destruct (Z.lt_ge_cases (h / 2) 2) as [|H4];
      [rewrite (Down_too_small 64 128 norm true _ training x2 n (h / 2) (w / 2));
       auto; lia |].
    destruct (Z.lt_ge_cases (w / 2) 2) as [|W4];
      [rewrite (Down_too_small 64 128 norm true _ training x2 n (h / 2) (w / 2));
       auto; lia |].
    destruct (Down_returns 64 128 norm true (BaseNet.p_down2 pB) training x2
                n (h / 2) (w / 2)) as (x3 & -> & S3); auto; try lia.
    cbn [bind].
    assert (1 <= h / 2 / 2) by (apply half_ge; lia).
    assert (1 <= w / 2 / 2) by (apply half_ge; lia).
    assert (h / 2 / 2 < 2 \/ w / 2 / 2 < 2).
    { destruct (Z.lt_ge_cases (h / 2 / 2) 2); auto.
      destruct (Z.lt_ge_cases (w / 2 / 2) 2); auto.
      assert (8 <= h) by (apply eighth_ge_one, half_ge; lia).
      assert (8 <= w) by (apply eighth_ge_one, half_ge; lia).
      lia. }
    rewrite (Down_too_small 128 128 norm true _ training x3 n
               (h / 2 / 2) (w / 2 / 2)); auto; lia.
  - unfold FuseNet.forward, FuseNet.init;
      cbn [FuseNet.inc FuseNet.down1 FuseNet.down2].
    destruct (AttentiveDoubleConv_returns cin 32 norm false (FuseNet.p_inc pF)
                training x n h w) as (x1 & -> & S1); auto; try lia.
    cbn [bind].
    unfold AttentiveDown.forward at 1; cbn [AttentiveDown.init AttentiveDown.down].
    destruct (Z.lt_ge_cases h 2) as [|H2];
      [rewrite (Down_too_small 32 64 norm false _ training x1 n h w);
       auto; lia |].
    destruct (Z.lt_ge_cases w 2) as [|W2];
      [rewrite (Down_too_small 32 64 norm false _ training x1 n h w);
       auto; lia |].
    fold (AttentiveDown.forward
            (AttentiveDown.init 32 64 norm false (FuseNet.p_down1 pF)) training x1).
    destruct (AttentiveDown_returns 32 64 norm false (FuseNet.p_down1 pF)
                training x1 n h w) as (x2 & E2 & S2); auto; try lia.
    unfold AttentiveDown.forward at 1 in E2;
      cbn [AttentiveDown.init AttentiveDown.down AttentiveDown.attention] in E2.
    unfold AttentiveDown.forward at 1;
      cbn [AttentiveDown.init AttentiveDown.down AttentiveDown.attention].
    rewrite E2; cbn [bind].
    assert (1 <= h / 2) by (apply half_ge; lia).
    assert (1 <= w / 2) by (apply half_ge; lia).
    assert (h / 2 < 2 \/ w / 2 < 2).
    { destruct (Z.lt_ge_cases (h / 2) 2); auto.
      destruct (Z.lt_ge_cases (w / 2) 2); auto.
      assert (4 <= h) by (apply quarter_ge_one, half_ge; lia).
      assert (4 <= w) by (apply quarter_ge_one, half_ge; lia).
      lia. }
    unfold AttentiveDown.forward; cbn [AttentiveDown.init AttentiveDown.down].
    rewrite (Down_too_small 64 64 norm false _ training x2 n (h / 2) (w / 2));
      auto; lia.
Qed.

Lemma small_input_fails_in_pooling_witness :
  BaseNet.forward (BaseNet.init 1 1 true basenet_zero) false (zeros 1 1 7 64)
  = raise PoolOutputTooSmall
  /\ FuseNet.forward (FuseNet.init 1 1 false fusenet_zero) true (zeros 1 1 64 3)
     = raise PoolOutputTooSmall.
Proof.
  split.
  - destruct (small_input_fails_in_pooling 1 1 true false basenet_zero
                fusenet_zero (BaseNet.init 1 1 true basenet_zero)
                (zeros 1 1 7 64) 1 7 64) as (H & _);
      [reflexivity | lia | lia | lia | lia | right; reflexivity
      | left; reflexivity |].
    apply H; lia.
  - destruct (small_input_fails_in_pooling 1 1 false true basenet_zero
                fusenet_zero (BaseNet.init 1 1 false basenet_zero)
                (zeros 1 1 64 3) 1 64 3) as (_ & H);
      [reflexivity | lia | lia | lia | lia | left; reflexivity
      | left; reflexivity |].
    apply H; lia.
Defined.

(** ** The training flag without normalisation *)

Lemma bind_ext {A B : Type} (r : result A) (k k' : A -> result B) :
  (forall a, k a = k' a) -> bind r k = bind r k'.
Proof. intros E; destruct r; simpl; auto. Qed.

Lemma mode_free_Sequential (ms : list Layer) :
  Forall mode_free ms -> mode_free (nn.Sequential ms).
Proof.
  induction 1 as [|m ms Hm _ IH]; intros x.
  - reflexivity.
  - rewrite !Sequential_cons, (Hm x); apply bind_ext; exact IH.
Qed.

Lemma mode_free_leaves :
  mode_free nn.Identity /\ mode_free nn.ReLU /\ mode_free nn.Sigmoid
  /\ (forall s, mode_free (nn.LeakyReLU s))
  /\ (forall a b k q p, mode_free (nn.Conv2d a b k q p))
  /\ (forall a b k s p, mode_free (nn.ConvTranspose2d a b k s p))
  /\ (forall k, mode_free (nn.MaxPool2d k))
  /\ (forall o, mode_free (nn.AdaptiveAvgPool2d o))
  /\ (forall s, mode_free (nn.Upsample s)).
Proof. repeat split; intros; intro; reflexivity. Qed.

Lemma mode_free_DoubleConv (cin cout : Z) (leaky : bool) (p : DoubleConv.params) :
  mode_free (DoubleConv.forward (DoubleConv.init cin cout false leaky p)).
Proof.
  destruct mode_free_leaves as (I & R & _ & L & C & _).
  unfold DoubleConv.forward, DoubleConv.init; simpl DoubleConv.conv.
  apply mode_free_Sequential.
  repeat (apply Forall_cons || apply Forall_nil); try destruct leaky; auto.
Qed.

Lemma mode_free_Down (cin cout : Z) (leaky : bool) (p : DoubleConv.params) :
  mode_free (Down.forward (Down.init cin cout false leaky p)).
Proof.
  destruct mode_free_leaves as (_ & _ & _ & _ & _ & _ & M & _).
  unfold Down.forward, Down.init; simpl Down.maxpool_conv.
  apply mode_free_Sequential.
  repeat (apply Forall_cons || apply Forall_nil);
    auto using mode_free_DoubleConv.
Qed.

Lemma mode_free_Up (cin cout : Z) (bilinear leaky : bool) (p : Up.params)
      (x1 x2 : Tensor) :
  Up.forward (Up.init cin cout bilinear false leaky p) true x1 x2
  = Up.forward (Up.init cin cout bilinear false leaky p) false x1 x2.
Proof.
  unfold Up.forward.
  assert (E : Up.up (Up.init cin cout bilinear false leaky p) true x1
              = Up.up (Up.init cin cout bilinear false leaky p) false x1)
    by (destruct bilinear; reflexivity).
  rewrite E; apply bind_ext; intros u.
  apply bind_ext; intros pd; apply bind_ext; intros ct.
  rewrite Up_conv_init; apply mode_free_DoubleConv.
Qed.

Lemma mode_free_PALayer (channel : Z) (p : PALayer.params) :
  mode_free (PALayer.forward (PALayer.init channel p)).
Proof. intros x; reflexivity. Qed.

Lemma mode_free_CALayer (channel : Z) (p : CALayer.params) :
  mode_free (CALayer.forward (CALayer.init channel p)).
Proof. intros x; reflexivity. Qed.

Lemma mode_free_attention (channel : Z) (pc : CALayer.params) (pp : PALayer.params) :
  mode_free (nn.Sequential [CALayer.forward (CALayer.init channel pc);
                            PALayer.forward (PALayer.init channel pp)]).
Proof.
  apply mode_free_Sequential.
  repeat (apply Forall_cons || apply Forall_nil);
    auto using mode_free_PALayer, mode_free_CALayer.
Qed.

Lemma mode_free_OutConv (cin cout : Z) (act : bool) (p : ConvParams) :
  mode_free (OutConv.forward (OutConv.init cin cout act p)).
Proof. intros x; rewrite !OutConv_forward_eq; reflexivity. Qed.

Lemma mode_free_AttentiveDoubleConv (cin cout : Z) (leaky : bool)
      (p : AttentiveDoubleConv.params) :
  mode_free (AttentiveDoubleConv.forward
               (AttentiveDoubleConv.init cin cout false leaky p)).
Proof.
  intros x; unfold AttentiveDoubleConv.forward.
  cbn [AttentiveDoubleConv.init AttentiveDoubleConv.conv
       AttentiveDoubleConv.attention].
  rewrite (mode_free_DoubleConv cin cout leaky _ x).
  apply bind_ext; intros c; apply mode_free_attention.
Qed.

Lemma mode_free_AttentiveDown (cin cout : Z) (leaky : bool)
      (p : AttentiveDown.params) :
  mode_free (AttentiveDown.forward (AttentiveDown.init cin cout false leaky p)).
Proof.
  intros x; unfold AttentiveDown.forward.
  cbn [AttentiveDown.init AttentiveDown.down AttentiveDown.attention].
  rewrite (mode_free_Down cin cout leaky _ x).
  apply bind_ext; intros c; apply mode_free_attention.
Qed.

Lemma mode_free_AttentiveUp (cin cout : Z) (bilinear leaky : bool)
      (p : AttentiveUp.params) (x1 x2 : Tensor) :
  AttentiveUp.forward (AttentiveUp.init cin cout bilinear false leaky p) true x1 x2
  = AttentiveUp.forward (AttentiveUp.init cin cout bilinear false leaky p)
      false x1 x2.
Proof.
  unfold AttentiveUp.forward.
  cbn [AttentiveUp.init AttentiveUp.up AttentiveUp.attention].
  rewrite mode_free_Up.
  apply bind_ext; intros c; apply mode_free_attention.
Qed.

(** X8.  Only batch normalisation reads the training flag.  A network built
    with norm=False (FuseNet's default) computes the same result, or
    raises the same error, in training mode and in evaluation mode. *)
Theorem mode_irrelevant_without_norm (cin cout : Z)
        (pB : BaseNet.params) (pF : FuseNet.params) (net : BaseNet.t) (x : Tensor) :
  In net [BaseNet.init cin cout false pB; IAN.init cin cout false pB;
          ANSN.init cin cout false pB] ->
  BaseNet.forward net true x = BaseNet.forward net false x
  /\ FuseNet.forward (FuseNet.init cin cout false pF) true x
     = FuseNet.forward (FuseNet.init cin cout false pF) false x.
Proof.
  intros Hnet; apply three_nets in Hnet as (act & ->); split.
  - unfold BaseNet.forward, BaseNet.set_outc, BaseNet.init;
      cbn [BaseNet.inc BaseNet.down1 BaseNet.down2 BaseNet.down3
           BaseNet.up1 BaseNet.up2 BaseNet.up3 BaseNet.outc].
    rewrite (mode_free_DoubleConv cin 32 true _ x); apply bind_ext; intros x1.
    rewrite (mode_free_Down 32 64 true _ x1); apply bind_ext; intros x2.
    rewrite (mode_free_Down 64 128 true _ x2); apply bind_ext; intros x3.
    rewrite (mode_free_Down 128 128 true _ x3); apply bind_ext; intros x4.
    rewrite mode_free_Up; apply bind_ext; intros y1.
    rewrite mode_free_Up; apply bind_ext; intros y2.
    rewrite mode_free_Up; apply bind_ext; intros y3.
    rewrite (mode_free_OutConv 32 cout act _ y3); reflexivity.
  - unfold FuseNet.forward, FuseNet.init;
      cbn [FuseNet.inc FuseNet.down1 FuseNet.down2 FuseNet.up1 FuseNet.up2
           FuseNet.outc].
    rewrite (mode_free_AttentiveDoubleConv cin 32 false _ x).
    apply bind_ext; intros x1.
    rewrite (mode_free_AttentiveDown 32 64 false _ x1).
    apply bind_ext; intros x2.
    rewrite (mode_free_AttentiveDown 64 64 false _ x2).
    apply bind_ext; intros x3.
    rewrite mode_free_AttentiveUp; apply bind_ext; intros y1.
    rewrite mode_free_AttentiveUp; apply bind_ext; intros y2.
    rewrite (mode_free_OutConv 32 cout true _ y2); reflexivity.
Qed.

Lemma mode_irrelevant_without_norm_witness :
  FuseNet.forward (FuseNet.init 1 1 false fusenet_zero) true (zeros 1 1 8 8)
  = FuseNet.forward (FuseNet.init 1 1 false fusenet_zero) false (zeros 1 1 8 8).
Proof.
  destruct (mode_irrelevant_without_norm 1 1 basenet_zero fusenet_zero
              (BaseNet.init 1 1 false basenet_zero) (zeros 1 1 8 8)) as (_ & E).
  - left; reflexivity.
  - exact E.
Defined.

(** ** Batch normalisation in training mode *)

Lemma DoubleConv_single_value (cin cout : Z) (leaky : bool) (p : DoubleConv.params)
      (x : Tensor) (n h w : Z) :
  size x = [n; cin; h; w] -> 1 <= cout -> 1 <= h -> 1 <= w -> n * h * w = 1 ->
  DoubleConv.forward (DoubleConv.init cin cout true leaky p) true x
  = raise BatchNormSingleValue.
Proof.
  intros Hs Hc Hh Hw Hone; sizes.
  unfold DoubleConv.forward, DoubleConv.init; simpl DoubleConv.conv.
  rewrite Sequential_cons, Conv2d_ok by lia; cbn [bind ret].
  rewrite Sequential_cons, BatchNorm2d_single_value; [reflexivity |].
  cbn [nn.Conv2d_out dim0 dim2 dim3]; subst; lia.
Qed.

Lemma Down_single_value (cin cout : Z) (leaky : bool) (p : DoubleConv.params)
      (x : Tensor) (n h w : Z) :
  size x = [n; cin; h; w] -> 1 <= cin -> 1 <= cout -> 2 <= h -> 2 <= w ->
  n * (h / 2) * (w / 2) = 1 ->
  Down.forward (Down.init cin cout true leaky p) true x
  = raise BatchNormSingleValue.
Proof.
  intros Hs Hi Hc Hh Hw Hone.
  unfold Down.forward, Down.init; simpl Down.maxpool_conv.
  rewrite Sequential_two.
  destruct (MaxPool2d_returns true x n cin h w) as (z & -> & Sz); auto.
  cbn [bind].
  apply (DoubleConv_single_value cin cout leaky p z n (h / 2) (w / 2)); auto;
    apply half_ge; lia.
Qed.

Lemma product_one (n a b : Z) :
  1 <= n -> 1 <= a -> 1 <= b -> n * a * b = 1 -> n = 1 /\ a = 1 /\ b = 1.
Proof. intros; nia. Qed.

(** X9.  With batch normalisation on, training mode needs more than one
    value per channel at the bottleneck.  On an input of size
    (N, Cin, H, W) with H, W at least 8 and N * (H // 8) * (W // 8) = 1,
    that is a single image with H and W from 8 to 15, BaseNet, IAN and ANSN
    built with norm=True raise the batch-normalisation error in training
    mode and return a tensor of size (N, Cout, H, W) in evaluation mode.
    FuseNet built with norm=True does the same for 4 in place of 8. *)
Theorem training_needs_several_values (cin cout : Z)
        (pB : BaseNet.params) (pF : FuseNet.params) (net : BaseNet.t)
        (x : Tensor) (n h w : Z) :
  size x = [n; cin; h; w] -> 1 <= n -> 1 <= cin -> 1 <= cout ->
  In net [BaseNet.init cin cout true pB; IAN.init cin cout true pB;
          ANSN.init cin cout true pB] ->
  (8 <= h -> 8 <= w -> n * (h / 8) * (w / 8) = 1 ->
   BaseNet.forward net true x = raise BatchNormSingleValue
   /\ returns (BaseNet.forward net false x) n cout h w)
  /\ (4 <= h -> 4 <= w -> n * (h / 4) * (w / 4) = 1 ->
      FuseNet.forward (FuseNet.init cin cout true pF) true x
      = raise BatchNormSingleValue
      /\ returns (FuseNet.forward (FuseNet.init cin cout true pF) false x)
                 n cout h w).
Proof.
  intros Hs Hn Hi Hc Hnet.
  apply three_nets in Hnet as (act & ->).
  split; intros Hh Hw Hone.
  - assert (4 <= h / 2) by (apply half_ge; lia).
    assert (4 <= w / 2) by (apply half_ge; lia).
    assert (2 <= h / 2 / 2) by (apply half_ge; lia).
    assert (2 <= w / 2 / 2) by (apply half_ge; lia).
    assert (1 <= h / 2 / 2 / 2) by (apply half_ge; lia).
    assert (1 <= w / 2 / 2 / 2) by (apply half_ge; lia).
    rewrite <- !eighth_div in Hone.
    split.
    + unfold BaseNet.forward, BaseNet.set_outc, BaseNet.init;
        cbn [BaseNet.inc BaseNet.down1 BaseNet.down2 BaseNet.down3].
      destruct (DoubleConv_returns cin 32 true true (BaseNet.p_inc pB) true x
                  n h w) as (x1 & -> & S1); auto; try lia;
        try (intros; apply product_not_one; lia).
      cbn [bind].
      destruct (Down_returns 32 64 true true (BaseNet.p_down1 pB) true x1
                  n h w) as (x2 & -> & S2); auto; try lia;
        try (intros; apply product_not_one; lia).
      cbn [bind].
      destruct (Down_returns 64 128 true true (BaseNet.p_down2 pB) true x2
                  n (h / 2) (w / 2)) as (x3 & -> & S3); auto; try lia;
        try (intros; apply product_not_one; lia).
      cbn [bind].
      rewrite (Down_single_value 128 128 true (BaseNet.p_down3 pB) x3 n
                 (h / 2 / 2) (w / 2 / 2)); auto; lia.
    + apply BaseNet_returns; auto; intros _ E; discriminate E.
  - assert (2 <= h / 2) by (apply half_ge; lia).
    assert (2 <= w / 2) by (apply half_ge; lia).
    assert (1 <= h / 2 / 2) by (apply half_ge; lia).
    assert (1 <= w / 2 / 2) by (apply half_ge; lia).
    rewrite <- !quarter_div in Hone.
    split.
    + unfold FuseNet.forward, FuseNet.init;
        cbn [FuseNet.inc FuseNet.down1 FuseNet.down2].
      destruct (AttentiveDoubleConv_returns cin 32 true false (FuseNet.p_inc pF)
                  true x n h w) as (x1 & -> & S1); auto; try lia;
        try (intros; apply product_not_one; lia).
      cbn [bind].
      destruct (AttentiveDown_returns 32 64 true false (FuseNet.p_down1 pF)
                  true x1 n h w) as (x2 & -> & S2); auto; try lia;
        try (intros; apply product_not_one; lia).
      cbn [bind].
      unfold AttentiveDown.forward; cbn [AttentiveDown.init AttentiveDown.down].
      rewrite (Down_single_value 64 64 false _ x2 n (h / 2) (w / 2));
        auto; lia.
    + apply FuseNet_returns; auto; intros _ E; discriminate E.
Qed.

Lemma training_needs_several_values_witness :
  BaseNet.forward (ANSN.init 1 1 true basenet_zero) true (zeros 1 1 15 9)
  = raise BatchNormSingleValue
  /\ returns (BaseNet.forward (ANSN.init 1 1 true basenet_zero) false
                (zeros 1 1 15 9))
             1 1 15 9.
Proof.
  destruct (training_needs_several_values 1 1 basenet_zero fusenet_zero
              (ANSN.init 1 1 true basenet_zero) (zeros 1 1 15 9) 1 15 9)
    as (H & _);
    [reflexivity | lia | lia | lia | right; right; left; reflexivity |].
  apply H; [lia | lia | reflexivity].
Defined.

(** ** The concatenation in Up *)



(** ** Attentive blocks with fewer than 8 output channels *)

Lemma CALayer_too_few_channels (channel : Z) (p : CALayer.params) (training : bool)
      (x : Tensor) :
  channel < 8 -> 1 <= dim1 x -> 1 <= dim2 x -> 1 <= dim3 x ->
  CALayer.forward (CALayer.init channel p) training x = raise ConvWeightEmpty.
Proof.
  intros Hc H1 H2 H3.
  assert (Hd : channel / 8 < 1) by (apply Z.div_lt_upper_bound; lia).
  unfold CALayer.forward, CALayer.init; cbn [CALayer.avg_pool CALayer.ca].
  rewrite AdaptiveAvgPool2d_ok by auto; cbn [bind ret].
  rewrite Sequential_cons, Conv2d_no_output_channels by auto; reflexivity.
Qed.

Lemma Down_inr_cout (cin cout : Z) (norm leaky : bool) (p : DoubleConv.params)
      (training : bool) (x y : Tensor) :
  Down.forward (Down.init cin cout norm leaky p) training x = inr y -> 1 <= cout.
Proof.
  unfold Down.forward, Down.init; simpl Down.maxpool_conv.
  rewrite Sequential_two; intros E.
  apply bind_inr in E as (z & _ & E).
  eapply DoubleConv_inr; exact E.
Qed.

Lemma Up_inr_cout (cin cout : Z) (bilinear norm leaky : bool) (p : Up.params)
      (training : bool) (x1 x2 y : Tensor) :
  Up.forward (Up.init cin cout bilinear norm leaky p) training x1 x2 = inr y ->
  1 <= cout.
Proof.
  unfold Up.forward; intros E.
  apply bind_inr in E as (u & _ & E).
  apply bind_inr in E as (pd & _ & E).
  apply bind_inr in E as (ct & _ & E).
  rewrite Up_conv_init in E.
  eapply DoubleConv_inr; exact E.
Qed.

(** X11.  The attentive blocks need at least 8 output channels even where
    their base operation does not.  With out_channels below 8, whenever
    Down, Up or DoubleConv returns a tensor, AttentiveDown, AttentiveUp or
    AttentiveDoubleConv built with the same arguments raises the error of a
    convolution without output channel (in CALayer); so none of the three
    ever returns. *)
Theorem attentive_need_eight_channels (cin cout : Z)
        (bilinear norm leaky : bool)
        (pD : AttentiveDown.params) (pU : AttentiveUp.params)
        (pC : AttentiveDoubleConv.params)
        (training : bool) (x x1 x2 : Tensor) :
  cout < 8 ->
  let down := Down.forward (Down.init cin cout norm leaky (AttentiveDown.p_down pD))
                training x in
  let up := Up.forward (Up.init cin cout bilinear norm leaky (AttentiveUp.p_up pU))
              training x1 x2 in
  let conv := DoubleConv.forward
                (DoubleConv.init cin cout norm leaky (AttentiveDoubleConv.p_conv pC))
                training x in
  let adown := AttentiveDown.forward (AttentiveDown.init cin cout norm leaky pD)
                 training x in
  let aup := AttentiveUp.forward (AttentiveUp.init cin cout bilinear norm leaky pU)
               training x1 x2 in
  let aconv := AttentiveDoubleConv.forward
                 (AttentiveDoubleConv.init cin cout norm leaky pC) training x in
  ((forall b, down = inr b -> adown = raise ConvWeightEmpty)
   /\ (forall b, up = inr b -> aup = raise ConvWeightEmpty)
   /\ (forall b, conv = inr b -> aconv = raise ConvWeightEmpty))
  /\ (forall y, adown <> inr y)
  /\ (forall y, aup <> inr y)
  /\ (forall y, aconv <> inr y).
Proof.
  intros Hc down up conv adown aup aconv.
  assert (Hatt : forall pc pp b,
             1 <= cout /\ dim1 b = cout /\ 1 <= dim2 b /\ 1 <= dim3 b ->
             nn.Sequential [CALayer.forward (CALayer.init cout pc);
                            PALayer.forward (PALayer.init cout pp)] training b
             = raise ConvWeightEmpty).
  { intros pc pp b (B1 & B2 & B3 & B4).
    rewrite Sequential_two, CALayer_too_few_channels by lia; reflexivity. }
  assert (D : forall b, down = inr b -> adown = raise ConvWeightEmpty).
  { intros b Eb; subst adown; unfold AttentiveDown.forward.
    cbn [AttentiveDown.init AttentiveDown.down AttentiveDown.attention].
    fold down; rewrite Eb; cbn [bind].
    apply Hatt; split; [eapply Down_inr_cout | eapply Down_inr_out]; exact Eb. }
  assert (U : forall b, up = inr b -> aup = raise ConvWeightEmpty).
  { intros b Eb; subst aup; unfold AttentiveUp.forward.
    cbn [AttentiveUp.init AttentiveUp.up AttentiveUp.attention].
    fold up; rewrite Eb; cbn [bind].
    apply Hatt; split; [eapply Up_inr_cout | eapply Up_inr]; exact Eb. }
  assert (C : forall b, conv = inr b -> aconv = raise ConvWeightEmpty).
  { intros b Eb; subst aconv; unfold AttentiveDoubleConv.forward.
    cbn [AttentiveDoubleConv.init AttentiveDoubleConv.conv
         AttentiveDoubleConv.attention].
    fold conv; rewrite Eb; cbn [bind].
    apply Hatt; split; [eapply DoubleConv_inr | eapply DoubleConv_inr_out];
      exact Eb. }
  split; [auto |].
  split; [| split]; intros y Ey.
  - destruct down as [e|b] eqn:Eb.
    + subst adown; unfold AttentiveDown.forward in Ey.
      cbn [AttentiveDown.init AttentiveDown.down] in Ey.
      fold down in Ey; rewrite Eb in Ey; discriminate Ey.
    + rewrite (D b eq_refl) in Ey; discriminate Ey.
  - destruct up as [e|b] eqn:Eb.
    + subst aup; unfold AttentiveUp.forward in Ey.
      cbn [AttentiveUp.init AttentiveUp.up] in Ey.
      fold up in Ey; rewrite Eb in Ey; discriminate Ey.
    + rewrite (U b eq_refl) in Ey; discriminate Ey.
  - destruct conv as [e|b] eqn:Eb.
    + subst aconv; unfold AttentiveDoubleConv.forward in Ey.
      cbn [AttentiveDoubleConv.init AttentiveDoubleConv.conv] in Ey.
      fold conv in Ey; rewrite Eb in Ey; discriminate Ey.
    + rewrite (C b eq_refl) in Ey; discriminate Ey.
Qed.

Lemma attentive_need_eight_channels_witness :
  exists b,
    DoubleConv.forward (DoubleConv.init 1 4 false false double_zero) false
      (zeros 1 1 4 4) = inr b
    /\ AttentiveDoubleConv.forward
         (AttentiveDoubleConv.init 1 4 false false
            (AttentiveDoubleConv.mkParams double_zero ca_zero pa_zero))
         false (zeros 1 1 4 4)
       = raise ConvWeightEmpty.
Proof.
  destruct (DoubleConv_returns 1 4 false false double_zero false
              (zeros 1 1 4 4) 1 4 4) as (b & Eb & _);
    [reflexivity | lia | lia | lia | discriminate |].
  exists b; split; [exact Eb |].
  destruct (attentive_need_eight_channels 1 4 true false false
              (AttentiveDown.mkParams double_zero ca_zero pa_zero)
              (AttentiveUp.mkParams up_zero ca_zero pa_zero)
              (AttentiveDoubleConv.mkParams double_zero ca_zero pa_zero)
              false (zeros 1 1 4 4) (zeros 1 1 4 4) (zeros 1 1 4 4))
    as ((_ & _ & H) & _); [lia |].
  apply (H b); exact Eb.
Defined.

(** ** What the gates depend on *)

Lemma sumZ_1 (f : Z -> R) : sumZ 1 f = (f 0%Z + 0)%R.
Proof. reflexivity. Qed.

Lemma sumZ_ext_in (n : Z) (f g : Z -> R) :
  (forall k, 0 <= k < n -> f k = g k) -> sumZ n f = sumZ n g.
Proof.
  intros E; unfold sumZ.
  assert (H : forall k, In k (seq 0 (Z.to_nat n)) -> (k < Z.to_nat n)%nat).
  { intros k Hk; apply in_seq in Hk; lia. }
  induction (seq 0 (Z.to_nat n)) as [|k l IH]; simpl; auto.
  rewrite E, IH; auto.
  - intros k' Hk'; apply H; right; auto.
  - specialize (H k (or_introl eq_refl)); lia.
Qed.

(** A 1x1 convolution without padding reads, for the entry at (i, j), the
    input at (i, j) only. *)
Lemma Conv2d_1x1_item (cout : Z) (p : ConvParams) (x : Tensor) (b o i j : Z) :
  item (nn.Conv2d_out cout 1 0 p x) b o i j
  = (conv_bias p o
     + sumZ (dim1 x) (fun c =>
         if in_range i (dim2 x) && in_range j (dim3 x)
         then conv_weight p o c 0 0 * item x b c i j
         else 0))%R.
Proof.
  unfold nn.Conv2d_out; cbn [item].
  f_equal; apply sumZ_ext; intros c.
  rewrite sumZ_1, sumZ_1.
  replace (i + 0 - 0) with i by lia.
  replace (j + 0 - 0) with j by lia.
  destruct (_ && _); lra.
Qed.

(** X12.  Pixel attention is local and channel attention is global.  The
    gate of PALayer at a pixel depends on the input only through its
    channel values at that pixel: two inputs of one size that agree on all
    channels at (b, i, j) have the same gate there.  The gate of CALayer
    for a batch element depends on the input only through its per-channel
    averages over height and width: two inputs of one size with the same
    averages for batch element b have the same gate for b, on every
    channel. *)
Theorem gates_depend_on (channel : Z) (pp : PALayer.params) (pc : CALayer.params)
        (x x' : Tensor) (b i j : Z) :
  size x = size x' ->
  ((forall c, 0 <= c < dim1 x -> item x b c i j = item x' b c i j) ->
   item (PA_gate channel pp x) b 0 i j = item (PA_gate channel pp x') b 0 i j)
  /\
  ((forall c, 0 <= c < dim1 x ->
      sumZ (dim2 x) (fun i => sumZ (dim3 x) (fun j => item x b c i j))
      = sumZ (dim2 x) (fun i => sumZ (dim3 x) (fun j => item x' b c i j))) ->
   forall o, item (CA_gate channel pc x) b o 0 0
             = item (CA_gate channel pc x') b o 0 0).
Proof.
  intros Hs; destruct (size_same _ _ Hs) as (D0 & D1 & D2 & D3).
  split.
  - intros Hpix.
    set (hid := nn.Conv2d_out (channel / 8) 1 0 (PALayer.pa_0 pp) x).
    set (hid' := nn.Conv2d_out (channel / 8) 1 0 (PALayer.pa_0 pp) x').
    assert (Hd : dim1 hid = dim1 hid' /\ dim2 hid = dim2 hid'
                 /\ dim3 hid = dim3 hid').
    { subst hid hid'; cbn [nn.Conv2d_out dim1 dim2 dim3]; repeat split; lia. }
    destruct Hd as (E1 & E2 & E3).
    assert (Hi : forall c, item hid b c i j = item hid' b c i j).
    { intros c; subst hid hid'; rewrite !Conv2d_1x1_item, <- D1, <- D2, <- D3.
      f_equal; apply sumZ_ext_in; intros c' Hc'.
      rewrite (Hpix c' Hc'); reflexivity. }
    unfold PA_gate; fold hid hid'; cbn [pointwise item]; f_equal.
    rewrite !Conv2d_1x1_item; cbn [pointwise dim1 dim2 dim3 item].
    rewrite <- E1, <- E2, <- E3.
    f_equal; apply sumZ_ext; intros c; rewrite Hi; reflexivity.
  - intros Hmean o.
    set (pool := nn.AdaptiveAvgPool2d_out 1 x).
    set (pool' := nn.AdaptiveAvgPool2d_out 1 x').
    assert (Hp : forall c, 0 <= c < dim1 x ->
                   item pool b c 0 0 = item pool' b c 0 0).
    { intros c Hc; subst pool pool'.
      rewrite !global_average, <- D2, <- D3, (Hmean c Hc); reflexivity. }
    set (hid := nn.Conv2d_out (channel / 8) 1 0 (CALayer.ca_0 pc) pool).
    set (hid' := nn.Conv2d_out (channel / 8) 1 0 (CALayer.ca_0 pc) pool').
    assert (Hi : forall c, item hid b c 0 0 = item hid' b c 0 0).
    { intros c; subst hid hid'; rewrite !Conv2d_1x1_item.
      change (dim1 pool) with (dim1 x); change (dim1 pool') with (dim1 x').
      change (dim2 pool') with (dim2 pool); change (dim3 pool') with (dim3 pool).
      rewrite <- D1.
      f_equal; apply sumZ_ext_in; intros c' Hc'.
      rewrite (Hp c' Hc'); reflexivity. }
    unfold CA_gate; fold pool pool'; fold hid hid'; cbn [pointwise item]; f_equal.
    rewrite !Conv2d_1x1_item; cbn [pointwise dim1 dim2 dim3 item].
    change (dim1 hid') with (dim1 hid); change (dim2 hid') with (dim2 hid);
      change (dim3 hid') with (dim3 hid).
    f_equal; apply sumZ_ext; intros c; rewrite Hi; reflexivity.
Qed.

Lemma gates_depend_on_witness :
  item (PA_gate 16 pa_zero (zeros 1 16 2 2)) 0 0 1 1
  = item (PA_gate 16 pa_zero (mkTensor 1 16 2 2
                                (fun _ _ i j => if (i =? 1) && (j =? 1)
                                                then 0%R else 5%R))) 0 0 1 1.
Proof.
  destruct (gates_depend_on 16 pa_zero ca_zero (zeros 1 16 2 2)
              (mkTensor 1 16 2 2
                 (fun _ _ i j => if (i =? 1) && (j =? 1) then 0%R else 5%R))
              0 1 1) as (H & _).
  - reflexivity.
  - apply H; intros c _; reflexivity.
Defined.

(** ** The encoder-decoder pyramid *)

(** X13.  The sizes along the two paths of BaseNet (IAN, ANSN).  On a
    non-empty input of size (N, Cin, H, W) with H, W at least 8 (and more
    than one value per channel at the bottleneck when normalising in
    training mode) the encoder returns tensors of 32, 64, 128 and 128
    channels at heights H, H//2, H//4, H//8 (widths alike); each Up stage
    receives the previous decoder tensor and the encoder tensor of its
    level, whose channels add up to the 256, 128 and 64 it declares, and
    returns 64, 32 and 32 channels at the height and width of that encoder
    tensor; forward is outc applied to the last one. *)
Theorem BaseNet_pyramid (cin cout : Z) (norm training : bool)
        (p : BaseNet.params) (net : BaseNet.t) (x : Tensor) (n h w : Z) :
  size x = [n; cin; h; w] -> 1 <= n -> 1 <= cin -> 8 <= h -> 8 <= w ->
  (norm = true -> training = true -> n * (h / 8) * (w / 8) <> 1) ->
  In net [BaseNet.init cin cout norm p; IAN.init cin cout norm p;
          ANSN.init cin cout norm p] ->
  exists x1 x2 x3 x4 u1 u2 u3,
    DoubleConv.forward (BaseNet.inc net) training x = ret x1
    /\ size x1 = [n; 32; h; w]
    /\ Down.forward (BaseNet.down1 net) training x1 = ret x2
    /\ size x2 = [n; 64; h / 2; w / 2]
    /\ Down.forward (BaseNet.down2 net) training x2 = ret x3
    /\ size x3 = [n; 128; h / 4; w / 4]
    /\ Down.forward (BaseNet.down3 net) training x3 = ret x4
    /\ size x4 = [n; 128; h / 8; w / 8]
    /\ Up.forward (BaseNet.up1 net) training x4 x3 = ret u1
    /\ dim1 x3 + dim1 x4 = 256
    /\ size u1 = [n; 64; h / 4; w / 4]
    /\ Up.forward (BaseNet.up2 net) training u1 x2 = ret u2
    /\ dim1 x2 + dim1 u1 = 128
    /\ size u2 = [n; 32; h / 2; w / 2]
    /\ Up.forward (BaseNet.up3 net) training u2 x1 = ret u3
    /\ dim1 x1 + dim1 u2 = 64
    /\ size u3 = [n; 32; h; w]
    /\ BaseNet.forward net training x
       = OutConv.forward (BaseNet.outc net) training u3.
Proof.
  intros Hs Hn Hi Hh Hw Hbn Hnet.
  apply three_nets in Hnet as (act & ->).
  assert (4 <= h / 2) by (apply half_ge; lia).
  assert (4 <= w / 2) by (apply half_ge; lia).
  assert (2 <= h / 2 / 2) by (apply half_ge; lia).
  assert (2 <= w / 2 / 2) by (apply half_ge; lia).
  assert (1 <= h / 2 / 2 / 2) by (apply half_ge; lia).
  assert (1 <= w / 2 / 2 / 2) by (apply half_ge; lia).
  rewrite <- !(eighth_div h), <- !(eighth_div w), <- !(quarter_div h),
          <- !(quarter_div w) in *.
  unfold BaseNet.forward, BaseNet.set_outc, BaseNet.init;
    cbn [BaseNet.inc BaseNet.down1 BaseNet.down2 BaseNet.down3
         BaseNet.up1 BaseNet.up2 BaseNet.up3 BaseNet.outc].
  destruct (DoubleConv_returns cin 32 norm true (BaseNet.p_inc p) training x
              n h w) as (x1 & E1 & S1); auto; try lia;
    try (intros; apply product_not_one; lia).
  destruct (Down_returns 32 64 norm true (BaseNet.p_down1 p) training x1
              n h w) as (x2 & E2 & S2); auto; try lia;
    try (intros; apply product_not_one; lia).
  destruct (Down_returns 64 128 norm true (BaseNet.p_down2 p) training x2
              n (h / 2) (w / 2)) as (x3 & E3 & S3); auto; try lia;
    try (intros; apply product_not_one; lia).
  destruct (Down_returns 128 128 norm true (BaseNet.p_down3 p) training x3
              n (h / 2 / 2) (w / 2 / 2)) as (x4 & E4 & S4); auto; try lia.
  destruct (Up_returns 256 64 norm true (BaseNet.p_up1 p) training x4 x3
              n 128 (h / 2 / 2 / 2) (w / 2 / 2 / 2) 128 (h / 2 / 2) (w / 2 / 2))
    as (u1 & F1 & T1); auto; try lia;
    try (intros; apply product_not_one; lia).
  destruct (Up_returns 128 32 norm true (BaseNet.p_up2 p) training u1 x2
              n 64 (h / 2 / 2) (w / 2 / 2) 64 (h / 2) (w / 2))
    as (u2 & F2 & T2); auto; try lia;
    try (intros; apply product_not_one; lia).
  destruct (Up_returns 64 32 norm true (BaseNet.p_up3 p) training u2 x1
              n 32 (h / 2) (w / 2) 32 h w)
    as (u3 & F3 & T3); auto; try lia;
    try (intros; apply product_not_one; lia).
  exists x1, x2, x3, x4, u1, u2, u3.
  rewrite E1; cbn [bind]; rewrite E2; cbn [bind]; rewrite E3; cbn [bind].
  rewrite E4; cbn [bind]; rewrite F1; cbn [bind]; rewrite F2; cbn [bind].
  rewrite F3; cbn [bind].
  repeat (split; [first [reflexivity | assumption | sizes; lia] |]).
  apply bind_ret_r.
Qed.

Lemma BaseNet_pyramid_witness :
  exists u3,
    size u3 = [2; 32; 21; 13]
    /\ BaseNet.forward (IAN.init 3 1 true basenet_zero) true (zeros 2 3 21 13)
       = OutConv.forward (BaseNet.outc (IAN.init 3 1 true basenet_zero)) true u3.
Proof.
  destruct (BaseNet_pyramid 3 1 true true basenet_zero
              (IAN.init 3 1 true basenet_zero) (zeros 2 3 21 13) 2 21 13)
    as (x1 & x2 & x3 & x4 & u1 & u2 & u3 & H);
    [ reflexivity | lia | lia | lia | lia
    | intros _ _; vm_compute; discriminate
    | right; left; reflexivity | ].
  exists u3; split; apply H.
Defined.

(** X14.  The sizes along the two paths of FuseNet.  On a non-empty input
    of size (N, Cin, H, W) with H, W at least 4 (and more than one value
    per channel at the bottleneck when normalising in training mode) the
    attentive encoder returns tensors of 32, 64 and 64 channels at heights
    H, H//2, H//4 (widths alike); the two AttentiveUp stages receive
    channels adding up to the 128 and 64 they declare and return 32
    channels at the height and width of their skip tensor; forward is outc
    applied to the last one. *)
Theorem FuseNet_pyramid (cin cout : Z) (norm training : bool)
        (p : FuseNet.params) (x : Tensor) (n h w : Z) :
  size x = [n; cin; h; w] -> 1 <= n -> 1 <= cin -> 4 <= h -> 4 <= w ->
  (norm = true -> training = true -> n * (h / 4) * (w / 4) <> 1) ->
  let net := FuseNet.init cin cout norm p in
  exists x1 x2 x3 u1 u2,
    AttentiveDoubleConv.forward (FuseNet.inc net) training x = ret x1
    /\ size x1 = [n; 32; h; w]
    /\ AttentiveDown.forward (FuseNet.down1 net) training x1 = ret x2
    /\ size x2 = [n; 64; h / 2; w / 2]
    /\ AttentiveDown.forward (FuseNet.down2 net) training x2 = ret x3
    /\ size x3 = [n; 64; h / 4; w / 4]
    /\ AttentiveUp.forward (FuseNet.up1 net) training x3 x2 = ret u1
    /\ dim1 x2 + dim1 x3 = 128
    /\ size u1 = [n; 32; h / 2; w / 2]
    /\ AttentiveUp.forward (FuseNet.up2 net) training u1 x1 = ret u2
    /\ dim1 x1 + dim1 u1 = 64
    /\ size u2 = [n; 32; h; w]
    /\ FuseNet.forward net training x
       = OutConv.forward (FuseNet.outc net) training u2.
Proof.
  intros Hs Hn Hi Hh Hw Hbn net; subst net.
  assert (2 <= h / 2) by (apply half_ge; lia).
  assert (2 <= w / 2) by (apply half_ge; lia).
  assert (1 <= h / 2 / 2) by (apply half_ge; lia).
  assert (1 <= w / 2 / 2) by (apply half_ge; lia).
  rewrite <- !(quarter_div h), <- !(quarter_div w) in *.
  unfold FuseNet.forward, FuseNet.init;
    cbn [FuseNet.inc FuseNet.down1 FuseNet.down2 FuseNet.up1 FuseNet.up2
         FuseNet.outc].
  destruct (AttentiveDoubleConv_returns cin 32 norm false (FuseNet.p_inc p)
              training x n h w) as (x1 & E1 & S1); auto; try lia;
    try (intros; apply product_not_one; lia).
  destruct (AttentiveDown_returns 32 64 norm false (FuseNet.p_down1 p)
              training x1 n h w) as (x2 & E2 & S2); auto; try lia;
    try (intros; apply product_not_one; lia).
  destruct (AttentiveDown_returns 64 64 norm false (FuseNet.p_down2 p)
              training x2 n (h / 2) (w / 2)) as (x3 & E3 & S3); auto; try lia.
  destruct (AttentiveUp_returns 128 32 norm false (FuseNet.p_up1 p) training
              x3 x2 n 64 (h / 2 / 2) (w / 2 / 2) 64 (h / 2) (w / 2))
    as (u1 & F1 & T1); auto; try lia;
    try (intros; apply product_not_one; lia).
  destruct (AttentiveUp_returns 64 32 norm false (FuseNet.p_up2 p) training
              u1 x1 n 32 (h / 2) (w / 2) 32 h w)
    as (u2 & F2 & T2); auto; try lia;
    try (intros; apply product_not_one; lia).
  exists x1, x2, x3, u1, u2.
  rewrite E1; cbn [bind]; rewrite E2; cbn [bind]; rewrite E3; cbn [bind].
  rewrite F1; cbn [bind]; rewrite F2; cbn [bind].
  repeat (split; [first [reflexivity | assumption | sizes; lia] |]).
  apply bind_ret_r.
Qed.

Lemma FuseNet_pyramid_witness :
  exists u2,
    size u2 = [1; 32; 6; 5]
    /\ FuseNet.forward (FuseNet.init 2 1 false fusenet_zero) true (zeros 1 2 6 5)
       = OutConv.forward (FuseNet.outc (FuseNet.init 2 1 false fusenet_zero))
           true u2.
Proof.
  destruct (FuseNet_pyramid 2 1 false true fusenet_zero (zeros 1 2 6 5) 1 6 5)
    as (x1 & x2 & x3 & u1 & u2 & H);
    [ reflexivity | lia | lia | lia | lia | intros E; discriminate E | ].
  exists u2; split; apply H.
Defined.
